(** * ose-calendar: the date-phrase resolver of [scripts/generate_ics.js]

    A shallow embedding of [parseDate] (the spec's [resolve]) and of [main],
    together with the part of the JavaScript runtime they rely on: string
    methods, the three regular expressions, and the [Date] object.

    Conventions.
    - A JavaScript string is a [string]: a sequence of code units below 256.
    - A JavaScript number that is always an integer is a [Z]; where the code
      can produce [NaN] the type is [option Z] and [None] is [NaN].
    - A [Date] is its time value in milliseconds since the epoch,
      [None] being the Invalid Date.
    - The two ambient inputs of the script, the host's offset from UTC and
      the wall clock, are explicit in the record [Ambient]. Dates are built
      in local time and written in UTC, so a statement about dates names
      its host: [runner] is the scheduled host, which keeps UTC, and
      [westOrUTC] is any host at UTC or behind it.
    - Line numbers are those of [scripts/generate_ics.js]. The repository
      holds a second copy of the script with the same [parseDate] and a
      [main] without year detection ([main_without_detection]). *)

From Stdlib Require Import ZArith List Bool Ascii String Lia Permutation.
Import ListNotations.
Open Scope string_scope.
Open Scope Z_scope.

(* ================================================================== *)
(** ** Strings as the script uses them *)

Module JSString.

Definition code (c : ascii) : Z := Z.of_N (N_of_ascii c).

Definition inRange (lo hi : Z) (c : ascii) : bool :=
  (lo <=? code c) && (code c <=? hi).

(** [\d] *)
Definition isDigit (c : ascii) : bool := inRange 48 57 c.

(** [\w]: letters, digits and the underscore. *)
Definition isWordChar (c : ascii) : bool :=
  inRange 97 122 c || inRange 65 90 c || isDigit c || (code c =? 95).

(** [\s] and the characters [trim] removes: TAB, LF, VT, FF, CR, SP, NBSP. *)
Definition isWhiteSpace (c : ascii) : bool :=
  inRange 9 13 c || (code c =? 32) || (code c =? 160).

(** The characters [.] does not match. *)
Definition isLineTerminator (c : ascii) : bool :=
  (code c =? 10) || (code c =? 13).

Definition lowerChar (c : ascii) : ascii :=
  if inRange 65 90 c
     || (inRange 192 222 c && negb (code c =? 215))
  then ascii_of_N (N_of_ascii c + 32) else c.

(** [String.prototype.toLowerCase] *)
Fixpoint toLowerCase (s : string) : string :=
  match s with
  | EmptyString => EmptyString
  | String c s' => String (lowerChar c) (toLowerCase s')
  end.

(** [String.prototype.startsWith] *)
Fixpoint startsWith (s p : string) : bool :=
  match p, s with
  | EmptyString, _ => true
  | String _ _, EmptyString => false
  | String a p', String b s' => Ascii.eqb a b && startsWith s' p'
  end.

(** [String.prototype.includes] *)
Fixpoint includes (s sub : string) : bool :=
  startsWith s sub ||
  match s with
  | EmptyString => false
  | String _ s' => includes s' sub
  end.

Fixpoint drop (n : nat) (s : string) : string :=
  match n, s with
  | O, _ => s
  | S _, EmptyString => EmptyString
  | S n', String _ s' => drop n' s'
  end.

(** [s.replace(pat, rep)] with a string pattern: the first occurrence only.
    The replacements the script uses contain no [$]. *)
Fixpoint replaceFirst (s pat rep : string) : string :=
  if startsWith s pat then rep ++ drop (length pat) s
  else match s with
       | EmptyString => EmptyString
       | String c s' => String c (replaceFirst s' pat rep)
       end.

Fixpoint revOnto (acc s : string) : string :=
  match acc with
  | EmptyString => s
  | String c acc' => revOnto acc' (String c s)
  end.

(** [cur] is the piece being read, most recent character first; [skip]
    counts the characters of a matched separator still to be passed over. *)
Fixpoint splitFrom (sep s : string) (skip : nat) (cur : string) : list string :=
  match s with
  | EmptyString => [revOnto cur ""]
  | String c s' =>
      match skip with
      | S k => splitFrom sep s' k cur
      | O =>
          if startsWith s sep
          then revOnto cur "" :: splitFrom sep s' (length sep - 1) ""
          else splitFrom sep s' O (String c cur)
      end
  end.

(** [String.prototype.split] with a non-empty string separator. *)
Definition split (s sep : string) : list string := splitFrom sep s O "".

Fixpoint trimStart (s : string) : string :=
  match s with
  | EmptyString => EmptyString
  | String c s' => if isWhiteSpace c then trimStart s' else s
  end.

Fixpoint trimEnd (s : string) : string :=
  match s with
  | EmptyString => EmptyString
  | String c s' =>
      match trimEnd s' with
      | EmptyString => if isWhiteSpace c then EmptyString else String c EmptyString
      | t => String c t
      end
  end.

(** [String.prototype.trim] *)
Definition trim (s : string) : string := trimEnd (trimStart s).

Fixpoint takeDigits (s : string) : string :=
  match s with
  | EmptyString => EmptyString
  | String c s' => if isDigit c then String c (takeDigits s') else EmptyString
  end.

(** [s.match(/(\d+)/)]: the leftmost, longest run of digits. *)
Fixpoint matchDigits (s : string) : option string :=
  match s with
  | EmptyString => None
  | String c s' => if isDigit c then Some (takeDigits s) else matchDigits s'
  end.

Fixpoint parseDigits (acc : Z) (s : string) : Z :=
  match s with
  | EmptyString => acc
  | String c s' =>
      if isDigit c then parseDigits (10 * acc + (code c - 48)) s' else acc
  end.

(** [parseInt] on a string that starts with a digit. The value is exact;
    JavaScript rounds above 2^53, where both the exact and the rounded
    number are far beyond any day number a Date can hold. *)
Definition parseInt (s : string) : Z := parseDigits 0 s.

Definition digitChar (d : Z) : ascii := ascii_of_N (Z.to_N (48 + d)).

(** The last [k] decimal digits of [n], zero padded. *)
Fixpoint padDigits (k : nat) (n : Z) : string :=
  match k with
  | O => EmptyString
  | S k' => padDigits k' (n / 10) ++ String (digitChar (n mod 10)) EmptyString
  end.

Fixpoint decimalFrom (fuel : nat) (n : Z) (acc : string) : string :=
  match fuel with
  | O => acc
  | S f =>
      let acc' := String (digitChar (n mod 10)) acc in
      if n / 10 =? 0 then acc' else decimalFrom f (n / 10) acc'
  end.

(** [String(n)] for an integer [n]. *)
Definition decimal (n : Z) : string :=
  if n <? 0 then "-" ++ decimalFrom (S (Z.to_nat (Z.log2 (- n)))) (- n) ""
  else decimalFrom (S (Z.to_nat (Z.log2 n))) n "".

(** [s.split('T')[0]] *)
Fixpoint beforeT (s : string) : string :=
  match s with
  | EmptyString => EmptyString
  | String c s' => if Ascii.eqb c "T"%char then EmptyString else String c (beforeT s')
  end.

End JSString.
Import JSString.

(* ================================================================== *)
(** ** The [Date] object (ECMA-262, section 21.4) *)

Module JSDate.

Definition msPerDay : Z := 86400000.
Definition msPerHour : Z := 3600000.
Definition msPerMinute : Z := 60000.
Definition msPerSecond : Z := 1000.

Definition Day (t : Z) : Z := t / msPerDay.
Definition TimeWithinDay (t : Z) : Z := t mod msPerDay.

Definition isLeap (y : Z) : bool :=
  (y mod 4 =? 0) && (negb (y mod 100 =? 0) || (y mod 400 =? 0)).

Definition DaysInYear (y : Z) : Z := if isLeap y then 366 else 365.

Definition DayFromYear (y : Z) : Z :=
  365 * (y - 1970) + (y - 1969) / 4 - (y - 1901) / 100 + (y - 1601) / 400.

(** The year containing day number [d]: the largest [y] with
    [DayFromYear y <= d] (lemma [YearFromDay_spec]). *)
Definition YearFromDay (d : Z) : Z :=
  let y0 := 1970 + (400 * d) / 146097 in
  if d <? DayFromYear y0 then y0 - 1
  else if DayFromYear (y0 + 1) <=? d then y0 + 1
  else y0.

Definition YearFromTime (t : Z) : Z := YearFromDay (Day t).

Definition DayWithinYear (t : Z) : Z := Day t - DayFromYear (YearFromTime t).

Definition InLeapYear (t : Z) : Z := if isLeap (YearFromTime t) then 1 else 0.

(** Day within the year on which month [m] (0 to 11) starts; [m = 12]
    gives the length of the year. *)
Definition monthStart (leap m : Z) : Z :=
  match m with
  | 0 => 0
  | 1 => 31
  | 2 => 59 + leap
  | 3 => 90 + leap
  | 4 => 120 + leap
  | 5 => 151 + leap
  | 6 => 181 + leap
  | 7 => 212 + leap
  | 8 => 243 + leap
  | 9 => 273 + leap
  | 10 => 304 + leap
  | 11 => 334 + leap
  | _ => 365 + leap
  end.

Definition monthOfYearDay (leap dwy : Z) : Z :=
  if dwy <? 31 then 0
  else if dwy <? 59 + leap then 1
  else if dwy <? 90 + leap then 2
  else if dwy <? 120 + leap then 3
  else if dwy <? 151 + leap then 4
  else if dwy <? 181 + leap then 5
  else if dwy <? 212 + leap then 6
  else if dwy <? 243 + leap then 7
  else if dwy <? 273 + leap then 8
  else if dwy <? 304 + leap then 9
  else if dwy <? 334 + leap then 10
  else 11.

Definition MonthFromTime (t : Z) : Z :=
  monthOfYearDay (InLeapYear t) (DayWithinYear t).

Definition DateFromTime (t : Z) : Z :=
  DayWithinYear t - monthStart (InLeapYear t) (MonthFromTime t) + 1.

Definition HourFromTime (t : Z) : Z := (t / msPerHour) mod 24.
Definition MinFromTime (t : Z) : Z := (t / msPerMinute) mod 60.
Definition SecFromTime (t : Z) : Z := (t / msPerSecond) mod 60.
Definition msFromTime (t : Z) : Z := t mod msPerSecond.

(** The range of years and months the engine (V8) takes as MakeDay's
    "argument out of range". *)
Definition kMaxYear : Z := 1000000.
Definition kMaxMonth : Z := 10000000.

Definition MakeDay (year month date : Z) : option Z :=
  if (Z.abs year <=? kMaxYear) && (Z.abs month <=? kMaxMonth) then
    let ym := year + month / 12 in
    let mn := month mod 12 in
    Some (DayFromYear ym + monthStart (if isLeap ym then 1 else 0) mn + date - 1)
  else None.

Definition MakeDate (day time : Z) : Z := day * msPerDay + time.

Definition maxTime : Z := 8640000000000000.

Definition TimeClip (t : Z) : option Z :=
  if Z.abs t <=? maxTime then Some t else None.

(** A Date object: its time value, [None] for the Invalid Date. *)
Definition Date : Type := option Z.

Section LocalTime.

(** The host's offset from UTC in milliseconds, taken as constant. *)
Variable LocalTZA : Z.

Definition LocalTime (t : Z) : Z := t + LocalTZA.
Definition UTC (t : Z) : Z := t - LocalTZA.

Definition MakeFullYear (y : Z) : Z :=
  if (0 <=? y) && (y <=? 99) then 1900 + y else y.

(** [new Date(year, monthIndex, day)] *)
Definition newDate (year monthIndex day : Z) : Date :=
  match MakeDay (MakeFullYear year) monthIndex day with
  | Some d => TimeClip (UTC (MakeDate d 0))
  | None => None
  end.

(** [d.getFullYear()] *)
Definition getFullYear (d : Date) : option Z :=
  match d with
  | Some t => Some (YearFromTime (LocalTime t))
  | None => None
  end.

(** [d.getDate()] *)
Definition getDate (d : Date) : option Z :=
  match d with
  | Some t => Some (DateFromTime (LocalTime t))
  | None => None
  end.

(** [d.setDate(dt)] *)
Definition setDate (d : Date) (dt : option Z) : Date :=
  match d, dt with
  | Some tv, Some dt =>
      let t := LocalTime tv in
      match MakeDay (YearFromTime t) (MonthFromTime t) dt with
      | Some day => TimeClip (UTC (MakeDate day (TimeWithinDay t)))
      | None => None
      end
  | _, _ => None
  end.

(** [d.setFullYear(y)] *)
Definition setFullYear (d : Date) (y : Z) : Date :=
  let t := match d with Some tv => LocalTime tv | None => 0 end in
  match MakeDay y (MonthFromTime t) (DateFromTime t) with
  | Some day => TimeClip (UTC (MakeDate day (TimeWithinDay t)))
  | None => None
  end.

End LocalTime.

(** [a < b] on two Date objects: their time values are compared, and a
    comparison with [NaN] is false. *)
Definition ltb (a b : Date) : bool :=
  match a, b with
  | Some x, Some y => x <? y
  | _, _ => false
  end.

Definition isoYear (y : Z) : string :=
  if (0 <=? y) && (y <=? 9999) then padDigits 4 y
  else (if y <? 0 then "-" else "+") ++ padDigits 6 (Z.abs y).

(** The date part of the ISO format for day number [d]. *)
Definition isoDay (d : Z) : string :=
  let t := d * msPerDay in
  isoYear (YearFromTime t) ++ "-" ++ padDigits 2 (MonthFromTime t + 1)
    ++ "-" ++ padDigits 2 (DateFromTime t).

(** [d.toISOString()] on a valid time value: always in UTC. *)
Definition isoString (t : Z) : string :=
  isoDay (Day t) ++ "T" ++ padDigits 2 (HourFromTime t) ++ ":"
    ++ padDigits 2 (MinFromTime t) ++ ":" ++ padDigits 2 (SecFromTime t)
    ++ "." ++ padDigits 3 (msFromTime t) ++ "Z".

End JSDate.
Import JSDate.

(* ================================================================== *)
(** ** Results, exceptions and the ambient inputs *)

Inductive exn : Type :=
| RangeError (message : string)   (* thrown by [toISOString] *)
| Error (message : string).       (* rejected fetch *)

Definition message (e : exn) : string :=
  match e with RangeError m => m | Error m => m end.

(** A computation that returns or throws. *)
Inductive completion (A : Type) : Type :=
| Return (a : A)
| Throw (e : exn).
Arguments Return {A} a.
Arguments Throw {A} e.

Definition bind {A B : Type} (c : completion A) (k : A -> completion B)
  : completion B :=
  match c with
  | Return a => k a
  | Throw e => Throw e
  end.

Notation "x <- c ;; k" := (bind c (fun x => k))
  (at level 61, c at next level, right associativity).

(** What the script reads from its surroundings besides its arguments. *)
Record Ambient : Type := {
  LocalTZA : Z;   (* offset of local time from UTC, in milliseconds *)
  now : Z         (* time value of the wall clock *)
}.

(** The scheduled run: GitHub's [ubuntu-latest] runner keeps UTC. *)
Definition runner (clock : Z) : Ambient := {| LocalTZA := 0; now := clock |}.

(** [d.toISOString().split('T')[0]] *)
Definition toISODate (d : Date) : completion string :=
  match d with
  | Some t => Return (beforeT (isoString t))
  | None => Throw (RangeError "Invalid time value")
  end.

(** The object [parseDate] returns; [None] is [null]. *)
Record DateRange : Type := {
  startDate : option string;
  endDate : option string
}.

Definition unresolved : DateRange := {| startDate := None; endDate := None |}.

Definition resolved (s e : string) : DateRange :=
  {| startDate := Some s; endDate := Some e |}.

(* ================================================================== *)
(** ** [parseDate] *)

Definition isOrdinalSuffix (s : string) : bool :=
  startsWith s "st" || startsWith s "nd" || startsWith s "rd" || startsWith s "th".

(** [dateStr.replace(/(\d+)(st|nd|rd|th)/g, "$1")], one left-to-right pass.
    [afterDigit] says that the previous character copied was a digit, so the
    reader stands at the end of a run of digits. *)
Fixpoint stripFrom (afterDigit : bool) (s : string) : string :=
  match s with
  | EmptyString => EmptyString
  | String c s' =>
      if afterDigit && isOrdinalSuffix s then
        match s' with
        | String _ s'' => stripFrom false s''
        | EmptyString => EmptyString
        end
      else String c (stripFrom (isDigit c) s')
  end.

Definition stripOrdinals (s : string) : string := stripFrom false s.

(** Exactly four digits and then the end of the string or a non-word
    character: [(\d{4})\b] at the head of [s]. *)
Definition fourDigitsHere (s : string) : option string :=
  match s with
  | String a (String b (String c (String d rest))) =>
      if isDigit a && isDigit b && isDigit c && isDigit d
         && match rest with
            | EmptyString => true
            | String e _ => negb (isWordChar e)
            end
      then Some (String a (String b (String c (String d EmptyString))))
      else None
  | _ => None
  end.

(** [dateStr.match(/\b(\d{4})\b/)]; [prevWord] says that the character
    before [s] is a word character. *)
Fixpoint matchYearFrom (prevWord : bool) (s : string) : option string :=
  match s with
  | EmptyString => None
  | String c s' =>
      match (if prevWord then None else fourDigitsHere s) with
      | Some y => Some y
      | None => matchYearFrom (isWordChar c) s'
      end
  end.

Definition matchYear (s : string) : option string := matchYearFrom false s.

Definition monthMap : list (string * Z) :=
  [("january", 1); ("february", 2); ("march", 3); ("april", 4); ("may", 5);
   ("june", 6); ("july", 7); ("august", 8); ("september", 9);
   ("october", 10); ("november", 11); ("december", 12)]%list.

(** [Object.keys(monthMap)]: the keys in insertion order. *)
Definition Object_keys (m : list (string * Z)) : list string := map fst m.

(** [monthMap[key]]; [None] is [undefined]. *)
Fixpoint lookup (m : list (string * Z)) (key : string) : option Z :=
  match m with
  | [] => None
  | (k, v) :: m' => if String.eqb k key then Some v else lookup m' key
  end%list.

(** The loop of lines 69-72: no [break], so a later key overwrites an
    earlier one. The state is [(startMonth, endMonth)]. *)
Definition monthsOfParts (startPart endPart : string)
  : option string * option string :=
  fold_left
    (fun st month =>
       let '(startMonth, endMonth) := st in
       (if includes (toLowerCase startPart) month then Some month else startMonth,
        if includes (toLowerCase endPart) month then Some month else endMonth))
    (Object_keys monthMap) (None, None).

(** The loops of lines 75-80 and 105-110: [break] at the first key found. *)
Fixpoint firstKeyIn (keys : list string) (s : string) : option string :=
  match keys with
  | [] => None
  | month :: keys' =>
      if includes (toLowerCase s) month then Some month else firstKeyIn keys' s
  end%list.

Definition firstMonth (s : string) : option string :=
  firstKeyIn (Object_keys monthMap) s.

(** Lines 52-56: an explicit year replaces the context year, and the first
    [", <year>"] is removed from the phrase. *)
Definition yearOverride (dateStr : string) (year : Z) : Z * string :=
  match matchYear dateStr with
  | Some y =>
      let year := parseInt y in
      (year, replaceFirst dateStr (", " ++ decimal year) "")
  | None => (year, dateStr)
  end.

Section ParseDate.

Variable env : Ambient.

Let tza := LocalTZA env.

(** Lines 89-94: the two dates as constructed, the end date moved to the
    next year when the range wraps. *)
Definition constructedStart (year ms sd : Z) : Date := newDate tza year (ms - 1) sd.
Definition constructedEnd (year me ed : Z) : Date := newDate tza year (me - 1) ed.

Definition wraps (year ms me sd ed : Z) : bool :=
  JSDate.ltb (constructedEnd year me ed) (constructedStart year ms sd) && (me <? ms).

Definition rolledEnd (year ms me sd ed : Z) : Date :=
  if wraps year ms me sd ed
  then setFullYear tza (constructedEnd year me ed) (year + 1)
  else constructedEnd year me ed.

(** Lines 96-100. *)
Definition emitRange (year ms me sd ed : Z) : completion DateRange :=
  startISO <- toISODate (constructedStart year ms sd) ;;
  let endDate := rolledEnd year ms me sd ed in
  let endDate := setDate tza endDate (option_map (Z.add 1) (getDate tza endDate)) in
  endISO <- toISODate endDate ;;
  Return (resolved startISO endISO).

(** Lines 115-120. *)
Definition emitSingle (year m day : Z) : completion DateRange :=
  let date := newDate tza year (m - 1) day in
  startISO <- toISODate date ;;
  let date := setDate tza date (option_map (Z.add 1) (getDate tza date)) in
  endISO <- toISODate date ;;
  Return (resolved startISO endISO).

(** Lines 62-88: the months and days of a range phrase, when all four are
    found. *)
Definition rangeFields (dateStr : string)
  : option (string * string * string * string) :=
  let separator := if includes dateStr " - " then " - " else " to " in
  match split dateStr separator with
  | [p0; p1] =>
      let startPart := trim p0 in
      let endPart := trim p1 in
      let '(startMonth, endMonth) := monthsOfParts startPart endPart in
      let startMonth :=
        match startMonth with
        | Some m => Some m
        | None => firstMonth dateStr
        end in
      let endMonth :=
        match endMonth with
        | Some m => Some m
        | None => startMonth
        end in
      match matchDigits startPart, matchDigits endPart, startMonth, endMonth with
      | Some sd, Some ed, Some sm, Some em => Some (sm, em, sd, ed)
      | _, _, _, _ => None
      end
  | _ => None
  end%list.

(** Lines 104-114. *)
Definition singleFields (dateStr : string) : option (string * string) :=
  match matchDigits dateStr, firstMonth dateStr with
  | Some day, Some month => Some (month, day)
  | _, _ => None
  end.

(** A month number that is [undefined] makes the Date invalid, and
    [toISOString] throws on it. *)
Definition invalidDate : completion DateRange :=
  Throw (RangeError "Invalid time value").

(** [parseDate(dateStr, year)]; [yearArg = None] is a call without the
    second argument, which defaults to [new Date().getFullYear()]. *)
Definition parseDate (dateStr : string) (yearArg : option Z)
  : completion DateRange :=
  let year :=
    match yearArg with
    | Some y => y
    | None => YearFromTime (LocalTime tza (now env))
    end in
  let dateStr := stripOrdinals dateStr in
  if includes (toLowerCase dateStr) "not announced yet" then Return unresolved
  else
    let '(year, dateStr) := yearOverride dateStr year in
    if includes dateStr " - " || includes dateStr " to " then
      match rangeFields dateStr with
      | Some (sm, em, sd, ed) =>
          match lookup monthMap sm, lookup monthMap em with
          | Some ms, Some me => emitRange year ms me (parseInt sd) (parseInt ed)
          | _, _ => invalidDate
          end
      | None => Return unresolved
      end
    else
      match singleFields dateStr with
      | Some (month, day) =>
          match lookup monthMap month with
          | Some m => emitSingle year m (parseInt day)
          | None => invalidDate
          end
      | None => Return unresolved
      end.

End ParseDate.

(** The spec's [resolve]: [parseDate] called with an explicit context year,
    as [main] calls it. *)
Definition resolve (env : Ambient) (phrase : string) (contextYear : Z)
  : completion DateRange :=
  parseDate env phrase (Some contextYear).

(* ================================================================== *)
(** ** The regular expressions of [main] *)

Module Regex.

(** The pieces the patterns of [main] are made of. *)
Inductive atom : Type :=
| Lit (s : string)          (* literal text *)
| LitNoCase (s : string)    (* literal text under the [i] flag, given in lower case *)
| LazyDots                  (* [.*?] *)
| Spaces                    (* [\s*] *)
| Digit                     (* [\d] *)
| WordBoundary.             (* [\b] *)

Fixpoint take (n : nat) (s : string) : string :=
  match n, s with
  | S n', String c s' => String c (take n' s')
  | _, _ => EmptyString
  end.

(** Is the last character read a word character, after reading [piece]? *)
Fixpoint wordAfter (prevWord : bool) (piece : string) : bool :=
  match piece with
  | EmptyString => prevWord
  | String c piece' => wordAfter (isWordChar c) piece'
  end.

Definition withPiece (piece : string) (r : option (list string * string))
  : option (list string * string) :=
  match r with
  | Some (pieces, rest) => Some (piece :: pieces, rest)%list
  | None => None
  end.

(** Backtracking match of the atoms at the head of the string: the text
    matched by each atom, and what is left of the string. *)
Fixpoint matchAtoms (p : list atom) : bool -> string -> option (list string * string) :=
  match p with
  | [] => fun _ s => Some ([], s)
  | a :: p' =>
      let continue := matchAtoms p' in
      match a with
      | Lit l => fun prevWord s =>
          if startsWith s l
          then withPiece l (continue (wordAfter prevWord l) (drop (length l) s))
          else None
      | LitNoCase l => fun prevWord s =>
          if startsWith (toLowerCase s) l
          then let piece := take (length l) s in
               withPiece piece (continue (wordAfter prevWord piece) (drop (length l) s))
          else None
      | Digit => fun _ s =>
          match s with
          | String c s' =>
              if isDigit c then withPiece (String c EmptyString) (continue true s') else None
          | EmptyString => None
          end
      | WordBoundary => fun prevWord s =>
          let nextWord := match s with String c _ => isWordChar c | EmptyString => false end in
          if xorb prevWord nextWord then withPiece EmptyString (continue prevWord s) else None
      | LazyDots =>
          (fix shortest (acc : string) (prevWord : bool) (s : string) {struct s} :=
             match continue prevWord s with
             | Some r => withPiece (revOnto acc EmptyString) (Some r)
             | None =>
                 match s with
                 | String c s' =>
                     if isLineTerminator c then None
                     else shortest (String c acc) (isWordChar c) s'
                 | EmptyString => None
                 end
             end) EmptyString
      | Spaces =>
          (fix longest (acc : string) (prevWord : bool) (s : string) {struct s} :=
             let more :=
               match s with
               | String c s' =>
                   if isWhiteSpace c then longest (String c acc) false s' else None
               | EmptyString => None
               end in
             match more with
             | Some r => Some r
             | None => withPiece (revOnto acc EmptyString) (continue prevWord s)
             end) EmptyString
      end
  end%list.

(** [s.match(re)] without the [g] flag: the leftmost match. *)
Fixpoint searchFrom (p : list atom) (prevWord : bool) (s : string)
  : option (list string) :=
  match matchAtoms p prevWord s with
  | Some (pieces, _) => Some pieces
  | None =>
      match s with
      | String c s' => searchFrom p (isWordChar c) s'
      | EmptyString => None
      end
  end.

Definition search (p : list atom) (s : string) : option (list string) :=
  searchFrom p false s.

(** The loop [while ((m = re.exec(s)) !== null)] with the [g] flag: all
    matches from left to right, each search starting where the previous
    match ended. The patterns used never match the empty string. *)
Fixpoint execFrom (p : list atom) (skip : nat) (prevWord : bool) (s : string)
  : list (list string) :=
  match s with
  | EmptyString => []
  | String c s' =>
      match skip with
      | S k => execFrom p k (isWordChar c) s'
      | O =>
          match matchAtoms p prevWord s with
          | Some (pieces, rest) =>
              pieces :: execFrom p (length s - length rest - 1) (isWordChar c) s'
          | None => execFrom p O (isWordChar c) s'
          end
      end
  end%list.

Definition execAll (p : list atom) (s : string) : list (list string) :=
  execFrom p O false s.

End Regex.
Import Regex.

Definition LF : string := String "010"%char EmptyString.

(** [/open source events.*?(20\d{2})/i] *)
Definition headerYearPattern : list atom :=
  [LitNoCase "open source events"; LazyDots; Lit "20"; Digit; Digit]%list.

(** [/\b20\d{2}\b/] *)
Definition contentYearPattern : list atom :=
  [WordBoundary; Lit "20"; Digit; Digit; WordBoundary]%list.

(** [/- \[(.*?)\]\((.*?)\)\n\s*> Date: (.*?) \|\| Mode: (.*?) \|\| Location: (.*?)\./g] *)
Definition eventPattern : list atom :=
  [Lit "- ["; LazyDots; Lit "]("; LazyDots; Lit (")" ++ LF); Spaces;
   Lit "> Date: "; LazyDots; Lit " || Mode: "; LazyDots;
   Lit " || Location: "; LazyDots; Lit "."]%list.

(* ================================================================== *)
(** ** [main] *)

(** One match of [eventPattern]: its five groups. *)
Record Entry : Type := {
  entry_name : string;
  entry_url : string;
  entry_date : string;
  entry_mode : string;
  entry_location : string
}.

Definition entryOfMatch (pieces : list string) : list Entry :=
  match pieces with
  | [_; name; _; url; _; _; _; date; _; mode; _; location; _] =>
      [{| entry_name := name; entry_url := url; entry_date := date;
          entry_mode := mode; entry_location := location |}]
  | _ => []
  end%list.

Definition extractEntries (markdownText : string) : list Entry :=
  flat_map entryOfMatch (execAll eventPattern markdownText).

(** The objects pushed on [events]. *)
Record Event : Type := {
  name : string;
  url : string;
  start_date : string;
  end_date : string;
  ev_startDate : string;
  ev_endDate : string;
  mode : string;
  location : string;
  original_date : string
}.

(** What the script does to the outside world. A written file is recorded
    as the events it is made from: [JsonOf] stands for the
    [JSON.stringify] of the seven stored fields, [IcsOf] for the call of
    [generateICS]. The text [generateICS] returns also depends on
    [Math.random] and on the clock, which it reads for every event (lines
    146-147); [calendarsWritten] below gives that text. *)
Inductive content : Type :=
| JsonOf (events : list Event)
| IcsOf (events : list Event).

Inductive effect : Type :=
| console_log (s : string)
| console_warn (s : string)
| console_error (s : string)
| writeFileSync (path : string) (c : content).

Definition isWrite (e : effect) : bool :=
  match e with writeFileSync _ _ => true | _ => false end.

(** JavaScript truthiness of a string or [null]. *)
Definition truthy (o : option string) : bool :=
  match o with
  | Some s => negb (String.eqb s EmptyString)
  | None => false
  end.

(** [events.sort((a, b) => a.startDate.localeCompare(b.startDate))]: a stable
    sort; on ISO dates the comparison is that of the code units. *)
Fixpoint insertEvent (e : Event) (l : list Event) : list Event :=
  match l with
  | [] => [e]
  | x :: l' =>
      if String.ltb (ev_startDate x) (ev_startDate e) then x :: insertEvent e l'
      else e :: l
  end%list.

Definition sortEvents (l : list Event) : list Event :=
  fold_right insertEvent []%list l.

Section Main.

Variable env : Ambient.

(** Lines 171-190. *)
Definition detectYear (markdownText : string) : Z * list effect :=
  let currentYear := YearFromTime (LocalTime (LocalTZA env) (now env)) in
  match search headerYearPattern markdownText with
  | Some [_; _; a; b; c] =>
      let detectedYear := parseInt (a ++ b ++ c) in
      (detectedYear,
       [console_log ("Detected event year from heading: " ++ decimal detectedYear)])
  | _ =>
      match search contentYearPattern markdownText with
      | Some [_; a; b; c; _] =>
          let detectedYear := parseInt (a ++ b ++ c) in
          (detectedYear,
           [console_log ("Detected event year from content: " ++ decimal detectedYear)])
      | _ =>
          (currentYear,
           [console_log ("No year detected; defaulting to current year: "
                         ++ decimal currentYear)])
      end
  end%list.

(** The variables of the extraction loop, and the effects so far. *)
Record LoopState : Type := {
  events : list Event;
  successCount : Z;
  failCount : Z;
  trace : list effect
}.

(** The body of the [while] loop, lines 200-222, over the matches in order;
    an exception of [parseDate] leaves the loop. *)
Fixpoint extractionLoop (detectedYear : Z) (entries : list Entry) (st : LoopState)
  : LoopState * option exn :=
  match entries with
  | [] => (st, None)
  | en :: entries' =>
      match parseDate env (entry_date en) (Some detectedYear) with
      | Throw e => (st, Some e)
      | Return r =>
          if truthy (startDate r) && truthy (endDate r) then
            let s := match startDate r with Some s => s | None => EmptyString end in
            let e := match endDate r with Some e => e | None => EmptyString end in
            extractionLoop detectedYear entries'
              {| events := events st ++
                   [{| name := entry_name en; url := entry_url en;
                       start_date := s; end_date := e;
                       ev_startDate := s; ev_endDate := e;
                       mode := entry_mode en; location := entry_location en;
                       original_date := entry_date en |}];
                 successCount := successCount st + 1;
                 failCount := failCount st;
                 trace := trace st |}
          else
            extractionLoop detectedYear entries'
              {| events := events st;
                 successCount := successCount st;
                 failCount := failCount st + 1;
                 trace := trace st ++
                   [console_warn ("Unable to parse date '" ++ entry_date en
                                  ++ "' for event '" ++ entry_name en
                                  ++ "'. Skipping...")] |}
      end
  end%list.

(** [main()], given the outcome of [fetchContent(README_URL)]: the effects
    of the run, in order. *)
Definition main (fetched : completion string) : list effect :=
  match fetched with
  | Throw e => [console_error ("Error occurred: " ++ message e)]
  | Return markdownText =>
      let '(detectedYear, logged) := detectYear markdownText in
      let st0 := {| events := []; successCount := 0; failCount := 0;
                    trace := logged |} in
      match extractionLoop detectedYear (extractEntries markdownText) st0 with
      | (st, Some e) => trace st ++ [console_error ("Error occurred: " ++ message e)]
      | (st, None) =>
          match events st with
          | [] =>
              trace st ++
              [console_error "No events were successfully parsed. Check date formats."]
          | _ =>
              let sorted := sortEvents (events st) in
              trace st ++
              [writeFileSync "events.json" (JsonOf sorted);
               writeFileSync "events.ics" (IcsOf sorted);
               console_log ("Successfully parsed " ++ decimal (successCount st)
                            ++ " events (" ++ decimal (failCount st) ++ " skipped)");
               console_log "JSON and ICS files generated successfully!"]
          end
      end
  end%list.

End Main.

(* ================================================================== *)
(** ** The two halves of [parseDate]

    [parseDate] first reads numbers off the phrase (lines 41-88 and
    104-114) and only then builds Date objects from them (lines 89-100 and
    115-120). [reading] is the first half on its own and [construct] the
    second; lemma [parseDate_reading] shows that their composition is
    [parseDate]. *)

Inductive Reading : Type :=
| Unscheduled                          (* "not announced yet", line 44 *)
| Unreadable                           (* a piece is missing, line 124 *)
| RangeOf (year ms me sd ed : Z)       (* line 88 passed *)
| SingleOf (year m day : Z)            (* line 114 passed *)
| UndefinedMonth.                      (* a month that is not a key *)

Definition reading (dateStr : string) (year : Z) : Reading :=
  let dateStr := stripOrdinals dateStr in
  if includes (toLowerCase dateStr) "not announced yet" then Unscheduled
  else
    let '(year, dateStr) := yearOverride dateStr year in
    if includes dateStr " - " || includes dateStr " to " then
      match rangeFields dateStr with
      | Some (sm, em, sd, ed) =>
          match lookup monthMap sm, lookup monthMap em with
          | Some ms, Some me => RangeOf year ms me (parseInt sd) (parseInt ed)
          | _, _ => UndefinedMonth
          end
      | None => Unreadable
      end
    else
      match singleFields dateStr with
      | Some (month, day) =>
          match lookup monthMap month with
          | Some m => SingleOf year m (parseInt day)
          | None => UndefinedMonth
          end
      | None => Unreadable
      end.

Definition construct (env : Ambient) (r : Reading) : completion DateRange :=
  match r with
  | Unscheduled | Unreadable => Return unresolved
  | RangeOf year ms me sd ed => emitRange env year ms me sd ed
  | SingleOf year m day => emitSingle env year m day
  | UndefinedMonth => invalidDate
  end.

(** A string contains [sub] when it can be cut into three pieces, the
    middle one being [sub]. *)
Definition occursIn (sub s : string) : Prop :=
  exists pre post, s = pre ++ sub ++ post.

(** A month key occurs in a phrase when the lower-cased phrase contains it. *)
Definition mentions (s month : string) : bool := includes (toLowerCase s) month.

(** The whole days of a time value that is a UTC midnight. *)
Definition midnight (day : Z) : Date := Some (day * msPerDay).

(** The other copy of the script in the repository has the same
    [parseDate] and the same loop, but no year detection: the context year
    is the current year. *)
Definition main_without_detection (env : Ambient) (fetched : completion string)
  : list effect :=
  match fetched with
  | Throw e => [console_error ("Error occurred: " ++ message e)]
  | Return markdownText =>
      let currentYear := YearFromTime (LocalTime (LocalTZA env) (now env)) in
      let st0 := {| events := []; successCount := 0; failCount := 0;
                    trace := [] |} in
      match extractionLoop env currentYear (extractEntries markdownText) st0 with
      | (st, Some e) => trace st ++ [console_error ("Error occurred: " ++ message e)]
      | (st, None) =>
          match events st with
          | [] =>
              trace st ++
              [console_error
                 "No events were successfully parsed. Check the date formats and errors above."]
          | _ =>
              let sorted := sortEvents (events st) in
              trace st ++
              [writeFileSync "events.json" (JsonOf sorted);
               writeFileSync "events.ics" (IcsOf sorted);
               console_log ("Successfully parsed " ++ decimal (successCount st)
                            ++ " events (" ++ decimal (failCount st) ++ " skipped)");
               console_log "JSON and ICS files generated successfully!"]
          end
      end
  end%list.

(** Two documents in the shape of the upstream README. *)
Definition unscheduledOnly : string :=
  "# Events" ++ LF ++
  "- [Conf B](https://b.example)" ++ LF ++
  "  > Date: Not announced yet || Mode: Online || Location: Online." ++ LF.

Definition twoEntries : string :=
  "# Open Source Events 2025" ++ LF ++
  "- [Conf A](https://a.example)" ++ LF ++
  "  > Date: 4th March || Mode: In-person || Location: Berlin, Germany." ++ LF ++
  "- [Conf B](https://b.example)" ++ LF ++
  "  > Date: Not announced yet || Mode: Online || Location: Online." ++ LF.

(** Proof steps for the month searches: [chosen] closes a goal whose month
    has just been fixed, [walk_ifs] goes down a chain of tests on [part]. *)
Ltac chosen :=
  eexists; eexists; split; [reflexivity|];
  split; [eassumption|]; split; [reflexivity|]; lia.

Ltac walk_ifs part :=
  repeat match goal with
         | |- context [if mentions part ?k then _ else _] =>
             destruct (mentions part k) eqn:?; [solve [chosen] | try congruence]
         end.

(* ================================================================== *)
(** ** The rest of the script: [fetchContent], [generateICS], the run *)

(** Tests on whole strings. *)
Fixpoint allChars (p : ascii -> bool) (s : string) : bool :=
  match s with
  | EmptyString => true
  | String c s' => p c && allChars p s'
  end.

(** No line feed and no carriage return. *)
Definition noLineBreak (s : string) : bool :=
  allChars (fun c => negb (isLineTerminator c)) s.

Definition noPeriod (s : string) : bool :=
  allChars (fun c => negb (Ascii.eqb c "."%char)) s.

(** The digits of a string, in order. *)
Fixpoint digitsOf (s : string) : string :=
  match s with
  | EmptyString => EmptyString
  | String c s' => if isDigit c then String c (digitsOf s') else digitsOf s'
  end.

(** The calendar date [y-m-d] (month from 1) as a day number, and the
    number of days of a month. *)
Definition leapDay (y : Z) : Z := if isLeap y then 1 else 0.

Definition dayNumber (y m d : Z) : Z :=
  DayFromYear y + monthStart (leapDay y) (m - 1) + d - 1.

Definition daysInMonth (y m : Z) : Z :=
  monthStart (leapDay y) m - monthStart (leapDay y) (m - 1).

(** [YYYY-MM-DD] written out from its three numbers. *)
Definition civil (y m d : Z) : string :=
  padDigits 4 y ++ "-" ++ padDigits 2 m ++ "-" ++ padDigits 2 d.

(** The date after [y-m-d]. *)
Definition civilNext (y m d : Z) : string :=
  if d <? daysInMonth y m then civil y m (d + 1)
  else if m <? 12 then civil y (m + 1) 1
  else civil (y + 1) 1 1.

(** *** [fetchContent] (lines 12-31) *)

Definition README_URL : string :=
  "https://raw.githubusercontent.com/Everything-Open-Source/open-source-events/main/README.md".

(** What the network may deliver after [https.get], in order of arrival:
    the response with its status code, the ['data'] and ['end'] events of
    the response, and the ['error'] event of the request. *)
Inductive netEvent : Type :=
| response (statusCode : Z)
| data_chunk (chunk : string)
| end_of_response
| request_error (e : exn).

(** The promise is settled by the first event that calls [resolve] or
    [reject]; [listening] says that the response arrived with status 200
    and the two listeners are attached, [data] is the text received so far.
    [None]: the events run out and the promise stays pending. *)
Fixpoint settle (url : string) (listening : bool) (data : string)
         (events : list netEvent) : option (completion string) :=
  match events with
  | [] => None
  | ev :: events' =>
      match ev with
      | request_error e => Some (Throw e)
      | response statusCode =>
          if listening then settle url listening data events'
          else if negb (statusCode =? 200)
          then Some (Throw (Error ("Failed to fetch from " ++ url ++ ": "
                                   ++ decimal statusCode)%string))
          else settle url true data events'
      | data_chunk chunk =>
          settle url listening (if listening then (data ++ chunk)%string else data)
            events'
      | end_of_response =>
          if listening then Some (Return data)
          else settle url listening data events'
      end
  end%list.

Definition fetchContent (url : string) (events : list netEvent)
  : option (completion string) :=
  settle url false "" events.

(** The script as run, line 256: [main()] awaits the fetch; while the
    promise is pending nothing happens. *)
Definition script (env : Ambient) (events : list netEvent) : list effect :=
  match fetchContent README_URL events with
  | Some fetched => main env fetched
  | None => []%list
  end.

(** *** [generateICS] (lines 130-161) *)

(** [s.replace(/[...]/g, '')] for a character class. *)
Fixpoint removeChars (class : ascii -> bool) (s : string) : string :=
  match s with
  | EmptyString => EmptyString
  | String c s' =>
      if class c then removeChars class s' else String c (removeChars class s')
  end.

Definition isHyphen (c : ascii) : bool := Ascii.eqb c "-"%char.

Definition isStampPunct (c : ascii) : bool :=
  Ascii.eqb c "-"%char || Ascii.eqb c ":"%char || Ascii.eqb c "."%char.

(** [event.startDate.replace(/-/g, '') + 'T000000Z'] *)
Definition icsDate (isoDate : string) : string :=
  removeChars isHyphen isoDate ++ "T000000Z".

(** [new Date().toISOString().replace(/[-:.]/g, '').split('T')[0]] followed
    by ['T000000Z'], for the clock reading [t]. *)
Definition icsStamp (t : Z) : string :=
  beforeT (removeChars isStampPunct (isoString t)) ++ "T000000Z".

Definition base36Char (d : Z) : ascii :=
  if d <? 10 then ascii_of_N (Z.to_N (48 + d)) else ascii_of_N (Z.to_N (87 + d)).

Fixpoint base36 (digits : list Z) : string :=
  match digits with
  | [] => EmptyString
  | d :: digits' => String (base36Char (d mod 36)) (base36 digits')
  end%list.

(** What [generateICS] draws from outside for the [k]-th event it writes:
    the base-36 digits of [Math.random()] after the point, and the clock. *)
Record Oracle : Type := {
  randomDigits : nat -> list Z;
  clockAt : nat -> Z
}.

(** [Math.random().toString(36).substring(2, 15)] *)
Definition randomToken (o : Oracle) (k : nat) : string :=
  take 13 (base36 (randomDigits o k)).

Definition CRLF : string := String "013"%char (String "010"%char EmptyString).

Definition icsHeader : list string :=
  ["BEGIN:VCALENDAR"; "VERSION:2.0"; "PRODID:-//Open Source Events//EN";
   "CALSCALE:GREGORIAN"; "METHOD:PUBLISH"]%list.

(** The ten lines of one event. *)
Definition veventLines (uid : string) (stamp : Z) (event : Event) : list string :=
  ["BEGIN:VEVENT";
   ("UID:" ++ uid ++ "@opensourceevents.com")%string;
   ("DTSTAMP:" ++ icsStamp stamp)%string;
   ("DTSTART:" ++ icsDate (ev_startDate event))%string;
   ("DTEND:" ++ icsDate (ev_endDate event))%string;
   ("SUMMARY:" ++ name event)%string;
   ("DESCRIPTION:Mode: " ++ mode event ++ "\nLocation: " ++ location event
     ++ "\nURL: " ++ url event)%string;
   ("URL:" ++ url event)%string;
   ("LOCATION:" ++ location event)%string;
   "END:VEVENT"]%list.

(** The test [event.startDate && event.endDate] on two strings. *)
Definition dated (event : Event) : bool :=
  truthy (Some (ev_startDate event)) && truthy (Some (ev_endDate event)).

(** The [forEach] of lines 139-157; [k] counts the events written so far. *)
Fixpoint veventsFrom (o : Oracle) (k : nat) (events : list Event) : list string :=
  match events with
  | [] => []
  | event :: events' =>
      if dated event
      then veventLines (randomToken o k) (clockAt o k) event
           ++ veventsFrom o (S k) events'
      else veventsFrom o k events'
  end%list.

(** The array [icsContent] before it is joined. *)
Definition icsContent (o : Oracle) (events : list Event) : list string :=
  (icsHeader ++ veventsFrom o 0 events ++ ["END:VCALENDAR"])%list.

(** [Array.prototype.join] *)
Fixpoint join (sep : string) (l : list string) : string :=
  match l with
  | [] => EmptyString
  | [x] => x
  | x :: l' => (x ++ sep ++ join sep l')%string
  end%list.

Definition generateICS (o : Oracle) (events : list Event) : string :=
  join CRLF (icsContent o events).

(** Lines that do not come from the clock or from [Math.random]. *)
Definition isStable (line : string) : bool :=
  negb (startsWith line "UID:" || startsWith line "DTSTAMP:").

Definition breakFree (event : Event) : bool :=
  noLineBreak (name event) && noLineBreak (url event)
  && noLineBreak (ev_startDate event) && noLineBreak (ev_endDate event)
  && noLineBreak (mode event) && noLineBreak (location event).

(** *** The events a run resolves *)

(** The object pushed at lines 206-216 for an entry whose dates resolved. *)
Definition eventOf (en : Entry) (s e : string) : Event :=
  {| name := entry_name en; url := entry_url en;
     start_date := s; end_date := e; ev_startDate := s; ev_endDate := e;
     mode := entry_mode en; location := entry_location en;
     original_date := entry_date en |}.

(** The entries that resolve, in document order. *)
Fixpoint resolvedEvents (env : Ambient) (year : Z) (entries : list Entry)
  : list Event :=
  match entries with
  | [] => []
  | en :: entries' =>
      match parseDate env (entry_date en) (Some year) with
      | Return {| startDate := Some s; endDate := Some e |} =>
          eventOf en s e :: resolvedEvents env year entries'
      | _ => resolvedEvents env year entries'
      end
  end%list.

(** The contents of the files a run writes, in order. *)
Fixpoint written (trace : list effect) : list (string * content) :=
  match trace with
  | [] => []
  | writeFileSync path c :: trace' => (path, c) :: written trace'
  | _ :: trace' => written trace'
  end%list.

(** Start dates in ascending order of code units, neighbour by neighbour. *)
Fixpoint ascending (l : list Event) : Prop :=
  match l with
  | [] => True
  | x :: l' =>
      match l' with
      | [] => True
      | y :: _ => String.ltb (ev_startDate y) (ev_startDate x) = false
      end /\ ascending l'
  end%list.

(** Day numbers of the years 0 to 9999, whose ISO year has four digits. *)
Definition fourDigitYear (d : Z) : Prop := 0 <= YearFromDay d <= 9999.

(** What the text matched by an atom looks like. *)
Definition conforms (a : atom) (piece : string) : Prop :=
  match a with
  | Lit l => piece = l
  | LitNoCase l => toLowerCase piece = l
  | LazyDots => noLineBreak piece = true
  | Spaces => allChars isWhiteSpace piece = true
  | Digit => exists c, piece = String c EmptyString /\ isDigit c = true
  | WordBoundary => piece = EmptyString
  end.

(** One use of the lemma [inv] on how a match starts. *)
Ltac match_step inv H :=
  apply inv in H;
  let piece := fresh "piece" in
  let C := fresh "C" in
  let M := fresh "Min" in
  destruct H as (piece & ? & ? & ? & -> & -> & C & H & M);
  cbn [conforms] in C.

(** The text has a year of this century standing on its own: [20] and two
    digits, with no word character before or after. *)
Definition hasYearToken (text : string) : Prop :=
  exists pre c1 c2 post,
    text = pre ++ "20" ++ String c1 (String c2 post) /\
    wordAfter false pre = false /\
    isDigit c1 = true /\ isDigit c2 = true /\
    match post with
    | EmptyString => true
    | String e _ => negb (isWordChar e)
    end = true.

(** The text of the ['data'] events among some events, in order. *)
Fixpoint chunksOf (events : list netEvent) : string :=
  match events with
  | [] => EmptyString
  | data_chunk chunk :: events' => (chunk ++ chunksOf events')%string
  | _ :: events' => chunksOf events'
  end%list.

Definition isRequestError (ev : netEvent) : bool :=
  match ev with request_error _ => true | _ => false end.

Definition isResponse (ev : netEvent) : bool :=
  match ev with response _ => true | _ => false end.

Definition isEnd (ev : netEvent) : bool :=
  match ev with end_of_response => true | _ => false end.

(** How many of the lines are [line]. *)
Definition countLines (line : string) (lines : list string) : nat :=
  List.length (filter (String.eqb line) lines).

(* ================================================================== *)
(** ** Hosts and phrases, for the statements *)

(** A host whose local time is UTC or behind it, by less than a day. *)
Definition westOrUTC (env : Ambient) : Prop := - msPerDay < LocalTZA env <= 0.

(** The time value of local midnight at the start of day number [day]. *)
Definition localMidnight (env : Ambient) (day : Z) : Date :=
  Some (day * msPerDay - LocalTZA env).

(** No key of the month table occurs in [part]. *)
Definition noMonthIn (part : string) : Prop :=
  forall k, In k (Object_keys monthMap) -> mentions part k = false.

(** [month], the key of number [m], is the first key in table order that
    [s] mentions. *)
Definition firstMentioned (s month : string) (m : Z) : Prop :=
  lookup monthMap month = Some m /\ mentions s month = true /\
  forall k j, lookup monthMap k = Some j -> mentions s k = true -> m <= j.

(** [month], the key of number [m], is the last key in table order that
    [s] mentions. *)
Definition lastMentioned (s month : string) (m : Z) : Prop :=
  lookup monthMap month = Some m /\ mentions s month = true /\
  forall k j, lookup monthMap k = Some j -> mentions s k = true -> j <= m.

(** [ds] is the first run of digits of [s]: no digit comes before it, and
    it ends at the end of [s] or before a character that is no digit. *)
Definition firstDigitRun (s ds : string) : Prop :=
  exists pre post,
    s = pre ++ ds ++ post /\
    allChars (fun c => negb (isDigit c)) pre = true /\
    ds <> "" /\ allChars isDigit ds = true /\
    match post with
    | EmptyString => True
    | String c _ => isDigit c = false
    end.

(** What is left of the phrase [s] when the parts are looked for: the
    ordinal suffixes are gone, "not announced yet" does not occur, [y] is
    the year in force and [p] the phrase after the year override. *)
Definition scheduled (s : string) (Y y : Z) (p : string) : Prop :=
  ~ occursIn "not announced yet" (toLowerCase (stripOrdinals s)) /\
  yearOverride (stripOrdinals s) Y = (y, p).

(** A single-day phrase with a month name and a digit run: no separator
    of a range, [month] the first month it mentions, [ds] its first run of
    digits. *)
Definition singleDayPhrase (s : string) (Y y : Z) (month : string) (m : Z)
           (ds : string) : Prop :=
  exists p,
    scheduled s Y y p /\
    ~ occursIn " - " p /\ ~ occursIn " to " p /\
    firstMentioned p month m /\ firstDigitRun p ds.

(** A range phrase: the separator, " - " before " to ", cuts [p] into the
    two parts [p0] and [p1], whose first runs of digits are [sd] and
    [ed]. *)
Definition rangePhrase (s : string) (Y y : Z) (p p0 p1 sd ed : string) : Prop :=
  scheduled s Y y p /\
  ((occursIn " - " p /\ split p " - " = [p0; p1]%list) \/
   (~ occursIn " - " p /\ occursIn " to " p /\ split p " to " = [p0; p1]%list)) /\
  firstDigitRun (trim p0) sd /\ firstDigitRun (trim p1) ed.

(** The month after month [m] of year [y]. *)
Definition nextMonth (y m : Z) : Z * Z := if m <? 12 then (y, m + 1) else (y + 1, 1).

(** The texts of the calendars a run writes, for what [generateICS] draws
    from [Math.random] and from its clock. *)
Fixpoint calendarsWritten (o : Oracle) (trace : list effect) : list string :=
  match trace with
  | [] => []
  | writeFileSync _ (IcsOf events) :: trace' =>
      generateICS o events :: calendarsWritten o trace'
  | _ :: trace' => calendarsWritten o trace'
  end%list.

(** Two sources that give the same random digits, and clocks that show
    the same UTC day, at every reading. *)
Definition sameTokensSameDay (o1 o2 : Oracle) : Prop :=
  forall k, randomDigits o1 k = randomDigits o2 k /\
            Day (clockAt o1 k) = Day (clockAt o2 k).

(** The lines of a calendar text that do not come from the clock or from
    [Math.random]. *)
Definition stableLines (text : string) : list string :=
  filter isStable (split text CRLF).

(** The numbers of a range name days that exist: a year from 100 to 9997,
    and days that their months have, the end day also in the year the end
    is taken in. *)
Definition daysExist (y ms me sd ed : Z) : Prop :=
  100 <= y <= 9997 /\
  1 <= sd <= daysInMonth y ms /\
  1 <= ed <= daysInMonth y me /\
  ed <= daysInMonth (if me <? ms then y + 1 else y) me.

(** The range as written, its end made exclusive; the end is taken in the
    following year when the end month is an earlier month than the start
    month. *)
Definition asWritten (y ms me sd ed : Z) : DateRange :=
  resolved (civil y ms sd)
           (civilNext (if me <? ms then y + 1 else y) me ed).

(** Two hosts away from UTC, with their winter offsets: five hours behind
    and one hour ahead. *)
Definition newYork : Ambient := {| LocalTZA := -18000000; now := 0 |}.
Definition berlin : Ambient := {| LocalTZA := 3600000; now := 0 |}.

(** What a run shows on the console, and the events each written file is
    made from. *)
Definition consoleOutput (trace : list effect) : list effect :=
  filter (fun e => negb (isWrite e)) trace.

Definition eventsOf (c : content) : list Event :=
  match c with
  | JsonOf events => events
  | IcsOf events => events
  end.

Definition eventsWritten (trace : list effect) : list (string * list Event) :=
  map (fun pc => (fst pc, eventsOf (snd pc))) (written trace).

(* ================================================================== *)
(** * Properties *)

(** ** Strings *)

Lemma startsWith_spec (p s : string) :
  startsWith s p = true <-> exists post, s = p ++ post.
Proof.
  revert s; induction p as [|a p IH]; intros s.
  - split; [exists s; reflexivity | destruct s; reflexivity].
  - destruct s as [|b s]; simpl.
    + split; [discriminate | intros [post H]; discriminate].
    + rewrite andb_true_iff, Ascii.eqb_eq, IH. split.
      * intros [-> [post ->]]. exists post. reflexivity.
      * intros [post H]. injection H as -> ->. split; [reflexivity | exists post; reflexivity].
Qed.

Lemma includes_cons (c : ascii) (s sub : string) :
  includes (String c s) sub = startsWith (String c s) sub || includes s sub.
Proof. reflexivity. Qed.

Lemma startsWith_includes (s sub : string) :
  startsWith s sub = true -> includes s sub = true.
Proof.
  intros H.
  destruct s;
    [change (includes "" sub) with (startsWith "" sub || false)
    | rewrite includes_cons];
    rewrite H; reflexivity.
Qed.

Lemma includes_occurs (sub s : string) :
  includes s sub = true <-> occursIn sub s.
Proof.
  split.
  - induction s as [|c s IH].
    + change (includes "" sub) with (startsWith "" sub || false).
      rewrite orb_false_r. intros H.
      apply startsWith_spec in H. destruct H as [post H].
      exists "", post. exact H.
    + rewrite includes_cons, orb_true_iff. intros [H | H].
      * apply startsWith_spec in H. destruct H as [post H].
        exists "", post. exact H.
      * destruct (IH H) as (pre & post & ->).
        exists (String c pre), post. reflexivity.
  - intros (pre & post & ->). induction pre as [|c pre IH].
    + apply startsWith_includes, startsWith_spec. exists post. reflexivity.
    + simpl (String c pre ++ _). rewrite includes_cons, IH. apply orb_true_r.
Qed.

Lemma toLowerCase_app (a b : string) :
  toLowerCase (a ++ b) = toLowerCase a ++ toLowerCase b.
Proof.
  induction a as [|c a IH]; simpl; [reflexivity | rewrite IH; reflexivity].
Qed.

(** ** [parseDate] is [construct] after [reading] *)

Lemma parseDate_reading (env : Ambient) (s : string) (Y : Z) :
  parseDate env s (Some Y) = construct env (reading s Y).
Proof.
  unfold parseDate, reading.
  destruct (includes (toLowerCase (stripOrdinals s)) "not announced yet");
    [reflexivity|].
  destruct (yearOverride (stripOrdinals s) Y) as [y s'].
  destruct (includes s' " - " || includes s' " to ").
  - destruct (rangeFields s') as [[[[sm em] sd] ed]|]; [|reflexivity].
    destruct (lookup monthMap sm); [|reflexivity].
    destruct (lookup monthMap em); reflexivity.
  - destruct (singleFields s') as [[month day]|]; [|reflexivity].
    destruct (lookup monthMap month); reflexivity.
Qed.

Lemma resolve_reading (env : Ambient) (s : string) (Y : Z) :
  resolve env s Y = construct env (reading s Y).
Proof. apply parseDate_reading. Qed.

(** ** The calendar arithmetic of [Date] *)

Lemma DayFromYear_step (y : Z) :
  DayFromYear (y + 1) = DayFromYear y + DaysInYear y.
Proof.
  unfold DayFromYear, DaysInYear, isLeap.
  destruct (Z.eqb_spec (y mod 4) 0); destruct (Z.eqb_spec (y mod 100) 0);
    destruct (Z.eqb_spec (y mod 400) 0); cbn [andb orb negb];
    Z.div_mod_to_equations; lia.
Qed.

Lemma DayFromYear_mono (y1 y2 : Z) :
  y1 <= y2 -> DayFromYear y1 <= DayFromYear y2.
Proof. unfold DayFromYear. intros H. Z.div_mod_to_equations. lia. Qed.

Lemma DaysInYear_range (y : Z) : 365 <= DaysInYear y <= 366.
Proof. unfold DaysInYear. destruct (isLeap y); lia. Qed.

(** [YearFromDay d] is the year whose days include [d]. *)
Lemma YearFromDay_spec (d : Z) :
  DayFromYear (YearFromDay d) <= d < DayFromYear (YearFromDay d + 1).
Proof.
  unfold YearFromDay.
  set (y0 := 1970 + 400 * d / 146097).
  destruct (Z.ltb_spec d (DayFromYear y0)) as [E1|E1].
  - replace (y0 - 1 + 1) with y0 by lia. split; [|lia].
    revert E1. unfold DayFromYear, y0. Z.div_mod_to_equations. lia.
  - destruct (Z.leb_spec (DayFromYear (y0 + 1)) d) as [E2|E2]; [|lia].
    split; [lia|].
    revert E2. unfold DayFromYear, y0. Z.div_mod_to_equations. lia.
Qed.

Lemma YearFromDay_unique (y d : Z) :
  DayFromYear y <= d < DayFromYear (y + 1) -> YearFromDay d = y.
Proof.
  intros H. pose proof (YearFromDay_spec d) as S.
  destruct (Z.lt_trichotomy (YearFromDay d) y) as [L | [E | G]]; [|exact E|].
  - pose proof (DayFromYear_mono (YearFromDay d + 1) y ltac:(lia)). lia.
  - pose proof (DayFromYear_mono (y + 1) (YearFromDay d) ltac:(lia)). lia.
Qed.

Lemma InLeapYear_DaysInYear (t : Z) :
  DaysInYear (YearFromTime t) = 365 + InLeapYear t.
Proof. unfold DaysInYear, InLeapYear. destruct (isLeap _); reflexivity. Qed.

Lemma InLeapYear_range (t : Z) : 0 <= InLeapYear t <= 1.
Proof. unfold InLeapYear. destruct (isLeap _); lia. Qed.

Lemma DayWithinYear_range (t : Z) :
  0 <= DayWithinYear t < 365 + InLeapYear t.
Proof.
  rewrite <- InLeapYear_DaysInYear. unfold DayWithinYear, YearFromTime.
  pose proof (YearFromDay_spec (Day t)) as S.
  rewrite DayFromYear_step in S. lia.
Qed.

(** The month table and the month-start table agree. *)
Lemma monthOfYearDay_spec (leap dwy : Z) :
  0 <= leap <= 1 -> 0 <= dwy < 365 + leap ->
  0 <= monthOfYearDay leap dwy <= 11 /\
  monthStart leap (monthOfYearDay leap dwy) <= dwy
    < monthStart leap (monthOfYearDay leap dwy) + 31.
Proof.
  intros Hl Hd. unfold monthOfYearDay.
  repeat match goal with
         | |- context [if ?a <? ?b then _ else _] =>
             destruct (Z.ltb_spec a b)
         end; cbn [monthStart]; lia.
Qed.

Lemma MonthFromTime_range (t : Z) : 0 <= MonthFromTime t <= 11.
Proof.
  apply monthOfYearDay_spec;
    [apply InLeapYear_range | apply DayWithinYear_range].
Qed.

Lemma DateFromTime_range (t : Z) : 1 <= DateFromTime t <= 31.
Proof.
  unfold DateFromTime, MonthFromTime.
  pose proof (monthOfYearDay_spec (InLeapYear t) (DayWithinYear t)
                (InLeapYear_range t) (DayWithinYear_range t)).
  lia.
Qed.

Lemma monthStart_range (leap m : Z) :
  0 <= leap <= 1 -> 0 <= m <= 11 -> 0 <= monthStart leap m <= 334 + leap.
Proof.
  intros Hl Hm.
  assert (H : m = 0 \/ m = 1 \/ m = 2 \/ m = 3 \/ m = 4 \/ m = 5 \/ m = 6
              \/ m = 7 \/ m = 8 \/ m = 9 \/ m = 10 \/ m = 11) by lia.
  repeat (destruct H as [-> | H]); try subst m; cbn [monthStart]; lia.
Qed.

(** For a month index in range, [MakeDay] adds the day of the month to the
    day number on which the month starts. *)
Lemma MakeDay_in_range (y m dt : Z) :
  Z.abs y <= kMaxYear -> 0 <= m <= 11 ->
  MakeDay y m dt =
  Some (DayFromYear y + monthStart (if isLeap y then 1 else 0) m + dt - 1).
Proof.
  intros Hy Hm. unfold MakeDay.
  assert (Z.abs m <= kMaxMonth) by (unfold kMaxMonth; lia).
  replace (Z.abs y <=? kMaxYear) with true by (symmetry; apply Z.leb_le; lia).
  replace (Z.abs m <=? kMaxMonth) with true by (symmetry; apply Z.leb_le; lia).
  cbn [andb].
  replace (m / 12) with 0 by (symmetry; apply Z.div_small; lia).
  replace (m mod 12) with m by (symmetry; apply Z.mod_small; lia).
  replace (y + 0) with y by lia. reflexivity.
Qed.

(** Year, month and day of a time value give back its day number. *)
Lemma MakeDay_fields (t dt : Z) :
  Z.abs (YearFromTime t) <= kMaxYear ->
  MakeDay (YearFromTime t) (MonthFromTime t) dt
  = Some (Day t - DateFromTime t + dt).
Proof.
  intros Hy. rewrite MakeDay_in_range by (auto using MonthFromTime_range).
  f_equal. unfold DateFromTime, DayWithinYear, InLeapYear. lia.
Qed.

Lemma Day_range (t : Z) : Day t * msPerDay <= t < Day t * msPerDay + msPerDay.
Proof. unfold Day, msPerDay. Z.div_mod_to_equations. lia. Qed.

Lemma Day_split (t : Z) : t = Day t * msPerDay + TimeWithinDay t.
Proof. unfold Day, TimeWithinDay, msPerDay. Z.div_mod_to_equations. lia. Qed.

Lemma Day_unique (d t : Z) : d * msPerDay <= t < d * msPerDay + msPerDay -> Day t = d.
Proof. unfold Day, msPerDay. intros H. Z.div_mod_to_equations. lia. Qed.

Lemma Day_midnight (d : Z) : Day (d * msPerDay) = d.
Proof. apply Day_unique. unfold msPerDay. lia. Qed.

Lemma TimeWithinDay_midnight (d : Z) : TimeWithinDay (d * msPerDay) = 0.
Proof. unfold TimeWithinDay. apply Z.mod_mul. discriminate. Qed.

Lemma Day_next (t : Z) : Day (t + msPerDay) = Day t + 1.
Proof. apply Day_unique. pose proof (Day_range t). unfold msPerDay in *. lia. Qed.

Lemma TimeWithinDay_range (t : Z) : 0 <= TimeWithinDay t < msPerDay.
Proof. unfold TimeWithinDay. apply Z.mod_pos_bound. reflexivity. Qed.

(** The years of all times a Date can hold, and a day around them, are
    within the years [MakeDay] accepts. *)
Lemma YearFromTime_bound (t : Z) :
  Z.abs t <= maxTime + 2 * msPerDay -> Z.abs (YearFromTime t) <= kMaxYear.
Proof.
  intros H. unfold YearFromTime.
  pose proof (YearFromDay_spec (Day t)) as S.
  pose proof (Day_range t) as R.
  assert (B : -100000002 <= Day t <= 100000002)
    by (unfold maxTime, msPerDay in *; lia).
  unfold kMaxYear.
  destruct (Z.le_gt_cases (YearFromDay (Day t)) 1000000) as [U|U];
    destruct (Z.le_gt_cases (-1000000) (YearFromDay (Day t))) as [L|L];
    try lia.
  - pose proof (DayFromYear_mono (YearFromDay (Day t) + 1) (-1000000) ltac:(lia)) as M.
    change (DayFromYear (-1000000)) with (-365962028) in M. lia.
  - pose proof (DayFromYear_mono 1000001 (YearFromDay (Day t)) ltac:(lia)) as M.
    change (DayFromYear 1000001) with 364523338 in M. lia.
Qed.

(** ** The [Date] methods the script calls *)

Lemma TimeClip_Some (t t' : Z) :
  TimeClip t = Some t' -> t' = t /\ Z.abs t <= maxTime.
Proof.
  unfold TimeClip. destruct (Z.leb_spec (Z.abs t) maxTime); [|discriminate].
  intros [= <-]. auto.
Qed.

Lemma TimeClip_valid (t : Z) : Z.abs t <= maxTime -> TimeClip t = Some t.
Proof.
  intros H. unfold TimeClip.
  destruct (Z.leb_spec (Z.abs t) maxTime); [reflexivity | lia].
Qed.

Lemma MakeDay_Some (y m dt d : Z) :
  MakeDay y m dt = Some d -> Z.abs y <= kMaxYear.
Proof.
  unfold MakeDay. destruct (Z.leb_spec (Z.abs y) kMaxYear); [auto | discriminate].
Qed.

Section DateFacts.

Variable tza : Z.

Lemma LocalTime_UTC (t : Z) : LocalTime tza (UTC tza t) = t.
Proof. unfold LocalTime, UTC. lia. Qed.

Lemma newDate_valid (y m d t : Z) :
  newDate tza y m d = Some t -> Z.abs t <= maxTime.
Proof.
  unfold newDate. destruct (MakeDay _ _ _); [|discriminate].
  intros H. apply TimeClip_Some in H. destruct H as [-> H]. exact H.
Qed.

(** [date.setDate(date.getDate() + 1)] moves a valid Date one day ahead. *)
Lemma setDate_next (tv : Z) :
  Z.abs tza <= msPerDay -> Z.abs tv <= maxTime ->
  setDate tza (Some tv) (option_map (Z.add 1) (getDate tza (Some tv)))
  = TimeClip (tv + msPerDay).
Proof.
  intros Hz Hv. unfold getDate, setDate. cbn [option_map].
  rewrite MakeDay_fields
    by (apply YearFromTime_bound; unfold LocalTime, msPerDay in *; lia).
  f_equal. unfold UTC, MakeDate.
  pose proof (Day_split (LocalTime tza tv)) as S. unfold LocalTime in *. lia.
Qed.

(** [d.setFullYear(y)] leaves a Date in year [y], when it leaves a Date. *)
Lemma getFullYear_setFullYear (d : Date) (y t' : Z) :
  setFullYear tza d y = Some t' -> getFullYear tza (Some t') = Some y.
Proof.
  unfold setFullYear, getFullYear.
  set (t := match d with Some tv => LocalTime tza tv | None => 0 end).
  destruct (MakeDay y (MonthFromTime t) (DateFromTime t)) as [day|] eqn:E;
    [|discriminate].
  pose proof (MakeDay_Some _ _ _ _ E) as Hy.
  rewrite MakeDay_in_range in E by (auto using MonthFromTime_range).
  injection E as E.
  intros H. apply TimeClip_Some in H. destruct H as [-> _].
  rewrite LocalTime_UTC. f_equal. unfold YearFromTime.
  pose proof (TimeWithinDay_range t) as Hw.
  assert (HD : Day (MakeDate day (TimeWithinDay t)) = day)
    by (apply Day_unique; unfold MakeDate; lia).
  rewrite HD. apply YearFromDay_unique. rewrite DayFromYear_step.
  pose proof (DateFromTime_range t) as Hd.
  pose proof (monthStart_range (if isLeap y then 1 else 0) (MonthFromTime t)
                ltac:(destruct (isLeap y); lia) (MonthFromTime_range t)) as Hm.
  unfold DaysInYear. destruct (isLeap y); lia.
Qed.

End DateFacts.

(** On the runner, where local time is UTC, every constructed Date is a
    midnight. *)
Lemma newDate_midnight (y m d t : Z) :
  newDate 0 y m d = Some t ->
  exists day, MakeDay (MakeFullYear y) m d = Some day /\ t = day * msPerDay.
Proof.
  unfold newDate. destruct (MakeDay _ _ _) as [day|]; [|discriminate].
  intros H. apply TimeClip_Some in H. destruct H as [-> _].
  exists day. split; [reflexivity|]. unfold UTC, MakeDate. lia.
Qed.

Lemma setFullYear_midnight (day y t' : Z) :
  setFullYear 0 (midnight day) y = Some t' -> exists day', t' = day' * msPerDay.
Proof.
  unfold setFullYear, midnight.
  destruct (MakeDay _ _ _) as [d'|]; [|discriminate].
  intros H. apply TimeClip_Some in H. destruct H as [-> _].
  exists d'. unfold UTC, MakeDate, LocalTime.
  replace (day * msPerDay + 0) with (day * msPerDay) by lia.
  rewrite TimeWithinDay_midnight. lia.
Qed.

(** ** The ISO date of a time value *)

Lemma beforeT_app (a b : string) :
  beforeT a = a -> beforeT b = b -> beforeT (a ++ b) = a ++ b.
Proof.
  intros Ha Hb. induction a as [|c a IH]; [exact Hb|].
  simpl in *. destruct (Ascii.eqb c "T"); [discriminate|].
  injection Ha as Ha. rewrite (IH Ha). reflexivity.
Qed.

Lemma beforeT_app_T (a b : string) :
  beforeT a = a -> beforeT (a ++ String "T" b) = a.
Proof.
  intros Ha. induction a as [|c a IH]; [reflexivity|].
  simpl in *. destruct (Ascii.eqb c "T"); [discriminate|].
  injection Ha as Ha. rewrite (IH Ha). reflexivity.
Qed.

Lemma beforeT_digitChar (n : Z) :
  beforeT (String (digitChar (n mod 10)) "") = String (digitChar (n mod 10)) "".
Proof.
  assert (H : n mod 10 = 0 \/ n mod 10 = 1 \/ n mod 10 = 2 \/ n mod 10 = 3
              \/ n mod 10 = 4 \/ n mod 10 = 5 \/ n mod 10 = 6 \/ n mod 10 = 7
              \/ n mod 10 = 8 \/ n mod 10 = 9)
    by (pose proof (Z.mod_pos_bound n 10 ltac:(lia)); lia).
  repeat (destruct H as [-> | H]); try rewrite H; reflexivity.
Qed.

Lemma beforeT_padDigits (k : nat) (n : Z) :
  beforeT (padDigits k n) = padDigits k n.
Proof.
  revert n. induction k as [|k IH]; intros n; [reflexivity|].
  cbn [padDigits]. apply beforeT_app; [apply IH | apply beforeT_digitChar].
Qed.

Lemma beforeT_isoYear (y : Z) : beforeT (isoYear y) = isoYear y.
Proof.
  unfold isoYear. destruct ((0 <=? y) && (y <=? 9999)).
  - apply beforeT_padDigits.
  - apply beforeT_app; [destruct (y <? 0); reflexivity | apply beforeT_padDigits].
Qed.

Lemma beforeT_isoDay (d : Z) : beforeT (isoDay d) = isoDay d.
Proof.
  unfold isoDay.
  repeat (apply beforeT_app;
          [first [apply beforeT_isoYear | apply beforeT_padDigits | reflexivity]|]).
  apply beforeT_padDigits.
Qed.

Lemma toISODate_Some (t : Z) : toISODate (Some t) = Return (isoDay (Day t)).
Proof.
  unfold toISODate, isoString. f_equal.
  apply (beforeT_app_T (isoDay (Day t))). apply beforeT_isoDay.
Qed.

Lemma toISODate_midnight (day : Z) :
  toISODate (midnight day) = Return (isoDay day).
Proof. unfold midnight. rewrite toISODate_Some, Day_midnight. reflexivity. Qed.

(** ** The two emitting blocks of [parseDate] *)

Lemma nextDay_ISO (tza tv : Z) :
  Z.abs tza <= msPerDay -> Z.abs tv <= maxTime ->
  toISODate (setDate tza (Some tv) (option_map (Z.add 1) (getDate tza (Some tv))))
  = if tv + msPerDay <=? maxTime then Return (isoDay (Day tv + 1))
    else Throw (RangeError "Invalid time value").
Proof.
  intros Hz Hv. rewrite setDate_next by assumption.
  destruct (Z.leb_spec (tv + msPerDay) maxTime) as [L|L].
  - rewrite TimeClip_valid by (unfold msPerDay in *; lia).
    rewrite toISODate_Some, Day_next. reflexivity.
  - unfold TimeClip.
    destruct (Z.leb_spec (Z.abs (tv + msPerDay)) maxTime); [lia | reflexivity].
Qed.

Lemma rolledEnd_valid (env : Ambient) (y ms me sd ed te : Z) :
  rolledEnd env y ms me sd ed = Some te -> Z.abs te <= maxTime.
Proof.
  unfold rolledEnd, constructedEnd.
  destruct (wraps env y ms me sd ed).
  - unfold setFullYear. destruct (MakeDay _ _ _); [|discriminate].
    intros H. apply TimeClip_Some in H. destruct H as [-> H]. exact H.
  - apply newDate_valid.
Qed.

Lemma emitSingle_eq (env : Ambient) (y m d : Z) :
  Z.abs (LocalTZA env) <= msPerDay ->
  emitSingle env y m d =
  match newDate (LocalTZA env) y (m - 1) d with
  | Some t =>
      if t + msPerDay <=? maxTime
      then Return (resolved (isoDay (Day t)) (isoDay (Day t + 1)))
      else invalidDate
  | None => invalidDate
  end.
Proof.
  intros Hz. unfold emitSingle, invalidDate.
  destruct (newDate (LocalTZA env) y (m - 1) d) as [t|] eqn:E; [|reflexivity].
  rewrite toISODate_Some. cbn [bind].
  rewrite nextDay_ISO by (eauto using newDate_valid).
  destruct (t + msPerDay <=? maxTime); reflexivity.
Qed.

Lemma emitRange_eq (env : Ambient) (y ms me sd ed : Z) :
  Z.abs (LocalTZA env) <= msPerDay ->
  emitRange env y ms me sd ed =
  match constructedStart env y ms sd, rolledEnd env y ms me sd ed with
  | Some ts, Some te =>
      if te + msPerDay <=? maxTime
      then Return (resolved (isoDay (Day ts)) (isoDay (Day te + 1)))
      else invalidDate
  | _, _ => invalidDate
  end.
Proof.
  intros Hz. unfold emitRange, invalidDate.
  destruct (constructedStart env y ms sd) as [ts|]; [|reflexivity].
  rewrite toISODate_Some. cbn [bind].
  destruct (rolledEnd env y ms me sd ed) as [te|] eqn:E; [|reflexivity].
  rewrite nextDay_ISO by (eauto using rolledEnd_valid).
  destruct (te + msPerDay <=? maxTime); reflexivity.
Qed.

(** Neither block can return the unresolved pair. *)
Lemma emitSingle_not_unresolved (env : Ambient) (y m d : Z) :
  emitSingle env y m d <> Return unresolved.
Proof.
  unfold emitSingle.
  destruct (toISODate _); cbn [bind]; [|discriminate].
  destruct (toISODate _); cbn [bind]; discriminate.
Qed.

Lemma emitRange_not_unresolved (env : Ambient) (y ms me sd ed : Z) :
  emitRange env y ms me sd ed <> Return unresolved.
Proof.
  unfold emitRange.
  destruct (toISODate _); cbn [bind]; [|discriminate].
  destruct (toISODate _); cbn [bind]; discriminate.
Qed.

Lemma runner_offset (clock : Z) : Z.abs (LocalTZA (runner clock)) <= msPerDay.
Proof. unfold msPerDay. simpl. lia. Qed.

Lemma rolledEnd_midnight (clock y ms me sd ed te : Z) :
  rolledEnd (runner clock) y ms me sd ed = Some te ->
  exists day, te = day * msPerDay.
Proof.
  unfold rolledEnd. destruct (wraps _ _ _ _ _ _).
  - unfold constructedEnd. cbn [LocalTZA runner].
    destruct (newDate 0 y (me - 1) ed) as [t0|] eqn:E0.
    + apply newDate_midnight in E0. destruct E0 as (d0 & _ & ->).
      apply setFullYear_midnight.
    + apply (setFullYear_midnight 0).
  - unfold constructedEnd. cbn [LocalTZA runner]. intros H.
    apply newDate_midnight in H. destruct H as (d0 & _ & ->). eauto.
Qed.

(** ** The month searches *)

(** The loop without [break], one part at a time: the last key mentioned
    wins. *)
Lemma monthsOfParts_fst (startPart endPart : string) :
  fst (monthsOfParts startPart endPart) =
  if mentions startPart "december" then Some "december"
  else if mentions startPart "november" then Some "november"
  else if mentions startPart "october" then Some "october"
  else if mentions startPart "september" then Some "september"
  else if mentions startPart "august" then Some "august"
  else if mentions startPart "july" then Some "july"
  else if mentions startPart "june" then Some "june"
  else if mentions startPart "may" then Some "may"
  else if mentions startPart "april" then Some "april"
  else if mentions startPart "march" then Some "march"
  else if mentions startPart "february" then Some "february"
  else if mentions startPart "january" then Some "january"
  else None.
Proof.
  unfold monthsOfParts, mentions.
  cbv [Object_keys monthMap map fst fold_left].
  repeat match goal with
         | |- context [includes (toLowerCase startPart) ?k] =>
             destruct (includes (toLowerCase startPart) k)
         end; reflexivity.
Qed.

Lemma monthsOfParts_snd (startPart endPart : string) :
  snd (monthsOfParts startPart endPart) =
  if mentions endPart "december" then Some "december"
  else if mentions endPart "november" then Some "november"
  else if mentions endPart "october" then Some "october"
  else if mentions endPart "september" then Some "september"
  else if mentions endPart "august" then Some "august"
  else if mentions endPart "july" then Some "july"
  else if mentions endPart "june" then Some "june"
  else if mentions endPart "may" then Some "may"
  else if mentions endPart "april" then Some "april"
  else if mentions endPart "march" then Some "march"
  else if mentions endPart "february" then Some "february"
  else if mentions endPart "january" then Some "january"
  else None.
Proof.
  unfold monthsOfParts, mentions.
  cbv [Object_keys monthMap map fst snd fold_left].
  repeat match goal with
         | |- context [includes (toLowerCase endPart) ?k] =>
             destruct (includes (toLowerCase endPart) k)
         end; reflexivity.
Qed.

(** The loops with [break]: the first key mentioned wins. *)
Lemma firstMonth_eq (s : string) :
  firstMonth s =
  if mentions s "january" then Some "january"
  else if mentions s "february" then Some "february"
  else if mentions s "march" then Some "march"
  else if mentions s "april" then Some "april"
  else if mentions s "may" then Some "may"
  else if mentions s "june" then Some "june"
  else if mentions s "july" then Some "july"
  else if mentions s "august" then Some "august"
  else if mentions s "september" then Some "september"
  else if mentions s "october" then Some "october"
  else if mentions s "november" then Some "november"
  else if mentions s "december" then Some "december"
  else None.
Proof. reflexivity. Qed.

Lemma lookup_monthMap_inv (k : string) (n : Z) :
  lookup monthMap k = Some n ->
  (k = "january" /\ n = 1) \/ (k = "february" /\ n = 2) \/
  (k = "march" /\ n = 3) \/ (k = "april" /\ n = 4) \/ (k = "may" /\ n = 5) \/
  (k = "june" /\ n = 6) \/ (k = "july" /\ n = 7) \/ (k = "august" /\ n = 8) \/
  (k = "september" /\ n = 9) \/ (k = "october" /\ n = 10) \/
  (k = "november" /\ n = 11) \/ (k = "december" /\ n = 12).
Proof.
  unfold monthMap. cbn [lookup].
  repeat match goal with
         | |- context [String.eqb ?a k] =>
             destruct (String.eqb_spec a k) as [<-|_]; [intros [= <-]; tauto|]
         end.
  discriminate.
Qed.

Lemma last_mention_wins (part k : string) (n : Z) :
  lookup monthMap k = Some n -> mentions part k = true ->
  exists m j,
    (if mentions part "december" then Some "december"
     else if mentions part "november" then Some "november"
     else if mentions part "october" then Some "october"
     else if mentions part "september" then Some "september"
     else if mentions part "august" then Some "august"
     else if mentions part "july" then Some "july"
     else if mentions part "june" then Some "june"
     else if mentions part "may" then Some "may"
     else if mentions part "april" then Some "april"
     else if mentions part "march" then Some "march"
     else if mentions part "february" then Some "february"
     else if mentions part "january" then Some "january"
     else None) = Some m /\
    mentions part m = true /\ lookup monthMap m = Some j /\ n <= j.
Proof.
  intros Hk Hm. apply lookup_monthMap_inv in Hk.
  repeat (destruct Hk as [[-> ->] | Hk]); try destruct Hk as [-> ->];
    walk_ifs part.
Qed.

Lemma first_mention_wins (s k : string) (n : Z) :
  lookup monthMap k = Some n -> mentions s k = true ->
  exists m j,
    firstMonth s = Some m /\
    mentions s m = true /\ lookup monthMap m = Some j /\ j <= n.
Proof.
  intros Hk Hm. rewrite firstMonth_eq. apply lookup_monthMap_inv in Hk.
  repeat (destruct Hk as [[-> ->] | Hk]); try destruct Hk as [-> ->];
    walk_ifs s.
Qed.

Lemma no_mention_fst (startPart endPart : string) :
  (forall k, In k (Object_keys monthMap) -> mentions startPart k = false) ->
  fst (monthsOfParts startPart endPart) = None.
Proof.
  intros H. rewrite monthsOfParts_fst.
  rewrite !H by (cbv [Object_keys monthMap map fst In]; tauto). reflexivity.
Qed.

Lemma no_mention_snd (startPart endPart : string) :
  (forall k, In k (Object_keys monthMap) -> mentions endPart k = false) ->
  snd (monthsOfParts startPart endPart) = None.
Proof.
  intros H. rewrite monthsOfParts_snd.
  rewrite !H by (cbv [Object_keys monthMap map fst In]; tauto). reflexivity.
Qed.

(** Every month the searches return is a key of [monthMap], so the month
    number is never [undefined]. *)
Lemma last_mention_is_key (part : string) (m : string) :
  (if mentions part "december" then Some "december"
   else if mentions part "november" then Some "november"
   else if mentions part "october" then Some "october"
   else if mentions part "september" then Some "september"
   else if mentions part "august" then Some "august"
   else if mentions part "july" then Some "july"
   else if mentions part "june" then Some "june"
   else if mentions part "may" then Some "may"
   else if mentions part "april" then Some "april"
   else if mentions part "march" then Some "march"
   else if mentions part "february" then Some "february"
   else if mentions part "january" then Some "january"
   else None) = Some m ->
  exists n, lookup monthMap m = Some n.
Proof.
  repeat match goal with
         | |- context [if mentions part ?k then _ else _] =>
             destruct (mentions part k);
             [solve [intros [= <-]; eexists; reflexivity] | ]
         end.
  discriminate.
Qed.

Lemma firstMonth_is_key (s m : string) :
  firstMonth s = Some m -> exists n, lookup monthMap m = Some n.
Proof.
  rewrite firstMonth_eq.
  repeat match goal with
         | |- context [if mentions s ?k then _ else _] =>
             destruct (mentions s k);
             [solve [intros [= <-]; eexists; reflexivity] | ]
         end.
  discriminate.
Qed.

Lemma rangeFields_keys (dateStr sm em sd ed : string) :
  rangeFields dateStr = Some (sm, em, sd, ed) ->
  (exists n, lookup monthMap sm = Some n) /\
  (exists n, lookup monthMap em = Some n).
Proof.
  unfold rangeFields.
  destruct (split dateStr _) as [|p0 [|p1 [|p2 rest]]]; try discriminate.
  pose proof (monthsOfParts_fst (trim p0) (trim p1)) as Hf.
  pose proof (monthsOfParts_snd (trim p0) (trim p1)) as Hs.
  destruct (monthsOfParts (trim p0) (trim p1)) as [a b]. cbn [fst snd] in Hf, Hs.
  destruct (matchDigits (trim p0)); [|discriminate].
  destruct (matchDigits (trim p1)); [|discriminate].
  assert (Ha : forall m, a = Some m -> exists n, lookup monthMap m = Some n)
    by (intros m ->; apply (last_mention_is_key (trim p0)); symmetry; exact Hf).
  assert (Hb : forall m, b = Some m -> exists n, lookup monthMap m = Some n)
    by (intros m ->; apply (last_mention_is_key (trim p1)); symmetry; exact Hs).
  destruct a as [ma|]; destruct b as [mb|];
    try (destruct (firstMonth dateStr) as [mf|] eqn:Ef; [|discriminate]);
    intros [= <- <- _ _]; eauto using firstMonth_is_key.
Qed.

Lemma reading_defined (s : string) (Y : Z) : reading s Y <> UndefinedMonth.
Proof.
  unfold reading.
  destruct (includes _ "not announced yet"); [discriminate|].
  destruct (yearOverride (stripOrdinals s) Y) as [y s'].
  destruct (includes s' " - " || includes s' " to ").
  - destruct (rangeFields s') as [[[[sm em] sd] ed]|] eqn:E; [|discriminate].
    destruct (rangeFields_keys _ _ _ _ _ E) as ((n1 & ->) & (n2 & ->)).
    discriminate.
  - unfold singleFields. destruct (matchDigits s'); [|discriminate].
    destruct (firstMonth s') as [m|] eqn:E; [|discriminate].
    destruct (firstMonth_is_key _ _ E) as (n & ->). discriminate.
Qed.

(** ** The extraction loop of [main] *)

Lemma extractionLoop_all_unresolved (env : Ambient) (year : Z)
      (entries : list Entry) (st : LoopState) :
  (forall en, In en entries ->
              parseDate env (entry_date en) (Some year) = Return unresolved) ->
  exists warnings,
    extractionLoop env year entries st
    = ({| events := events st;
          successCount := successCount st;
          failCount := failCount st + Z.of_nat (List.length entries);
          trace := (trace st ++ warnings)%list |}, None) /\
    filter isWrite warnings = []%list.
Proof.
  revert st. induction entries as [|en entries IH]; intros st H.
  - exists []%list. cbn [extractionLoop List.length Z.of_nat].
    rewrite app_nil_r, Z.add_0_r. destruct st; split; reflexivity.
  - cbn [extractionLoop]. rewrite (H en (or_introl eq_refl)).
    cbn [truthy startDate endDate unresolved andb].
    match goal with
    | |- context [extractionLoop env year entries ?st'] =>
        destruct (IH st' (fun e He => H e (or_intror He))) as (warnings & -> & Hw)
    end.
    eexists (_ :: warnings)%list. cbn [events successCount failCount trace].
    split.
    + rewrite <- app_assoc. cbn [app]. do 2 f_equal.
      change (List.length (en :: entries)) with (S (List.length entries)). lia.
    + cbn [filter isWrite]. exact Hw.
Qed.

Lemma detectYear_logs_only (env : Ambient) (markdownText : string) :
  filter isWrite (snd (detectYear env markdownText)) = []%list.
Proof.
  unfold detectYear.
  repeat match goal with
         | |- context [match ?x with _ => _ end] => destruct x
         end; reflexivity.
Qed.

(** ** What [parseDate] can return *)

Lemma append_nonempty_r (a b : string) : b <> "" -> a ++ b <> "".
Proof. intros Hb. destruct a; [exact Hb | discriminate]. Qed.

Lemma isoDay_nonempty (d : Z) : isoDay d <> "".
Proof. unfold isoDay. apply append_nonempty_r. discriminate. Qed.

Lemma truthy_isoDay (d : Z) : truthy (Some (isoDay d)) = true.
Proof.
  unfold truthy. destruct (String.eqb_spec (isoDay d) ""); [|reflexivity].
  exfalso. eapply isoDay_nonempty; eassumption.
Qed.

Lemma setDate_invalid (tza : Z) (dt : option Z) : setDate tza None dt = None.
Proof. reflexivity. Qed.

(** Each emitting block either throws the one exception of [toISOString]
    or returns two ISO dates. *)
Lemma emitSingle_cases (env : Ambient) (y m d : Z) :
  emitSingle env y m d = Throw (RangeError "Invalid time value") \/
  exists first after, emitSingle env y m d
                      = Return (resolved (isoDay first) (isoDay after)).
Proof.
  unfold emitSingle.
  destruct (newDate (LocalTZA env) y (m - 1) d) as [t|]; [|left; reflexivity].
  rewrite toISODate_Some. cbn [bind].
  destruct (setDate _ _ _) as [t'|]; [|left; reflexivity].
  rewrite toISODate_Some. right. eexists; eexists; reflexivity.
Qed.

Lemma emitRange_cases (env : Ambient) (y ms me sd ed : Z) :
  emitRange env y ms me sd ed = Throw (RangeError "Invalid time value") \/
  exists first after, emitRange env y ms me sd ed
                      = Return (resolved (isoDay first) (isoDay after)).
Proof.
  unfold emitRange.
  destruct (constructedStart env y ms sd) as [t|]; [|left; reflexivity].
  rewrite toISODate_Some. cbn [bind].
  destruct (setDate _ _ _) as [t'|]; [|left; reflexivity].
  rewrite toISODate_Some. right. eexists; eexists; reflexivity.
Qed.

Lemma parseDate_default (env : Ambient) (s : string) :
  parseDate env s None
  = parseDate env s (Some (YearFromTime (LocalTime (LocalTZA env) (now env)))).
Proof. reflexivity. Qed.

Lemma parseDate_cases (env : Ambient) (s : string) (yearArg : option Z) :
  parseDate env s yearArg = Return unresolved \/
  parseDate env s yearArg = Throw (RangeError "Invalid time value") \/
  exists first after,
    parseDate env s yearArg = Return (resolved (isoDay first) (isoDay after)).
Proof.
  assert (H : forall Y,
             parseDate env s (Some Y) = Return unresolved \/
             parseDate env s (Some Y) = Throw (RangeError "Invalid time value") \/
             exists first after,
               parseDate env s (Some Y)
               = Return (resolved (isoDay first) (isoDay after))).
  { intros Y. rewrite parseDate_reading.
    destruct (reading s Y) as [| |y ms me sd ed|y m d|]; cbn [construct];
      auto using emitRange_cases, emitSingle_cases. }
  destruct yearArg as [Y|]; [apply H | rewrite parseDate_default; apply H].
Qed.

(** ** The loop and the output of [main] *)

Lemma written_app (a b : list effect) :
  written (a ++ b) = (written a ++ written b)%list.
Proof.
  induction a as [|e a IH]; [reflexivity|].
  destruct e; cbn [app written]; rewrite ?IH; reflexivity.
Qed.

Lemma detectYear_writes_nothing (env : Ambient) (markdownText : string) :
  written (snd (detectYear env markdownText)) = []%list.
Proof.
  unfold detectYear.
  repeat match goal with
         | |- context [match ?x with _ => _ end] => destruct x
         end; reflexivity.
Qed.

Section LoopFacts.

Variable env : Ambient.

Variable year : Z.

Lemma resolvedEvents_length (entries : list Entry) :
  (List.length (resolvedEvents env year entries) <= List.length entries)%nat.
Proof.
  induction entries as [|en entries IH]; [apply le_n|].
  cbn [resolvedEvents List.length].
  destruct (parseDate env (entry_date en) (Some year)) as [[[a|] [b|]]|];
    cbn [List.length]; lia.
Qed.

(** The loop, when no entry makes [parseDate] throw. *)
Lemma extractionLoop_returns (entries : list Entry) (st : LoopState) :
  (forall en, In en entries ->
     parseDate env (entry_date en) (Some year)
     <> Throw (RangeError "Invalid time value")) ->
  exists warnings,
    extractionLoop env year entries st
    = ({| events := (events st ++ resolvedEvents env year entries)%list;
          successCount := successCount st
                          + Z.of_nat (List.length (resolvedEvents env year entries));
          failCount := failCount st + Z.of_nat (List.length entries)
                       - Z.of_nat (List.length (resolvedEvents env year entries));
          trace := (trace st ++ warnings)%list |}, None) /\
    written warnings = []%list /\
    (List.length warnings + List.length (resolvedEvents env year entries)
     = List.length entries)%nat.
Proof.
  revert st. induction entries as [|en entries IH]; intros st H.
  - exists []%list. cbn [extractionLoop resolvedEvents List.length Z.of_nat].
    rewrite !app_nil_r, !Z.add_0_r, Z.sub_0_r. destruct st. repeat split.
  - assert (Hrest : forall e, In e entries ->
              parseDate env (entry_date e) (Some year)
              <> Throw (RangeError "Invalid time value"))
      by (intros e He; apply H; right; exact He).
    pose proof (H en (or_introl eq_refl)) as Hen.
    cbn [extractionLoop resolvedEvents].
    destruct (parseDate_cases env (entry_date en) (Some year))
      as [E | [E | (f & a & E)]]; [| contradiction |]; rewrite E.
    + cbn [truthy startDate endDate unresolved andb].
      match goal with
      | |- context [extractionLoop env year entries ?st'] =>
          destruct (IH st' Hrest) as (warnings & -> & Hw & Hl)
      end.
      eexists (console_warn _ :: warnings)%list.
      cbn [events successCount failCount trace written List.length].
      split; [|split; [exact Hw | lia]].
      rewrite <- app_assoc. cbn [app]. do 2 f_equal.
      pose proof (resolvedEvents_length entries). lia.
    + cbn [startDate endDate resolved]. rewrite !truthy_isoDay. cbn [andb].
      match goal with
      | |- context [extractionLoop env year entries ?st'] =>
          destruct (IH st' Hrest) as (warnings & -> & Hw & Hl)
      end.
      exists warnings.
      cbn [events successCount failCount trace List.length].
      split; [|split; [exact Hw | lia]].
      rewrite <- app_assoc. cbn [app]. unfold eventOf. do 2 f_equal.
      * lia.
      * pose proof (resolvedEvents_length entries). lia.
Qed.

(** The loop, when some entry makes [parseDate] throw. *)
Lemma extractionLoop_throws (entries : list Entry) (st : LoopState)
      (en : Entry) :
  In en entries ->
  parseDate env (entry_date en) (Some year)
  = Throw (RangeError "Invalid time value") ->
  exists st',
    extractionLoop env year entries st
    = (st', Some (RangeError "Invalid time value")) /\
    written (trace st') = written (trace st).
Proof.
  revert st. induction entries as [|e0 entries IH]; intros st Hin Hthrow;
    [contradiction|].
  cbn [extractionLoop].
  destruct (parseDate_cases env (entry_date e0) (Some year))
    as [E | [E | (f & a & E)]]; rewrite E.
  - destruct Hin as [-> | Hin]; [congruence|].
    cbn [truthy startDate endDate unresolved andb].
    match goal with
    | |- context [extractionLoop env year entries ?st'] =>
        destruct (IH st' Hin Hthrow) as (st'' & -> & Hw)
    end.
    exists st''. split; [reflexivity|]. rewrite Hw. cbn [trace].
    rewrite written_app. cbn [written]. apply app_nil_r.
  - exists st. split; reflexivity.
  - destruct Hin as [-> | Hin]; [congruence|].
    cbn [startDate endDate resolved]. rewrite !truthy_isoDay. cbn [andb].
    match goal with
    | |- context [extractionLoop env year entries ?st'] =>
        destruct (IH st' Hin Hthrow) as (st'' & -> & Hw)
    end.
    exists st''. split; [reflexivity | exact Hw].
Qed.

End LoopFacts.

Lemma throws_or_not (env : Ambient) (year : Z) (entries : list Entry) :
  (forall en, In en entries ->
     parseDate env (entry_date en) (Some year)
     <> Throw (RangeError "Invalid time value")) \/
  (exists en, In en entries /\
     parseDate env (entry_date en) (Some year)
     = Throw (RangeError "Invalid time value")).
Proof.
  induction entries as [|e0 entries IH]; [left; intros en []|].
  destruct (parseDate_cases env (entry_date e0) (Some year))
    as [E | [E | (f & a & E)]].
  - destruct IH as [IH | (en & Hin & Hen)].
    + left. intros en [<- | Hin]; [rewrite E; discriminate | auto].
    + right. exists en. split; [right; exact Hin | exact Hen].
  - right. exists e0. split; [left; reflexivity | exact E].
  - destruct IH as [IH | (en & Hin & Hen)].
    + left. intros en [<- | Hin]; [rewrite E; discriminate | auto].
    + right. exists en. split; [right; exact Hin | exact Hen].
Qed.

Lemma sortEvents_nonempty (l : list Event) :
  l <> []%list -> sortEvents l <> []%list.
Proof.
  destruct l as [|x l]; [contradiction|]. intros _.
  cbn [sortEvents fold_right].
  destruct (fold_right insertEvent []%list l) as [|z zs]; cbn [insertEvent];
    [discriminate | destruct (String.ltb _ _); discriminate].
Qed.

(** The whole of [main] when no phrase throws. *)
Lemma main_when_returns (env : Ambient) (markdownText : string) :
  (forall en, In en (extractEntries markdownText) ->
     parseDate env (entry_date en) (Some (fst (detectYear env markdownText)))
     <> Throw (RangeError "Invalid time value")) ->
  let R := resolvedEvents env (fst (detectYear env markdownText))
             (extractEntries markdownText) in
  exists warnings,
    written warnings = []%list /\
    (List.length warnings + List.length R
     = List.length (extractEntries markdownText))%nat /\
    main env (Return markdownText)
    = (snd (detectYear env markdownText) ++ warnings ++
       match R with
       | [] => [console_error
                  "No events were successfully parsed. Check date formats."]
       | _ =>
         [writeFileSync "events.json" (JsonOf (sortEvents R));
          writeFileSync "events.ics" (IcsOf (sortEvents R));
          console_log ("Successfully parsed " ++ decimal (Z.of_nat (List.length R))
                       ++ " events ("
                       ++ decimal (Z.of_nat (List.length (extractEntries markdownText))
                                   - Z.of_nat (List.length R))
                       ++ " skipped)");
          console_log "JSON and ICS files generated successfully!"]
       end)%list.
Proof.
  intros Hno R. unfold main. subst R.
  destruct (detectYear env markdownText) as [year logged]. cbn [fst snd] in *.
  destruct (extractionLoop_returns env year (extractEntries markdownText)
              {| events := []; successCount := 0; failCount := 0; trace := logged |}
              Hno) as (warnings & -> & Hw & Hl).
  cbn [events successCount failCount trace app].
  exists warnings. split; [exact Hw|]. split; [exact Hl|].
  destruct (resolvedEvents env year (extractEntries markdownText));
    rewrite <- app_assoc; reflexivity.
Qed.

(** The whole of [main] when some phrase throws. *)
Lemma main_when_throws (env : Ambient) (markdownText : string) (en : Entry) :
  In en (extractEntries markdownText) ->
  parseDate env (entry_date en) (Some (fst (detectYear env markdownText)))
  = Throw (RangeError "Invalid time value") ->
  exists before,
    written before = []%list /\
    main env (Return markdownText)
    = (before ++ [console_error "Error occurred: Invalid time value"])%list.
Proof.
  intros Hin Hthrow. unfold main.
  pose proof (detectYear_writes_nothing env markdownText) as Hlog.
  destruct (detectYear env markdownText) as [year logged]. cbn [fst snd] in *.
  destruct (extractionLoop_throws env year (extractEntries markdownText)
              {| events := []; successCount := 0; failCount := 0; trace := logged |}
              en Hin Hthrow) as (st' & -> & Hw).
  cbn [trace] in Hw. cbn [message].
  exists (trace st'). split; [rewrite Hw; exact Hlog | reflexivity].
Qed.

(** ** The sort of [main] *)

Lemma ltb_asym (a b : string) : String.ltb a b = true -> String.ltb b a = false.
Proof.
  unfold String.ltb. rewrite (String.compare_antisym a b).
  destruct (String.compare b a); cbn; congruence.
Qed.

Lemma ltb_same_key (a b : string) : a = b -> String.ltb a b = false.
Proof.
  intros ->. destruct (String.ltb b b) eqn:E; [|reflexivity].
  rewrite (ltb_asym b b E) in E. discriminate.
Qed.

Lemma insertEvent_perm (e : Event) (l : list Event) :
  Permutation (e :: l) (insertEvent e l).
Proof.
  induction l as [|x l IH]; [apply Permutation_refl|].
  cbn [insertEvent]. destruct (String.ltb _ _).
  - apply perm_trans with (x :: e :: l)%list; [apply perm_swap|].
    apply perm_skip. exact IH.
  - apply Permutation_refl.
Qed.

Lemma sortEvents_perm (l : list Event) : Permutation l (sortEvents l).
Proof.
  induction l as [|x l IH]; [apply perm_nil|].
  cbn [sortEvents fold_right].
  apply perm_trans with (x :: sortEvents l)%list;
    [apply perm_skip; exact IH | apply insertEvent_perm].
Qed.

Lemma insertEvent_ascending (e : Event) (l : list Event) :
  ascending l -> ascending (insertEvent e l).
Proof.
  induction l as [|x l IH]; intros Hl; [cbn; auto|].
  cbn [insertEvent]. destruct (String.ltb (ev_startDate x) (ev_startDate e)) eqn:E.
  - destruct Hl as [Hx Hl]. specialize (IH Hl).
    cbn [ascending]. split; [|exact IH].
    destruct l as [|y l]; cbn [insertEvent].
    + apply ltb_asym. exact E.
    + destruct (String.ltb (ev_startDate y) (ev_startDate e));
        [exact Hx | apply ltb_asym; exact E].
  - cbn [ascending]. split; [exact E | exact Hl].
Qed.

Lemma sortEvents_ascending (l : list Event) : ascending (sortEvents l).
Proof.
  induction l as [|x l IH]; [exact I|].
  cbn [sortEvents fold_right]. apply insertEvent_ascending. exact IH.
Qed.

Lemma insertEvent_same_date (key : string) (e : Event) (l : list Event) :
  filter (fun x => String.eqb (ev_startDate x) key) (insertEvent e l)
  = filter (fun x => String.eqb (ev_startDate x) key) (e :: l).
Proof.
  induction l as [|x l IH]; [reflexivity|].
  cbn [insertEvent].
  destruct (String.ltb (ev_startDate x) (ev_startDate e)) eqn:E; [|reflexivity].
  cbn [filter] in *. rewrite IH.
  destruct (String.eqb_spec (ev_startDate x) key) as [Hx|Hx];
    destruct (String.eqb_spec (ev_startDate e) key) as [He|He]; try reflexivity.
  rewrite (ltb_same_key (ev_startDate x) (ev_startDate e)) in E by congruence.
  discriminate.
Qed.

(** ** ISO dates sort like the days they stand for *)

Lemma length_app (a b : string) :
  String.length (a ++ b) = (String.length a + String.length b)%nat.
Proof. induction a as [|c a IH]; cbn; [reflexivity | rewrite IH; reflexivity]. Qed.

Lemma append_assoc (a b c : string) : (a ++ b) ++ c = a ++ (b ++ c).
Proof. induction a as [|x a IH]; cbn; [reflexivity | rewrite IH; reflexivity]. Qed.

Lemma compare_refl (s : string) : String.compare s s = Eq.
Proof.
  pose proof (String.compare_antisym s s) as H.
  destruct (String.compare s s); cbn in H; congruence.
Qed.

(** Two strings that start with pieces of equal length compare by those
    pieces first. *)
Lemma compare_app (p1 p2 r1 r2 : string) :
  String.length p1 = String.length p2 ->
  String.compare (p1 ++ r1) (p2 ++ r2)
  = match String.compare p1 p2 with
    | Eq => String.compare r1 r2
    | c => c
    end.
Proof.
  revert p2. induction p1 as [|a p1 IH]; intros [|b p2] H; try discriminate.
  - reflexivity.
  - cbn in H. injection H as H. cbn [append String.compare].
    destruct (Ascii.compare a b); [apply IH; exact H | reflexivity | reflexivity].
Qed.

Lemma padDigits_length (k : nat) (n : Z) : String.length (padDigits k n) = k.
Proof.
  revert n. induction k as [|k IH]; intros n; [reflexivity|].
  cbn [padDigits]. rewrite length_app, IH. cbn. lia.
Qed.

Lemma digitChar_compare (i j : Z) :
  0 <= i <= 9 -> 0 <= j <= 9 ->
  Ascii.compare (digitChar i) (digitChar j) = (i ?= j).
Proof.
  intros Hi Hj.
  assert (Ei : i = 0 \/ i = 1 \/ i = 2 \/ i = 3 \/ i = 4 \/ i = 5 \/ i = 6
               \/ i = 7 \/ i = 8 \/ i = 9) by lia.
  assert (Ej : j = 0 \/ j = 1 \/ j = 2 \/ j = 3 \/ j = 4 \/ j = 5 \/ j = 6
               \/ j = 7 \/ j = 8 \/ j = 9) by lia.
  repeat (destruct Ei as [-> | Ei]); try subst i;
    repeat (destruct Ej as [-> | Ej]); try subst j; reflexivity.
Qed.

Lemma compare_by_digits (a b : Z) :
  0 <= a -> 0 <= b ->
  (a ?= b) = match a / 10 ?= b / 10 with
             | Eq => a mod 10 ?= b mod 10
             | c => c
             end.
Proof.
  intros Ha Hb.
  destruct (Z.compare_spec (a / 10) (b / 10)) as [E|E|E];
    destruct (Z.compare_spec (a mod 10) (b mod 10)) as [F|F|F];
    destruct (Z.compare_spec a b) as [G|G|G]; try reflexivity; exfalso;
    revert E F G; Z.div_mod_to_equations; lia.
Qed.

(** Zero-padded numbers of one width compare as numbers. *)
Lemma padDigits_compare (k : nat) (a b : Z) :
  0 <= a -> 0 <= b ->
  String.compare (padDigits k a) (padDigits k b)
  = (a mod 10 ^ Z.of_nat k ?= b mod 10 ^ Z.of_nat k).
Proof.
  revert a b. induction k as [|k IH]; intros a b Ha Hb.
  - cbn [padDigits Z.of_nat]. rewrite !Z.mod_1_r. reflexivity.
  - cbn [padDigits].
    rewrite compare_app by (rewrite !padDigits_length; reflexivity).
    rewrite IH by (apply Z.div_pos; lia).
    cbn [String.compare].
    rewrite digitChar_compare
      by (pose proof (Z.mod_pos_bound a 10); pose proof (Z.mod_pos_bound b 10); lia).
    assert (P : 0 < 10 ^ Z.of_nat k) by (apply Z.pow_pos_nonneg; lia).
    replace (10 ^ Z.of_nat (S k)) with (10 * 10 ^ Z.of_nat k)
      by (rewrite Nat2Z.inj_succ, Z.pow_succ_r; lia).
    rewrite (compare_by_digits (a mod (10 * 10 ^ Z.of_nat k))
                               (b mod (10 * 10 ^ Z.of_nat k)))
      by (apply Z.mod_pos_bound; lia).
    assert (D : forall x, 0 <= x ->
              (x mod (10 * 10 ^ Z.of_nat k)) / 10 = (x / 10) mod 10 ^ Z.of_nat k
              /\ (x mod (10 * 10 ^ Z.of_nat k)) mod 10 = x mod 10).
    { intros x Hx. split.
      - rewrite Z.rem_mul_r by lia.
        rewrite (Z.mul_comm 10), Z.div_add by lia.
        rewrite (Z.div_small (x mod 10)) by (apply Z.mod_pos_bound; lia). lia.
      - rewrite Z.rem_mul_r by lia.
        rewrite (Z.mul_comm 10), Z.mod_add by lia.
        apply Z.mod_mod. lia. }
    destruct (D a Ha) as [-> ->]. destruct (D b Hb) as [-> ->].
    destruct (_ ?= _); [|reflexivity|reflexivity].
    destruct (a mod 10 ?= b mod 10); reflexivity.
Qed.

Lemma padDigits_compare_small (k : nat) (a b : Z) :
  0 <= a < 10 ^ Z.of_nat k -> 0 <= b < 10 ^ Z.of_nat k ->
  String.compare (padDigits k a) (padDigits k b) = (a ?= b).
Proof.
  intros Ha Hb. rewrite padDigits_compare by lia.
  rewrite !Z.mod_small by lia. reflexivity.
Qed.

Lemma YearFromDay_mono (d1 d2 : Z) : d1 <= d2 -> YearFromDay d1 <= YearFromDay d2.
Proof.
  intros H.
  pose proof (YearFromDay_spec d1) as S1. pose proof (YearFromDay_spec d2) as S2.
  destruct (Z.le_gt_cases (YearFromDay d1) (YearFromDay d2)) as [L|G]; [exact L|].
  pose proof (DayFromYear_mono (YearFromDay d2 + 1) (YearFromDay d1) ltac:(lia)).
  lia.
Qed.

Lemma monthOfYearDay_mono (leap a b : Z) :
  a <= b -> monthOfYearDay leap a <= monthOfYearDay leap b.
Proof.
  intros H. unfold monthOfYearDay.
  repeat match goal with
         | |- context [if ?x <? ?y then _ else _] => destruct (Z.ltb_spec x y)
         end; lia.
Qed.

(** Year, month and day of a day number, for the three lemmas below. *)
Lemma fields_of_midnight (d : Z) :
  YearFromTime (d * msPerDay) = YearFromDay d /\
  DayWithinYear (d * msPerDay) = d - DayFromYear (YearFromDay d) /\
  InLeapYear (d * msPerDay) = leapDay (YearFromDay d).
Proof.
  unfold DayWithinYear, InLeapYear, YearFromTime, leapDay.
  rewrite Day_midnight. repeat split.
Qed.

(** Earlier days have smaller ISO dates, among the years with four
    digits. *)
Lemma isoDay_lt (d1 d2 : Z) :
  fourDigitYear d1 -> fourDigitYear d2 -> d1 < d2 ->
  String.compare (isoDay d1) (isoDay d2) = Lt.
Proof.
  unfold fourDigitYear. intros H1 H2 Hlt. unfold isoDay, isoYear.
  destruct (fields_of_midnight d1) as (Y1 & W1 & L1).
  destruct (fields_of_midnight d2) as (Y2 & W2 & L2).
  rewrite Y1, Y2.
  replace ((0 <=? YearFromDay d1) && (YearFromDay d1 <=? 9999)) with true
    by (symmetry; apply andb_true_iff; split; apply Z.leb_le; lia).
  replace ((0 <=? YearFromDay d2) && (YearFromDay d2 <=? 9999)) with true
    by (symmetry; apply andb_true_iff; split; apply Z.leb_le; lia).
  pose proof (MonthFromTime_range (d1 * msPerDay)) as M1.
  pose proof (MonthFromTime_range (d2 * msPerDay)) as M2.
  pose proof (DateFromTime_range (d1 * msPerDay)) as D1.
  pose proof (DateFromTime_range (d2 * msPerDay)) as D2.
  pose proof (YearFromDay_mono d1 d2 ltac:(lia)) as Ym.
  rewrite compare_app by (rewrite !padDigits_length; reflexivity).
  rewrite padDigits_compare_small by (cbn; lia).
  destruct (Z.compare_spec (YearFromDay d1) (YearFromDay d2)) as [EY|LY|GY];
    [|reflexivity|lia].
  rewrite (compare_app "-" "-") by reflexivity. cbn [String.compare Ascii.compare].
  change (N.compare (N_of_ascii "-") (N_of_ascii "-")) with Eq. cbv iota.
  rewrite compare_app by (rewrite !padDigits_length; reflexivity).
  rewrite padDigits_compare_small by (cbn; lia).
  assert (Mm : MonthFromTime (d1 * msPerDay) <= MonthFromTime (d2 * msPerDay)).
  { unfold MonthFromTime. rewrite L1, L2, W1, W2, EY.
    apply monthOfYearDay_mono. lia. }
  destruct (Z.compare_spec (MonthFromTime (d1 * msPerDay) + 1)
                           (MonthFromTime (d2 * msPerDay) + 1)) as [EM|LM|GM];
    [|reflexivity|lia].
  rewrite (compare_app "-" "-") by reflexivity. cbn [String.compare Ascii.compare].
  change (N.compare (N_of_ascii "-") (N_of_ascii "-")) with Eq. cbv iota.
  rewrite padDigits_compare_small by (cbn; lia).
  apply Z.compare_lt_iff.
  unfold DateFromTime in *. rewrite L1, L2, W1, W2, EY in *.
  replace (MonthFromTime (d1 * msPerDay)) with (MonthFromTime (d2 * msPerDay))
    by lia.
  lia.
Qed.

Lemma isoDay_order (d1 d2 : Z) :
  fourDigitYear d1 -> fourDigitYear d2 ->
  String.ltb (isoDay d1) (isoDay d2) = (d1 <? d2).
Proof.
  intros H1 H2. unfold String.ltb.
  destruct (Z.ltb_spec d1 d2) as [L|G].
  - rewrite (isoDay_lt d1 d2 H1 H2 L). reflexivity.
  - destruct (Z.eq_dec d1 d2) as [->|N]; [rewrite compare_refl; reflexivity|].
    rewrite String.compare_antisym, (isoDay_lt d2 d1 H2 H1) by lia. reflexivity.
Qed.

Lemma ascending_neighbours (l pre post : list Event) (x y : Event) :
  ascending l -> l = (pre ++ x :: y :: post)%list ->
  String.ltb (ev_startDate y) (ev_startDate x) = false.
Proof.
  revert l. induction pre as [|p pre IH]; intros l Hl ->.
  - destruct Hl as [H _]. exact H.
  - destruct Hl as [_ Hl]. eapply IH; [exact Hl | reflexivity].
Qed.

Lemma ascending_tail (pre l : list Event) :
  ascending (pre ++ l) -> ascending l.
Proof.
  induction pre as [|p pre IH]; [auto|]. intros [_ H]. apply IH. exact H.
Qed.

(** ** The matcher *)

Lemma drop_app (a b : string) : drop (String.length a) (a ++ b) = b.
Proof. induction a as [|c a IH]; [destruct b; reflexivity | exact IH]. Qed.

Lemma take_drop (n : nat) (s : string) : take n s ++ drop n s = s.
Proof.
  revert s. induction n as [|n IH]; intros [|c s]; cbn; try reflexivity.
  rewrite IH. reflexivity.
Qed.

Lemma take_app (a b : string) : take (String.length a) (a ++ b) = a.
Proof. induction a as [|c a IH]; [destruct b; reflexivity | cbn; rewrite IH; reflexivity]. Qed.

Lemma toLowerCase_take (n : nat) (s : string) :
  toLowerCase (take n s) = take n (toLowerCase s).
Proof.
  revert s. induction n as [|n IH]; intros [|c s]; cbn; try reflexivity.
  rewrite IH. reflexivity.
Qed.

Lemma revOnto_app (acc a b : string) : revOnto acc (a ++ b) = revOnto acc a ++ b.
Proof.
  revert a. induction acc as [|c acc IH]; intros a; [reflexivity|].
  cbn [revOnto]. apply (IH (String c a)).
Qed.

Lemma allChars_app (p : ascii -> bool) (a b : string) :
  allChars p (a ++ b) = allChars p a && allChars p b.
Proof.
  induction a as [|c a IH]; [reflexivity|].
  cbn. rewrite IH. apply andb_assoc.
Qed.

Lemma withPiece_Some (piece : string) (r : option (list string * string))
      (pieces : list string) (rest : string) :
  withPiece piece r = Some (pieces, rest) ->
  exists ps, pieces = (piece :: ps)%list /\ r = Some (ps, rest).
Proof.
  destruct r as [[ps rest']|]; [|discriminate].
  intros [= <- <-]. exists ps. split; reflexivity.
Qed.

(** One step of a match: the first atom matched a piece of the right
    kind at the head of the text, and the other atoms matched what
    follows. For [.*?] every shorter piece was tried and failed. *)
Lemma matchAtoms_cons (a : atom) (p : list atom) (prevWord : bool)
      (s : string) (pieces : list string) (rest : string) :
  matchAtoms (a :: p) prevWord s = Some (pieces, rest) ->
  exists piece ps prevWord' s',
    pieces = (piece :: ps)%list /\ s = piece ++ s' /\ conforms a piece /\
    matchAtoms p prevWord' s' = Some (ps, rest) /\
    (a = LazyDots ->
     forall x c y, piece = x ++ String c y ->
       exists w, matchAtoms p w (String c y ++ s') = None).
Proof.
  destruct a as [l|l| | | |]; cbn [matchAtoms].
  - (* literal *)
    destruct (startsWith s l) eqn:E; [|discriminate].
    apply startsWith_spec in E. destruct E as [post ->].
    rewrite drop_app. intros H. apply withPiece_Some in H.
    destruct H as (ps & -> & H).
    exists l, ps, (wordAfter prevWord l), post.
    repeat split; try assumption; try reflexivity. discriminate.
  - (* literal, any case *)
    destruct (startsWith (toLowerCase s) l) eqn:E; [|discriminate].
    apply startsWith_spec in E. destruct E as [post E].
    intros H. apply withPiece_Some in H. destruct H as (ps & -> & H).
    exists (take (String.length l) s), ps,
      (wordAfter prevWord (take (String.length l) s)), (drop (String.length l) s).
    repeat split; try assumption.
    + symmetry. apply take_drop.
    + cbn [conforms]. rewrite toLowerCase_take, E. apply take_app.
    + discriminate.
  - (* .*? *)
    match goal with
    | |- ?F EmptyString prevWord s = _ -> _ =>
        assert (G : forall s acc w pieces rest,
                   F acc w s = Some (pieces, rest) ->
                   exists consumed ps w' s',
                     pieces = (revOnto acc consumed :: ps)%list /\
                     s = consumed ++ s' /\ noLineBreak consumed = true /\
                     matchAtoms p w' s' = Some (ps, rest) /\
                     (forall x c y, consumed = x ++ String c y ->
                        exists w'', matchAtoms p w'' (String c y ++ s') = None))
    end.
    { clear. intros s. induction s as [|c s IH]; intros acc w pieces rest H.
      - cbn in H. destruct (matchAtoms p w "") as [[ps r]|] eqn:E; [|discriminate].
        injection H as <- <-. exists "", ps, w, "".
        repeat split; try assumption.
        intros x c y Hx. destruct x; discriminate.
      - cbn in H.
        destruct (matchAtoms p w (String c s)) as [[ps r]|] eqn:E.
        + injection H as <- <-. exists "", ps, w, (String c s).
          repeat split; try assumption.
          intros x c0 y Hx. destruct x; discriminate.
        + destruct (isLineTerminator c) eqn:Ec; [discriminate|].
          apply IH in H.
          destruct H as (consumed & ps & w' & s' & -> & -> & Hn & Hm & Hmin).
          exists (String c consumed), ps, w', s'.
          split; [reflexivity|]. split; [reflexivity|].
          split; [unfold noLineBreak in *; cbn; rewrite Ec, Hn; reflexivity|].
          split; [exact Hm|].
          intros x c0 y Hx. destruct x as [|c1 x].
          * cbn in Hx. injection Hx as <- <-. exists w. exact E.
          * cbn in Hx. injection Hx as <- Hx. apply (Hmin x c0 y Hx). }
    intros H. apply G in H.
    destruct H as (consumed & ps & w' & s' & -> & -> & Hn & Hm & Hmin).
    exists consumed, ps, w', s'. repeat split; try assumption.
    intros _. exact Hmin.
  - (* \s* *)
    match goal with
    | |- ?F EmptyString prevWord s = _ -> _ =>
        assert (G : forall s acc w pieces rest,
                   F acc w s = Some (pieces, rest) ->
                   exists consumed ps w' s',
                     pieces = (revOnto acc consumed :: ps)%list /\
                     s = consumed ++ s' /\
                     allChars isWhiteSpace consumed = true /\
                     matchAtoms p w' s' = Some (ps, rest))
    end.
    { clear. intros s. induction s as [|c s IH]; intros acc w pieces rest H.
      - cbn in H. apply withPiece_Some in H. destruct H as (ps & -> & H).
        exists "", ps, w, "". repeat split; assumption.
      - cbn in H. destruct (isWhiteSpace c) eqn:Ec.
        + match type of H with
          | match ?X with _ => _ end = _ => destruct X as [[ps0 r0]|] eqn:E
          end.
          * injection H as <- <-. apply IH in E.
            destruct E as (consumed & ps & w' & s' & -> & -> & Hn & Hm).
            exists (String c consumed), ps, w', s'.
            repeat split; try assumption. cbn. rewrite Ec, Hn. reflexivity.
          * apply withPiece_Some in H. destruct H as (ps & -> & H).
            exists "", ps, w, (String c s). repeat split; assumption.
        + apply withPiece_Some in H. destruct H as (ps & -> & H).
          exists "", ps, w, (String c s). repeat split; assumption. }
    intros H. apply G in H.
    destruct H as (consumed & ps & w' & s' & -> & -> & Hn & Hm).
    exists consumed, ps, w', s'. repeat split; try assumption. discriminate.
  - (* \d *)
    destruct s as [|c s]; [discriminate|].
    destruct (isDigit c) eqn:Ec; [|discriminate].
    intros H. apply withPiece_Some in H. destruct H as (ps & -> & H).
    exists (String c ""), ps, true, s. repeat split; try assumption.
    + exists c. split; [reflexivity | exact Ec].
    + discriminate.
  - (* \b *)
    destruct (xorb prevWord _); [|discriminate].
    intros H. apply withPiece_Some in H. destruct H as (ps & -> & H).
    exists "", ps, prevWord, s. repeat split; try assumption. discriminate.
Qed.

Lemma matchAtoms_nil (prevWord : bool) (s : string) (pieces : list string)
      (rest : string) :
  matchAtoms []%list prevWord s = Some (pieces, rest) ->
  pieces = []%list /\ rest = s.
Proof. cbn. intros [= <- <-]. split; reflexivity. Qed.

(** A match found by [search] or by the [exec] loop is a match of the
    atoms at some place in the text. *)
Lemma searchFrom_Some (p : list atom) (s : string) (prevWord : bool)
      (pieces : list string) :
  searchFrom p prevWord s = Some pieces ->
  exists pre s' w rest,
    s = pre ++ s' /\ matchAtoms p w s' = Some (pieces, rest).
Proof.
  revert prevWord. induction s as [|c s IH]; intros prevWord; cbn [searchFrom].
  - destruct (matchAtoms p prevWord "") as [[ps r]|] eqn:E; [|discriminate].
    intros [= <-]. exists "", "", prevWord, r. split; [reflexivity | exact E].
  - destruct (matchAtoms p prevWord (String c s)) as [[ps r]|] eqn:E.
    + intros [= <-]. exists "", (String c s), prevWord, r.
      split; [reflexivity | exact E].
    + intros H. apply IH in H. destruct H as (pre & s' & w & rest & -> & H).
      exists (String c pre), s', w, rest. split; [reflexivity | exact H].
Qed.

Lemma execFrom_In (p : list atom) (s : string) (skip : nat) (prevWord : bool)
      (pieces : list string) :
  In pieces (execFrom p skip prevWord s) ->
  exists pre s' w rest,
    s = pre ++ s' /\ matchAtoms p w s' = Some (pieces, rest).
Proof.
  revert skip prevWord. induction s as [|c s IH]; intros skip prevWord;
    cbn [execFrom]; [intros []|].
  assert (K : forall k w, In pieces (execFrom p k w s) ->
            exists pre s' w' rest,
              String c s = pre ++ s' /\ matchAtoms p w' s' = Some (pieces, rest)).
  { intros k w H. apply IH in H. destruct H as (pre & s' & w' & rest & -> & H).
    exists (String c pre), s', w', rest. split; [reflexivity | exact H]. }
  destruct skip as [|k]; [|apply K].
  destruct (matchAtoms p prevWord (String c s)) as [[ps r]|] eqn:E; [|apply K].
  intros [<- | H]; [|exact (K _ _ H)].
  exists "", (String c s), prevWord, r. split; [reflexivity | exact E].
Qed.

Lemma noPeriod_spec (piece : string) :
  (forall x c y, piece = x ++ String c y -> c <> "."%char) ->
  noPeriod piece = true.
Proof.
  induction piece as [|c piece IH]; intros H; [reflexivity|].
  unfold noPeriod in *. cbn [allChars].
  destruct (Ascii.eqb_spec c "."%char) as [E|E].
  - exfalso. apply (H "" c piece); [reflexivity | exact E].
  - cbn [negb andb]. apply IH. intros x c0 y ->.
    apply (H (String c x) c0 y). reflexivity.
Qed.

Lemma period_matches (w : bool) (s : string) :
  matchAtoms [Lit "."]%list w (String "."%char s) <> None.
Proof.
  cbn [matchAtoms].
  replace (startsWith (String "."%char s) ".") with true
    by (symmetry; apply startsWith_spec; exists s; reflexivity).
  cbn. discriminate.
Qed.

(** The shape of a match of the event pattern. *)
Lemma eventPattern_match (w : bool) (s rest : string) (pieces : list string) :
  matchAtoms eventPattern w s = Some (pieces, rest) ->
  exists name url ws date mode location,
    pieces = ["- ["; name; "]("; url; (")" ++ LF)%string; ws; "> Date: "; date;
              " || Mode: "; mode; " || Location: "; location; "."]%list /\
    s = "- [" ++ name ++ "](" ++ url ++ ")" ++ LF ++ ws ++ "> Date: " ++ date
        ++ " || Mode: " ++ mode ++ " || Location: " ++ location ++ "." ++ rest /\
    allChars isWhiteSpace ws = true /\
    noLineBreak name = true /\ noLineBreak url = true /\
    noLineBreak date = true /\ noLineBreak mode = true /\
    noLineBreak location = true /\ noPeriod location = true.
Proof.
  unfold eventPattern. intros H.
  do 13 (match_step matchAtoms_cons H).
  apply matchAtoms_nil in H. destruct H as [-> ->].
  subst.
  eexists; eexists; eexists; eexists; eexists; eexists.
  split; [reflexivity|]. split.
  - cbn [LF]. rewrite ?append_assoc. cbn [append]. reflexivity.
  - repeat split; try assumption.
    apply noPeriod_spec. intros x c y Hx ->.
    match goal with
    | M : LazyDots = LazyDots -> _ |- _ =>
        destruct (M eq_refl _ _ _ Hx) as [w' Hw'];
        apply period_matches in Hw'; contradiction
    end.
Qed.

(** ** What [main] extracts from the document *)

Lemma extractEntries_In (text : string) (en : Entry) :
  In en (extractEntries text) ->
  exists pre post ws,
    text = pre ++ "- [" ++ entry_name en ++ "](" ++ entry_url en ++ ")" ++ LF
           ++ ws ++ "> Date: " ++ entry_date en ++ " || Mode: " ++ entry_mode en
           ++ " || Location: " ++ entry_location en ++ "." ++ post /\
    allChars isWhiteSpace ws = true /\
    noLineBreak (entry_name en) = true /\ noLineBreak (entry_url en) = true /\
    noLineBreak (entry_date en) = true /\ noLineBreak (entry_mode en) = true /\
    noLineBreak (entry_location en) = true /\
    noPeriod (entry_location en) = true.
Proof.
  unfold extractEntries, execAll. intros H. apply in_flat_map in H.
  destruct H as (pieces & Hp & Hen).
  apply execFrom_In in Hp. destruct Hp as (pre & s' & w & rest & -> & Hm).
  apply eventPattern_match in Hm.
  destruct Hm as (n & u & ws & d & m & l & -> & -> & Hws & Hn & Hu & Hd & Hmo & Hl & Hp).
  cbn [entryOfMatch In] in Hen. destruct Hen as [<- | []].
  cbn [entry_name entry_url entry_date entry_mode entry_location].
  exists pre, rest, ws. repeat split; assumption.
Qed.

(** ** The context year of a run *)

Lemma isDigit_code (c : ascii) : isDigit c = true -> 48 <= code c <= 57.
Proof.
  unfold isDigit, inRange. rewrite andb_true_iff, !Z.leb_le. auto.
Qed.

Lemma parseInt_20xx (c1 c2 : ascii) :
  isDigit c1 = true -> isDigit c2 = true ->
  2000 <= parseInt ("20" ++ String c1 "" ++ String c2 "") <= 2099.
Proof.
  intros H1 H2. unfold parseInt. cbn [append parseDigits].
  change (isDigit "2") with true. change (isDigit "0") with true.
  rewrite H1, H2. cbv iota.
  change (code "2") with 50. change (code "0") with 48.
  apply isDigit_code in H1, H2. lia.
Qed.

Lemma headerYear_match (text : string) (pieces : list string) :
  search headerYearPattern text = Some pieces ->
  exists h dots c1 c2,
    pieces = [h; dots; "20"; String c1 ""; String c2 ""]%list /\
    isDigit c1 = true /\ isDigit c2 = true.
Proof.
  unfold search, headerYearPattern. intros H. apply searchFrom_Some in H.
  destruct H as (pre & s' & w & rest & _ & H).
  do 5 (match_step matchAtoms_cons H).
  apply matchAtoms_nil in H. destruct H as [-> _].
  destruct C2 as (c1 & -> & D1). destruct C3 as (c2 & -> & D2). subst.
  eexists; eexists; exists c1, c2. repeat split; assumption.
Qed.

Lemma contentYear_match (text : string) (pieces : list string) :
  search contentYearPattern text = Some pieces ->
  exists c1 c2,
    pieces = [""; "20"; String c1 ""; String c2 ""; ""]%list /\
    isDigit c1 = true /\ isDigit c2 = true.
Proof.
  unfold search, contentYearPattern. intros H. apply searchFrom_Some in H.
  destruct H as (pre & s' & w & rest & _ & H).
  do 5 (match_step matchAtoms_cons H).
  apply matchAtoms_nil in H. destruct H as [-> _].
  destruct C1 as (c1 & -> & D1). destruct C2 as (c2 & -> & D2). subst.
  exists c1, c2. repeat split; assumption.
Qed.

(** The three ways [detectYear] can end. *)
Lemma detectYear_cases (env : Ambient) (text : string) :
  (exists y log,
     2000 <= y <= 2099 /\ search headerYearPattern text <> None /\
     forall env', detectYear env' text = (y, log)) \/
  (exists y log,
     2000 <= y <= 2099 /\ search headerYearPattern text = None /\
     search contentYearPattern text <> None /\
     forall env', detectYear env' text = (y, log)) \/
  (search headerYearPattern text = None /\
   search contentYearPattern text = None /\
   detectYear env text
   = (YearFromTime (LocalTime (LocalTZA env) (now env)),
      [console_log ("No year detected; defaulting to current year: "
                    ++ decimal (YearFromTime (LocalTime (LocalTZA env) (now env))))]%list)).
Proof.
  unfold detectYear.
  destruct (search headerYearPattern text) as [pieces|] eqn:Eh.
  - left. destruct (headerYear_match text pieces Eh) as (h & dots & c1 & c2 & -> & D1 & D2).
    eexists; eexists. split; [apply (parseInt_20xx c1 c2 D1 D2)|].
    split; [discriminate | reflexivity].
  - right. destruct (search contentYearPattern text) as [pieces|] eqn:Ec.
    + left. destruct (contentYear_match text pieces Ec) as (c1 & c2 & -> & D1 & D2).
      eexists; eexists. split; [apply (parseInt_20xx c1 c2 D1 D2)|].
      split; [reflexivity|]. split; [discriminate | reflexivity].
    + right. repeat split.
Qed.

(** A year token in the text is found, if nothing is found before it. *)
Lemma searchFrom_app (p : list atom) (pre s : string) (prevWord : bool) :
  matchAtoms p (wordAfter prevWord pre) s <> None ->
  searchFrom p prevWord (pre ++ s) <> None.
Proof.
  revert prevWord. induction pre as [|c pre IH]; intros prevWord H.
  - cbn [append wordAfter] in *. destruct s as [|c s]; cbn [searchFrom];
      destruct (matchAtoms p prevWord _) as [[ps r]|]; try discriminate;
      contradiction.
  - cbn [append searchFrom].
    destruct (matchAtoms p prevWord _) as [[ps r]|]; [discriminate|].
    apply IH. exact H.
Qed.

Lemma hasYearToken_found (text : string) :
  hasYearToken text -> search contentYearPattern text <> None.
Proof.
  intros (pre & c1 & c2 & post & -> & Hw & D1 & D2 & Hb).
  unfold search. apply searchFrom_app. rewrite Hw.
  unfold contentYearPattern. cbn [matchAtoms append].
  change (isWordChar "2") with true. cbn [xorb].
  replace (startsWith (String "2" (String "0" (String c1 (String c2 post)))) "20")
    with true by (symmetry; apply startsWith_spec; eexists; reflexivity).
  cbn [String.length drop]. rewrite D1, D2.
  destruct post as [|e post]; cbn [xorb] in *.
  - cbn. discriminate.
  - rewrite negb_true_iff in Hb. rewrite Hb. cbn. discriminate.
Qed.

Lemma extractionLoop_clock (tza n1 n2 year : Z) (entries : list Entry)
      (st : LoopState) :
  extractionLoop {| LocalTZA := tza; now := n1 |} year entries st
  = extractionLoop {| LocalTZA := tza; now := n2 |} year entries st.
Proof.
  revert st. induction entries as [|en entries IH]; intros st; [reflexivity|].
  cbn [extractionLoop].
  change (parseDate {| LocalTZA := tza; now := n1 |} (entry_date en) (Some year))
    with (parseDate {| LocalTZA := tza; now := n2 |} (entry_date en) (Some year)).
  destruct (parseDate _ _ _) as [r|e]; [|reflexivity].
  destruct (truthy (startDate r) && truthy (endDate r)); apply IH.
Qed.

(** ** [fetchContent] *)

Lemma settle_listening (url : string) (data : string) (mid after : list netEvent) :
  forallb (fun ev => negb (isRequestError ev || isEnd ev)) mid = true ->
  settle url true data (mid ++ end_of_response :: after)
  = Some (Return (data ++ chunksOf mid)).
Proof.
  revert data. induction mid as [|ev mid IH]; intros data H.
  - cbn. destruct data; cbn; [reflexivity|]. f_equal. f_equal. f_equal.
    clear. induction data as [|c d IH]; [reflexivity | cbn; rewrite <- IH; reflexivity].
  - cbn [forallb] in H. apply andb_true_iff in H. destruct H as [Hev H].
    destruct ev as [code|chunk| |e]; try discriminate; cbn [app settle chunksOf].
    + apply IH. exact H.
    + rewrite IH by exact H. rewrite append_assoc. reflexivity.
Qed.

(** What it takes for the promise to be resolved. *)
Lemma settle_resolved (url : string) (events : list netEvent) (listening : bool)
      (data text : string) :
  settle url listening data events = Some (Return text) ->
  exists before mid after,
    events = (before ++ mid ++ end_of_response :: after)%list /\
    forallb (fun ev => negb (isRequestError ev)) (before ++ mid) = true /\
    forallb (fun ev => negb (isEnd ev)) mid = true /\
    text = data ++ chunksOf mid /\
    (if listening then before = []%list
     else exists before', before = (before' ++ [response 200])%list /\
                          forallb (fun ev => negb (isResponse ev)) before' = true).
Proof.
  revert listening data. induction events as [|ev events IH];
    intros listening data H; [discriminate|].
  destruct ev as [code|chunk| |e]; cbn [settle] in H.
  - (* response *)
    destruct listening.
    + apply IH in H.
      destruct H as (before & mid & after & -> & Hn & He & -> & ->).
      exists []%list, (response code :: mid)%list, after.
      cbn [app forallb chunksOf isRequestError isEnd negb andb] in *.
      repeat split; assumption.
    + destruct (Z.eqb_spec code 200) as [->|Hc]; cbn [negb] in H; [|discriminate].
      apply IH in H.
      destruct H as (before & mid & after & -> & Hn & He & -> & ->).
      exists [response 200]%list, mid, after.
      cbn [app forallb isRequestError negb andb] in *.
      repeat split; try assumption.
      exists []%list. split; reflexivity.
  - (* data *)
    apply IH in H.
    destruct H as (before & mid & after & -> & Hn & He & -> & Hb).
    destruct listening.
    + subst before. exists []%list, (data_chunk chunk :: mid)%list, after.
      cbn [app forallb chunksOf isRequestError isEnd negb andb] in *.
      repeat split; try assumption. apply append_assoc.
    + destruct Hb as (before' & -> & Hb).
      exists (data_chunk chunk :: before' ++ [response 200])%list, mid, after.
      cbn [app forallb isRequestError negb andb] in *.
      repeat split; try assumption.
      exists (data_chunk chunk :: before')%list. split; [reflexivity|].
      cbn [forallb isResponse negb andb]. exact Hb.
  - (* end *)
    destruct listening.
    + injection H as <-. exists []%list, []%list, events.
      cbn [app forallb chunksOf]. repeat split.
      clear. induction data as [|c d IH]; [reflexivity | cbn; rewrite <- IH; reflexivity].
    + apply IH in H.
      destruct H as (before & mid & after & -> & Hn & He & -> & (before' & -> & Hb)).
      exists (end_of_response :: before' ++ [response 200])%list, mid, after.
      cbn [app forallb isRequestError negb andb] in *.
      repeat split; try assumption.
      exists (end_of_response :: before')%list. split; [reflexivity|].
      cbn [forallb isResponse negb andb]. exact Hb.
  - discriminate.
Qed.

(** ** [generateICS] *)

Lemma countLines_app (line : string) (a b : list string) :
  countLines line (a ++ b) = (countLines line a + countLines line b)%nat.
Proof. unfold countLines. rewrite filter_app, List.length_app. reflexivity. Qed.

Lemma veventLines_shape (uid : string) (stamp : Z) (event : Event) :
  List.length (veventLines uid stamp event) = 10%nat /\
  countLines "BEGIN:VEVENT" (veventLines uid stamp event) = 1%nat /\
  countLines "END:VEVENT" (veventLines uid stamp event) = 1%nat.
Proof. repeat split. Qed.

Lemma veventsFrom_shape (o : Oracle) (events : list Event) (k : nat) :
  List.length (veventsFrom o k events)
  = (10 * List.length (filter dated events))%nat /\
  countLines "BEGIN:VEVENT" (veventsFrom o k events)
  = List.length (filter dated events) /\
  countLines "END:VEVENT" (veventsFrom o k events)
  = List.length (filter dated events).
Proof.
  revert k. induction events as [|e events IH]; intros k; [repeat split|].
  cbn [veventsFrom filter]. destruct (dated e); [|apply IH].
  destruct (IH (S k)) as (H1 & H2 & H3).
  destruct (veventLines_shape (randomToken o k) (clockAt o k) e) as (V1 & V2 & V3).
  rewrite List.length_app, !countLines_app, H1, H2, H3, V1, V2, V3.
  cbn [List.length]. repeat split; lia.
Qed.

Lemma isStable_veventLines (uid1 uid2 : string) (t1 t2 : Z) (event : Event) :
  filter isStable (veventLines uid1 t1 event)
  = filter isStable (veventLines uid2 t2 event).
Proof.
  unfold veventLines. cbn [filter].
  assert (U : forall x, isStable ("UID:" ++ x) = false).
  { intros x. unfold isStable.
    replace (startsWith ("UID:" ++ x) "UID:") with true
      by (symmetry; apply startsWith_spec; exists x; reflexivity).
    reflexivity. }
  assert (D : forall x, isStable ("DTSTAMP:" ++ x) = false).
  { intros x. unfold isStable.
    replace (startsWith ("DTSTAMP:" ++ x) "DTSTAMP:") with true
      by (symmetry; apply startsWith_spec; exists x; reflexivity).
    rewrite orb_true_r. reflexivity. }
  rewrite !U, !D. reflexivity.
Qed.

(** *** The text of the calendar splits back into its lines *)

Lemma revOnto_revOnto (a b c : string) :
  revOnto (revOnto a b) c = revOnto b (a ++ c).
Proof.
  revert b c. induction a as [|x a IH]; intros b c; [reflexivity|].
  cbn [revOnto append]. rewrite IH. reflexivity.
Qed.

Lemma not_CR (c : ascii) :
  isLineTerminator c = false -> Ascii.eqb "013"%char c = false.
Proof.
  intros H. destruct (Ascii.eqb_spec "013"%char c) as [<-|]; [|reflexivity].
  discriminate.
Qed.

Lemma no_separator_here (c : ascii) (s : string) :
  isLineTerminator c = false -> startsWith (String c s) CRLF = false.
Proof.
  intros H. unfold CRLF. cbn [startsWith]. rewrite (not_CR c H). reflexivity.
Qed.

(** Reading a line that has no line break, up to the separator or the end
    of the text. *)
Lemma splitFrom_line (line rest cur : string) :
  noLineBreak line = true ->
  splitFrom CRLF (line ++ CRLF ++ rest) 0 cur
  = (revOnto (revOnto line cur) "" :: splitFrom CRLF rest 0 "")%list /\
  splitFrom CRLF line 0 cur = [revOnto (revOnto line cur) ""]%list.
Proof.
  revert cur. induction line as [|c line IH]; intros cur H.
  - split; [|reflexivity]. destruct rest; reflexivity.
  - unfold noLineBreak in H. cbn [allChars] in H. apply andb_true_iff in H.
    destruct H as [Hc H]. apply negb_true_iff in Hc.
    destruct (IH (String c cur) H) as [I1 I2].
    cbn [append splitFrom revOnto].
    rewrite !(no_separator_here c) by exact Hc. split; [exact I1 | exact I2].
Qed.

Lemma split_join (lines : list string) :
  lines <> []%list ->
  Forall (fun line => noLineBreak line = true) lines ->
  split (join CRLF lines) CRLF = lines.
Proof.
  unfold split. induction lines as [|x lines IH]; intros Hne H; [contradiction|].
  inversion H as [|? ? Hx Hl]; subst.
  destruct lines as [|y lines].
  - cbn [join]. destruct (splitFrom_line x "" "" Hx) as [_ ->].
    rewrite revOnto_revOnto. cbn [revOnto].
    replace (x ++ "") with x; [reflexivity|].
    clear. induction x as [|c x IH]; [reflexivity | cbn; rewrite <- IH; reflexivity].
  - change (join CRLF (x :: y :: lines)) with (x ++ CRLF ++ join CRLF (y :: lines)).
    destruct (splitFrom_line x (join CRLF (y :: lines)) "" Hx) as [-> _].
    rewrite revOnto_revOnto. cbn [revOnto].
    replace (x ++ "") with x
      by (clear; induction x as [|c x IH]; [reflexivity | cbn; rewrite <- IH; reflexivity]).
    f_equal. apply IH; [discriminate | exact Hl].
Qed.

(** Line breaks in what the lines are made of. *)
Lemma noLineBreak_app (a b : string) :
  noLineBreak (a ++ b) = noLineBreak a && noLineBreak b.
Proof. apply allChars_app. Qed.

Lemma allChars_removeChars (p class : ascii -> bool) (s : string) :
  allChars p s = true -> allChars p (removeChars class s) = true.
Proof.
  induction s as [|c s IH]; [reflexivity|].
  cbn [allChars removeChars]. rewrite andb_true_iff. intros [Hc Hs].
  destruct (class c); [apply IH; exact Hs|].
  cbn [allChars]. rewrite Hc, (IH Hs). reflexivity.
Qed.

Lemma allChars_beforeT (p : ascii -> bool) (s : string) :
  allChars p s = true -> allChars p (beforeT s) = true.
Proof.
  induction s as [|c s IH]; [reflexivity|].
  cbn [allChars beforeT]. rewrite andb_true_iff. intros [Hc Hs].
  destruct (Ascii.eqb c "T"); [reflexivity|].
  cbn [allChars]. rewrite Hc, (IH Hs). reflexivity.
Qed.

Lemma allChars_take (p : ascii -> bool) (n : nat) (s : string) :
  allChars p s = true -> allChars p (take n s) = true.
Proof.
  revert s. induction n as [|n IH]; intros [|c s]; try reflexivity.
  cbn [allChars take]. rewrite andb_true_iff. intros [Hc Hs].
  rewrite Hc, (IH s Hs). reflexivity.
Qed.

Lemma noLineBreak_digitChar (n : Z) :
  isLineTerminator (digitChar (n mod 10)) = false.
Proof.
  assert (H : n mod 10 = 0 \/ n mod 10 = 1 \/ n mod 10 = 2 \/ n mod 10 = 3
              \/ n mod 10 = 4 \/ n mod 10 = 5 \/ n mod 10 = 6 \/ n mod 10 = 7
              \/ n mod 10 = 8 \/ n mod 10 = 9)
    by (pose proof (Z.mod_pos_bound n 10 ltac:(lia)); lia).
  repeat (destruct H as [-> | H]); try rewrite H; reflexivity.
Qed.

Lemma noLineBreak_padDigits (k : nat) (n : Z) : noLineBreak (padDigits k n) = true.
Proof.
  revert n. induction k as [|k IH]; intros n; [reflexivity|].
  cbn [padDigits]. rewrite noLineBreak_app, IH.
  unfold noLineBreak. cbn [allChars]. rewrite noLineBreak_digitChar. reflexivity.
Qed.

Lemma noLineBreak_isoDay (d : Z) : noLineBreak (isoDay d) = true.
Proof.
  unfold isoDay, isoYear.
  rewrite !noLineBreak_app, !noLineBreak_padDigits.
  destruct ((0 <=? _) && (_ <=? 9999)).
  - rewrite noLineBreak_padDigits. reflexivity.
  - rewrite noLineBreak_app, noLineBreak_padDigits. destruct (_ <? 0); reflexivity.
Qed.

Lemma noLineBreak_isoString (t : Z) : noLineBreak (isoString t) = true.
Proof.
  unfold isoString.
  rewrite !noLineBreak_app, noLineBreak_isoDay, !noLineBreak_padDigits.
  reflexivity.
Qed.

Lemma noLineBreak_base36 (digits : list Z) : noLineBreak (base36 digits) = true.
Proof.
  induction digits as [|d digits IH]; [reflexivity|].
  unfold noLineBreak in *. cbn [base36 allChars]. rewrite IH, andb_true_r.
  pose proof (Z.mod_pos_bound d 36 ltac:(lia)) as B.
  assert (K : forallb (fun i => negb (isLineTerminator (base36Char (Z.of_nat i))))
                      (seq 0 36) = true) by (vm_compute; reflexivity).
  rewrite forallb_forall in K.
  specialize (K (Z.to_nat (d mod 36))). rewrite Z2Nat.id in K by lia.
  apply K. apply in_seq. lia.
Qed.

Lemma veventLines_noLineBreak (o : Oracle) (k : nat) (event : Event) :
  breakFree event = true ->
  Forall (fun line => noLineBreak line = true)
         (veventLines (randomToken o k) (clockAt o k) event).
Proof.
  unfold breakFree. rewrite !andb_true_iff.
  intros (((((Hn & Hu) & Hs) & He) & Hm) & Hl).
  unfold veventLines, icsDate, icsStamp, randomToken.
  repeat constructor; rewrite ?noLineBreak_app, ?andb_true_iff;
    repeat split; try reflexivity; try assumption;
    unfold noLineBreak in *;
    try (apply allChars_removeChars; assumption);
    try (apply allChars_take; apply noLineBreak_base36);
    try (apply allChars_beforeT, allChars_removeChars, noLineBreak_isoString).
Qed.

Lemma icsContent_noLineBreak (o : Oracle) (events : list Event) :
  Forall (fun e => breakFree e = true) events ->
  Forall (fun line => noLineBreak line = true) (icsContent o events).
Proof.
  intros H. unfold icsContent. apply Forall_app. split; [repeat constructor|].
  apply Forall_app. split; [|repeat constructor].
  generalize 0%nat. induction H as [|e events He _ IH]; intros k; [constructor|].
  cbn [veventsFrom]. destruct (dated e); [|apply IH].
  apply Forall_app. split; [apply veventLines_noLineBreak; exact He | apply IH].
Qed.

(** The events of a run have no line break in any field. *)
Lemma resolvedEvents_breakFree (env : Ambient) (year : Z) (text : string)
      (e : Event) :
  In e (resolvedEvents env year (extractEntries text)) ->
  breakFree e = true /\ dated e = true.
Proof.
  assert (G : forall entries,
             (forall en, In en entries -> In en (extractEntries text)) ->
             In e (resolvedEvents env year entries) ->
             breakFree e = true /\ dated e = true).
  { induction entries as [|en entries IH]; intros Hsub; [intros []|].
    cbn [resolvedEvents].
    assert (Hrest : forall x, In x entries -> In x (extractEntries text))
      by (intros x Hx; apply Hsub; right; exact Hx).
    destruct (parseDate_cases env (entry_date en) (Some year))
      as [E | [E | (f & a & E)]]; rewrite E; cbn [unresolved resolved];
      try (apply IH; exact Hrest).
    intros [<- | Hin]; [|apply IH; assumption].
    destruct (extractEntries_In text en (Hsub en (or_introl eq_refl)))
      as (_ & _ & _ & _ & _ & Hn & Hu & _ & Hm & Hl & _).
    unfold breakFree, dated, eventOf.
    cbn [name url ev_startDate ev_endDate mode location].
    rewrite Hn, Hu, Hm, Hl, !noLineBreak_isoDay, !truthy_isoDay. split; reflexivity. }
  apply G. auto.
Qed.

(** *** The dates of the calendar *)

Lemma removeChars_app (class : ascii -> bool) (a b : string) :
  removeChars class (a ++ b) = removeChars class a ++ removeChars class b.
Proof.
  induction a as [|c a IH]; [reflexivity|].
  cbn [append removeChars]. destruct (class c); rewrite IH; reflexivity.
Qed.

Lemma digitChar_kept (n : Z) :
  isHyphen (digitChar (n mod 10)) = false /\
  isStampPunct (digitChar (n mod 10)) = false.
Proof.
  assert (H : n mod 10 = 0 \/ n mod 10 = 1 \/ n mod 10 = 2 \/ n mod 10 = 3
              \/ n mod 10 = 4 \/ n mod 10 = 5 \/ n mod 10 = 6 \/ n mod 10 = 7
              \/ n mod 10 = 8 \/ n mod 10 = 9)
    by (pose proof (Z.mod_pos_bound n 10 ltac:(lia)); lia).
  repeat (destruct H as [-> | H]); try rewrite H; split; reflexivity.
Qed.

Lemma removeChars_padDigits (k : nat) (n : Z) :
  removeChars isHyphen (padDigits k n) = padDigits k n /\
  removeChars isStampPunct (padDigits k n) = padDigits k n.
Proof.
  revert n. induction k as [|k IH]; intros n; [split; reflexivity|].
  cbn [padDigits]. rewrite !removeChars_app. destruct (IH (n / 10)) as [-> ->].
  cbn [removeChars]. destruct (digitChar_kept n) as [-> ->]. split; reflexivity.
Qed.

Lemma isoDay_fourDigit (d : Z) :
  fourDigitYear d ->
  isoDay d = padDigits 4 (YearFromDay d) ++ "-"
             ++ padDigits 2 (MonthFromTime (d * msPerDay) + 1) ++ "-"
             ++ padDigits 2 (DateFromTime (d * msPerDay)).
Proof.
  unfold fourDigitYear. intros H. unfold isoDay, isoYear.
  destruct (fields_of_midnight d) as (-> & _).
  replace ((0 <=? YearFromDay d) && (YearFromDay d <=? 9999)) with true
    by (symmetry; apply andb_true_iff; split; apply Z.leb_le; lia).
  reflexivity.
Qed.

(** ** The first lines of [parseDate] *)

Lemma isOrdinalSuffix_inv (s : string) :
  isOrdinalSuffix s = true ->
  exists c1 c2 s'', s = String c1 (String c2 s'') /\
                    isDigit c1 = false /\ isDigit c2 = false.
Proof.
  unfold isOrdinalSuffix. rewrite !orb_true_iff.
  intros [[[H | H] | H] | H]; apply startsWith_spec in H;
    destruct H as [post ->]; eexists; eexists; exists post;
    repeat split; reflexivity.
Qed.

Lemma stripFrom_keeps_digits (n : nat) :
  forall (s : string) (b : bool),
    (String.length s <= n)%nat ->
    digitsOf (stripFrom b s) = digitsOf s /\
    (String.length (stripFrom b s) <= String.length s)%nat.
Proof.
  induction n as [|n IH]; intros s b Hn.
  - destruct s; [split; [reflexivity | apply le_n] | cbn in Hn; lia].
  - destruct s as [|c s]; [split; [reflexivity | apply le_n]|].
    cbn [stripFrom].
    destruct (b && isOrdinalSuffix (String c s)) eqn:E.
    + apply andb_true_iff in E. destruct E as [_ E].
      apply isOrdinalSuffix_inv in E.
      destruct E as (c1 & c2 & s'' & E & D1 & D2).
      injection E as -> ->. cbn [digitsOf String.length]. rewrite D1, D2.
      destruct (IH s'' false) as [H1 H2]; [cbn in Hn; lia|].
      split; [exact H1 | lia].
    + cbn [digitsOf String.length].
      destruct (IH s (isDigit c)) as [H1 H2]; [cbn in Hn; lia|].
      rewrite H1. split; [reflexivity | lia].
Qed.

Lemma stripFrom_without_digits (s : string) :
  digitsOf s = "" -> stripFrom false s = s.
Proof.
  induction s as [|c s IH]; [reflexivity|].
  cbn [digitsOf stripFrom andb]. destruct (isDigit c); [discriminate|].
  intros H. rewrite (IH H). reflexivity.
Qed.

(** *** The numbers a phrase is read as *)

Lemma parseDigits_nonneg (s : string) (acc : Z) : 0 <= acc -> 0 <= parseDigits acc s.
Proof.
  revert acc. induction s as [|c s IH]; intros acc H; [exact H|].
  cbn [parseDigits]. destruct (isDigit c) eqn:E; [|exact H].
  apply IH. apply isDigit_code in E. lia.
Qed.

Lemma fourDigitsHere_value (s y : string) :
  fourDigitsHere s = Some y -> 0 <= parseInt y <= 9999.
Proof.
  unfold fourDigitsHere.
  destruct s as [|a [|b [|c [|d rest]]]]; try discriminate.
  destruct (isDigit a) eqn:Ha; [|discriminate].
  destruct (isDigit b) eqn:Hb; [|discriminate].
  destruct (isDigit c) eqn:Hc; [|discriminate].
  destruct (isDigit d) eqn:Hd; [|discriminate].
  cbn [andb]. destruct (match rest with "" => true | String e _ => _ end);
    [|discriminate].
  intros [= <-]. unfold parseInt. cbn [parseDigits]. rewrite Ha, Hb, Hc, Hd.
  apply isDigit_code in Ha, Hb, Hc, Hd. lia.
Qed.

Lemma matchYearFrom_value (s y : string) (b : bool) :
  matchYearFrom b s = Some y -> 0 <= parseInt y <= 9999.
Proof.
  revert b. induction s as [|c s IH]; intros b; [discriminate|].
  cbn [matchYearFrom].
  destruct (if b then None else fourDigitsHere (String c s)) as [y'|] eqn:E.
  - intros [= <-]. destruct b; [discriminate|].
    apply (fourDigitsHere_value _ _ E).
  - apply IH.
Qed.

Lemma yearOverride_year (s s' : string) (Y y : Z) :
  yearOverride s Y = (y, s') -> y = Y \/ 0 <= y <= 9999.
Proof.
  unfold yearOverride. destruct (matchYear s) as [y4|] eqn:E.
  - intros [= <- _]. right. apply (matchYearFrom_value s y4 false E).
  - intros [= <- _]. left. reflexivity.
Qed.

Lemma lookup_monthMap_range (k : string) (n : Z) :
  lookup monthMap k = Some n -> 1 <= n <= 12.
Proof.
  intros H. apply lookup_monthMap_inv in H.
  repeat (destruct H as [[_ ->] | H]); try destruct H as [_ ->]; lia.
Qed.

(** What [reading] can hold. *)
Lemma reading_range (s : string) (Y : Z) :
  match reading s Y with
  | SingleOf y m d => (y = Y \/ 0 <= y <= 9999) /\ 1 <= m <= 12 /\ 0 <= d
  | RangeOf y ms me sd ed =>
      (y = Y \/ 0 <= y <= 9999) /\ 1 <= ms <= 12 /\ 1 <= me <= 12
      /\ 0 <= sd /\ 0 <= ed
  | _ => True
  end.
Proof.
  unfold reading.
  destruct (includes _ "not announced yet"); [exact I|].
  destruct (yearOverride (stripOrdinals s) Y) as [y s'] eqn:Ey.
  apply yearOverride_year in Ey.
  destruct (includes s' " - " || includes s' " to ").
  - destruct (rangeFields s') as [[[[sm em] sd] ed]|]; [|exact I].
    destruct (lookup monthMap sm) as [ms|] eqn:Es; [|exact I].
    destruct (lookup monthMap em) as [me|] eqn:Ee; [|exact I].
    apply lookup_monthMap_range in Es, Ee.
    repeat split; try lia; try exact Ey;
      apply parseDigits_nonneg; lia.
  - destruct (singleFields s') as [[month day]|]; [|exact I].
    destruct (lookup monthMap month) as [m|] eqn:Em; [|exact I].
    apply lookup_monthMap_range in Em.
    repeat split; try lia; try exact Ey. apply parseDigits_nonneg. lia.
Qed.

(** ** Dates as written *)

Lemma leapDay_range (y : Z) : 0 <= leapDay y <= 1.
Proof. unfold leapDay. destruct (isLeap y); lia. Qed.

Lemma monthStart_next (leap m : Z) :
  0 <= leap <= 1 -> 1 <= m <= 12 ->
  0 <= monthStart leap (m - 1) /\
  monthStart leap (m - 1) + 28 <= monthStart leap m <= monthStart leap (m - 1) + 31 /\
  monthStart leap m <= 365 + leap.
Proof.
  intros Hl Hm.
  assert (H : m = 1 \/ m = 2 \/ m = 3 \/ m = 4 \/ m = 5 \/ m = 6 \/ m = 7
              \/ m = 8 \/ m = 9 \/ m = 10 \/ m = 11 \/ m = 12) by lia.
  repeat (destruct H as [-> | H]); try subst m;
    simpl (_ - 1); cbn [monthStart]; lia.
Qed.

Lemma monthOfYearDay_unique (leap m dwy : Z) :
  0 <= leap <= 1 -> 1 <= m <= 12 ->
  monthStart leap (m - 1) <= dwy < monthStart leap m ->
  monthOfYearDay leap dwy = m - 1.
Proof.
  intros Hl Hm.
  assert (H : m = 1 \/ m = 2 \/ m = 3 \/ m = 4 \/ m = 5 \/ m = 6 \/ m = 7
              \/ m = 8 \/ m = 9 \/ m = 10 \/ m = 11 \/ m = 12) by lia.
  repeat (destruct H as [-> | H]); try subst m;
    simpl (_ - 1); cbn [monthStart]; intros Hd;
    unfold monthOfYearDay;
    repeat match goal with
           | |- context [if ?a <? ?b then _ else _] => destruct (Z.ltb_spec a b)
           end; lia.
Qed.

(** Year, month and day of a calendar date come back from its day
    number. *)
Lemma civil_fields (y m d : Z) :
  1 <= m <= 12 -> 1 <= d <= daysInMonth y m ->
  YearFromDay (dayNumber y m d) = y /\
  MonthFromTime (dayNumber y m d * msPerDay) = m - 1 /\
  DateFromTime (dayNumber y m d * msPerDay) = d.
Proof.
  intros Hm Hd. unfold daysInMonth in Hd.
  pose proof (monthStart_next (leapDay y) m (leapDay_range y) Hm) as (S0 & S1 & S2).
  assert (HY : YearFromDay (dayNumber y m d) = y).
  { apply YearFromDay_unique. rewrite DayFromYear_step. unfold dayNumber, DaysInYear.
    unfold leapDay in *. destruct (isLeap y); lia. }
  destruct (fields_of_midnight (dayNumber y m d)) as (F1 & F2 & F3).
  rewrite HY in F2, F3.
  assert (HM : MonthFromTime (dayNumber y m d * msPerDay) = m - 1).
  { unfold MonthFromTime. rewrite F2, F3.
    apply monthOfYearDay_unique; [apply leapDay_range | exact Hm|].
    unfold dayNumber. lia. }
  split; [exact HY|]. split; [exact HM|].
  unfold DateFromTime. rewrite HM, F2, F3. unfold dayNumber. lia.
Qed.

Lemma isoDay_civil (y m d : Z) :
  0 <= y <= 9999 -> 1 <= m <= 12 -> 1 <= d <= daysInMonth y m ->
  isoDay (dayNumber y m d) = civil y m d.
Proof.
  intros Hy Hm Hd. destruct (civil_fields y m d Hm Hd) as (F1 & F2 & F3).
  rewrite isoDay_fourDigit by (unfold fourDigitYear; lia).
  rewrite F1, F2, F3. unfold civil. repeat f_equal. lia.
Qed.

Lemma daysInMonth_range (y m : Z) : 1 <= m <= 12 -> 28 <= daysInMonth y m <= 31.
Proof.
  intros Hm. unfold daysInMonth.
  pose proof (monthStart_next (leapDay y) m (leapDay_range y) Hm). lia.
Qed.

Lemma isoDay_civilNext (y m d : Z) :
  0 <= y <= 9998 -> 1 <= m <= 12 -> 1 <= d <= daysInMonth y m ->
  isoDay (dayNumber y m d + 1) = civilNext y m d.
Proof.
  intros Hy Hm Hd. unfold civilNext.
  destruct (Z.ltb_spec d (daysInMonth y m)) as [L|L].
  - rewrite <- isoDay_civil by lia. f_equal. unfold dayNumber. lia.
  - destruct (Z.ltb_spec m 12) as [M|M].
    + pose proof (daysInMonth_range y (m + 1) ltac:(lia)).
      rewrite <- isoDay_civil by lia. f_equal.
      unfold dayNumber, daysInMonth in *.
      replace (m + 1 - 1) with m by lia. lia.
    + assert (m = 12) by lia. subst m.
      pose proof (daysInMonth_range (y + 1) 1 ltac:(lia)).
      rewrite <- isoDay_civil by lia. f_equal.
      unfold dayNumber, daysInMonth in *. rewrite DayFromYear_step.
      unfold DaysInYear, leapDay in *. simpl (_ - 1) in *.
      cbn [monthStart] in *. destruct (isLeap y), (isLeap (y + 1)); lia.
Qed.

Lemma DayFromYear_bounds (y : Z) :
  -1000000 <= y <= 1000000 -> -366000000 <= DayFromYear y <= 366000000.
Proof. intros H. unfold DayFromYear. Z.div_mod_to_equations. lia. Qed.

Lemma DayFromYear_small (y : Z) :
  -200001 <= y <= 200001 -> -74000000 <= DayFromYear y <= 74000000.
Proof. intros H. unfold DayFromYear. Z.div_mod_to_equations. lia. Qed.

(** [new Date(y, m - 1, d)] on the runner, for a year from 100 on. *)
Lemma newDate_dayNumber (y m d : Z) :
  100 <= y <= 200000 -> 1 <= m <= 12 -> 0 <= d <= 10000000 ->
  newDate 0 y (m - 1) d = midnight (dayNumber y m d).
Proof.
  intros Hy Hm Hd. unfold newDate, MakeFullYear.
  replace ((0 <=? y) && (y <=? 99)) with false
    by (symmetry; apply andb_false_iff; right; apply Z.leb_gt; lia).
  rewrite MakeDay_in_range by (unfold kMaxYear; lia).
  fold (leapDay y). fold (dayNumber y m d).
  unfold UTC, MakeDate, midnight.
  replace (dayNumber y m d * msPerDay + 0 - 0) with (dayNumber y m d * msPerDay) by lia.
  apply TimeClip_valid.
  pose proof (DayFromYear_small y ltac:(lia)).
  pose proof (monthStart_range (leapDay y) (m - 1) (leapDay_range y) ltac:(lia)).
  pose proof (leapDay_range y).
  unfold dayNumber, maxTime, msPerDay. lia.
Qed.

Lemma MakeFullYear_small (y : Z) :
  -200000 <= y <= 200000 -> -200000 <= MakeFullYear y <= 200000.
Proof.
  intros H. unfold MakeFullYear.
  destruct ((0 <=? y) && (y <=? 99)) eqn:E; [|exact H].
  apply andb_true_iff in E. destruct E as [E1 E2].
  apply Z.leb_le in E1, E2. lia.
Qed.

Lemma dayNumber_bound (y m d : Z) :
  -200001 <= y <= 200001 -> 1 <= m <= 12 -> 0 <= d <= 10000000 ->
  -85000000 <= dayNumber y m d <= 85000000.
Proof.
  intros Hy Hm Hd.
  pose proof (DayFromYear_small y Hy).
  pose proof (monthStart_range (leapDay y) (m - 1) (leapDay_range y) ltac:(lia)).
  pose proof (leapDay_range y). unfold dayNumber. lia.
Qed.

Lemma midnight_valid (D : Z) :
  -85000000 <= D <= 85000000 ->
  TimeClip (D * msPerDay) = midnight D /\
  (D * msPerDay + msPerDay <=? maxTime) = true.
Proof.
  intros H. split.
  - apply TimeClip_valid. unfold maxTime, msPerDay. lia.
  - apply Z.leb_le. unfold maxTime, msPerDay. lia.
Qed.

(** [new Date(y, m - 1, d)] on the runner. *)
Lemma newDate_runner (y m d : Z) :
  -200000 <= y <= 200000 -> 1 <= m <= 12 -> 0 <= d <= 10000000 ->
  newDate 0 y (m - 1) d = midnight (dayNumber (MakeFullYear y) m d).
Proof.
  intros Hy Hm Hd. pose proof (MakeFullYear_small y Hy) as Hf. unfold newDate.
  rewrite MakeDay_in_range by (unfold kMaxYear; lia).
  fold (leapDay (MakeFullYear y)). fold (dayNumber (MakeFullYear y) m d).
  unfold UTC, MakeDate.
  replace (dayNumber (MakeFullYear y) m d * msPerDay + 0 - 0)
    with (dayNumber (MakeFullYear y) m d * msPerDay) by lia.
  apply midnight_valid. apply dayNumber_bound; lia.
Qed.

(** [d.setFullYear(y')] on the runner: the month and the day of the month
    are kept. *)
Lemma setFullYear_runner (D y' : Z) :
  -200001 <= y' <= 200001 ->
  setFullYear 0 (midnight D) y'
  = midnight (dayNumber y' (MonthFromTime (D * msPerDay) + 1)
                        (DateFromTime (D * msPerDay))).
Proof.
  intros Hy. unfold setFullYear, midnight, LocalTime.
  replace (D * msPerDay + 0) with (D * msPerDay) by lia.
  pose proof (MonthFromTime_range (D * msPerDay)) as Hm.
  pose proof (DateFromTime_range (D * msPerDay)) as Hd.
  rewrite MakeDay_in_range by (unfold kMaxYear; lia).
  rewrite TimeWithinDay_midnight. unfold UTC, MakeDate.
  fold (leapDay y'). unfold dayNumber.
  replace (MonthFromTime (D * msPerDay) + 1 - 1)
    with (MonthFromTime (D * msPerDay)) by lia.
  match goal with
  | |- TimeClip ?t = _ =>
      replace t with ((DayFromYear y'
                       + monthStart (leapDay y') (MonthFromTime (D * msPerDay))
                       + DateFromTime (D * msPerDay) - 1) * msPerDay) by lia
  end.
  apply midnight_valid.
  pose proof (DayFromYear_small y' Hy).
  pose proof (monthStart_range (leapDay y') (MonthFromTime (D * msPerDay))
                (leapDay_range y') Hm).
  pose proof (leapDay_range y'). lia.
Qed.

Lemma MakeFullYear_from_100 (y : Z) : 100 <= y -> MakeFullYear y = y.
Proof.
  intros H. unfold MakeFullYear.
  replace ((0 <=? y) && (y <=? 99)) with false; [reflexivity|].
  symmetry. apply andb_false_iff. right. apply Z.leb_gt. lia.
Qed.

Lemma monthStart_mono (leap a b : Z) :
  0 <= leap <= 1 -> 0 <= a <= b -> b <= 12 ->
  monthStart leap a <= monthStart leap b.
Proof.
  intros Hl Ha Hb.
  assert (A : a = 0 \/ a = 1 \/ a = 2 \/ a = 3 \/ a = 4 \/ a = 5 \/ a = 6 \/ a = 7
              \/ a = 8 \/ a = 9 \/ a = 10 \/ a = 11 \/ a = 12) by lia.
  assert (B : b = 0 \/ b = 1 \/ b = 2 \/ b = 3 \/ b = 4 \/ b = 5 \/ b = 6 \/ b = 7
              \/ b = 8 \/ b = 9 \/ b = 10 \/ b = 11 \/ b = 12) by lia.
  repeat (destruct A as [-> | A]); try subst a;
    repeat (destruct B as [-> | B]); try subst b;
    cbn [monthStart]; lia.
Qed.

(** ** The time zone of the host *)



Lemma TimeClip_shift (D tza t : Z) :
  Z.abs tza < msPerDay ->
  TimeClip (D * msPerDay - tza) = Some t ->
  t = D * msPerDay - tza /\ TimeClip (D * msPerDay) = midnight D.
Proof.
  intros Hz H. apply TimeClip_Some in H. destruct H as [-> H].
  split; [reflexivity|]. apply TimeClip_valid.
  unfold maxTime, msPerDay in *. lia.
Qed.


Lemma setFullYear_shift (tza D y' t : Z) :
  Z.abs tza < msPerDay ->
  setFullYear tza (Some (D * msPerDay - tza)) y' = Some t ->
  exists D', t = D' * msPerDay - tza /\ setFullYear 0 (midnight D) y' = midnight D'.
Proof.
  intros Hz. unfold setFullYear, midnight, LocalTime.
  replace (D * msPerDay - tza + tza) with (D * msPerDay) by lia.
  replace (D * msPerDay + 0) with (D * msPerDay) by lia.
  destruct (MakeDay y' _ _) as [D'|]; [|discriminate].
  rewrite TimeWithinDay_midnight. unfold UTC, MakeDate. intros H.
  replace (D' * msPerDay + 0 - tza) with (D' * msPerDay - tza) in H by lia.
  destruct (TimeClip_shift D' tza t Hz H) as [-> H'].
  exists D'. split; [reflexivity|].
  replace (D' * msPerDay + 0 - 0) with (D' * msPerDay) by lia. exact H'.
Qed.


(** ** Local midnights on a host *)

Lemma westOrUTC_offset (env : Ambient) :
  westOrUTC env -> Z.abs (LocalTZA env) < msPerDay.
Proof. unfold westOrUTC. lia. Qed.

Lemma Day_localMidnight (env : Ambient) (D : Z) :
  westOrUTC env -> Day (D * msPerDay - LocalTZA env) = D.
Proof.
  intros H. apply Day_unique. unfold westOrUTC in H. lia.
Qed.

Lemma ltb_localMidnight (env : Ambient) (a b : Z) :
  JSDate.ltb (localMidnight env a) (localMidnight env b) = (a <? b).
Proof.
  unfold JSDate.ltb, localMidnight.
  destruct (Z.ltb_spec (a * msPerDay - LocalTZA env) (b * msPerDay - LocalTZA env));
    destruct (Z.ltb_spec a b); unfold msPerDay in *; lia.
Qed.

Lemma getFullYear_localMidnight (env : Ambient) (D : Z) :
  getFullYear (LocalTZA env) (localMidnight env D) = Some (YearFromDay D).
Proof.
  unfold getFullYear, localMidnight, LocalTime, YearFromTime.
  replace (D * msPerDay - LocalTZA env + LocalTZA env) with (D * msPerDay) by lia.
  rewrite Day_midnight. reflexivity.
Qed.

Lemma localMidnight_valid (env : Ambient) (D : Z) :
  Z.abs (LocalTZA env) < msPerDay ->
  -85000000 <= D <= 85000000 ->
  TimeClip (D * msPerDay - LocalTZA env) = localMidnight env D /\
  (D * msPerDay - LocalTZA env + msPerDay <=? maxTime) = true.
Proof.
  intros Hz H. split.
  - apply TimeClip_valid. unfold maxTime, msPerDay in *. lia.
  - apply Z.leb_le. unfold maxTime, msPerDay in *. lia.
Qed.

(** [new Date(y, m - 1, d)] on any host. *)
Lemma newDate_host (env : Ambient) (y m d : Z) :
  Z.abs (LocalTZA env) < msPerDay ->
  -200000 <= y <= 200000 -> 1 <= m <= 12 -> 0 <= d <= 10000000 ->
  newDate (LocalTZA env) y (m - 1) d
  = localMidnight env (dayNumber (MakeFullYear y) m d).
Proof.
  intros Hz Hy Hm Hd. pose proof (MakeFullYear_small y Hy) as Hf. unfold newDate.
  rewrite MakeDay_in_range by (unfold kMaxYear; lia).
  fold (leapDay (MakeFullYear y)). fold (dayNumber (MakeFullYear y) m d).
  unfold UTC, MakeDate.
  replace (dayNumber (MakeFullYear y) m d * msPerDay + 0 - LocalTZA env)
    with (dayNumber (MakeFullYear y) m d * msPerDay - LocalTZA env) by lia.
  apply localMidnight_valid; [exact Hz|]. apply dayNumber_bound; lia.
Qed.

(** [d.setFullYear(y')] on any host: the month and the day of the month
    are kept. *)
Lemma setFullYear_host (env : Ambient) (D y' : Z) :
  Z.abs (LocalTZA env) < msPerDay ->
  -200001 <= y' <= 200001 ->
  setFullYear (LocalTZA env) (localMidnight env D) y'
  = localMidnight env (dayNumber y' (MonthFromTime (D * msPerDay) + 1)
                                 (DateFromTime (D * msPerDay))).
Proof.
  intros Hz Hy. unfold setFullYear, LocalTime.
  change (localMidnight env D) with (Some (D * msPerDay - LocalTZA env)).
  cbv beta iota zeta.
  replace (D * msPerDay - LocalTZA env + LocalTZA env) with (D * msPerDay) by lia.
  pose proof (MonthFromTime_range (D * msPerDay)) as Hm.
  pose proof (DateFromTime_range (D * msPerDay)) as Hd.
  rewrite MakeDay_in_range by (unfold kMaxYear; lia).
  rewrite TimeWithinDay_midnight. unfold UTC, MakeDate.
  fold (leapDay y'). unfold dayNumber.
  replace (MonthFromTime (D * msPerDay) + 1 - 1)
    with (MonthFromTime (D * msPerDay)) by lia.
  match goal with
  | |- TimeClip ?t = _ =>
      replace t with ((DayFromYear y'
                       + monthStart (leapDay y') (MonthFromTime (D * msPerDay))
                       + DateFromTime (D * msPerDay) - 1) * msPerDay
                      - LocalTZA env) by lia
  end.
  apply localMidnight_valid; [exact Hz|].
  pose proof (DayFromYear_small y' Hy).
  pose proof (monthStart_range (leapDay y') (MonthFromTime (D * msPerDay))
                (leapDay_range y') Hm).
  pose proof (leapDay_range y'). lia.
Qed.

(** A single day, on a host at UTC or west of it: the day counted from
    the first of the month, and the day after. *)
Lemma emitSingle_west (env : Ambient) (y m d : Z) :
  westOrUTC env ->
  -200000 <= y <= 200000 -> 1 <= m <= 12 -> 0 <= d <= 10000000 ->
  emitSingle env y m d
  = Return (resolved (isoDay (dayNumber (MakeFullYear y) m d))
                     (isoDay (dayNumber (MakeFullYear y) m d + 1))).
Proof.
  intros Hw Hy Hm Hd. pose proof (westOrUTC_offset env Hw) as Hz.
  pose proof (MakeFullYear_small y Hy) as Hf.
  rewrite emitSingle_eq by lia.
  rewrite newDate_host by assumption. unfold localMidnight.
  destruct (localMidnight_valid env (dayNumber (MakeFullYear y) m d) Hz) as [_ ->];
    [apply dayNumber_bound; lia|].
  rewrite Day_localMidnight by exact Hw. reflexivity.
Qed.

(** The end of a range after the rollover, as a day number. *)
Lemma rolledEnd_host (env : Ambient) (y ms me sd ed : Z) :
  Z.abs (LocalTZA env) < msPerDay ->
  -200000 <= y <= 200000 -> 1 <= ms <= 12 -> 1 <= me <= 12 ->
  0 <= sd <= 10000000 -> 0 <= ed <= 10000000 ->
  constructedStart env y ms sd = localMidnight env (dayNumber (MakeFullYear y) ms sd) /\
  constructedEnd env y me ed = localMidnight env (dayNumber (MakeFullYear y) me ed) /\
  wraps env y ms me sd ed
  = (dayNumber (MakeFullYear y) me ed <? dayNumber (MakeFullYear y) ms sd) && (me <? ms) /\
  rolledEnd env y ms me sd ed
  = localMidnight env
      (if wraps env y ms me sd ed
       then dayNumber (y + 1)
              (MonthFromTime (dayNumber (MakeFullYear y) me ed * msPerDay) + 1)
              (DateFromTime (dayNumber (MakeFullYear y) me ed * msPerDay))
       else dayNumber (MakeFullYear y) me ed).
Proof.
  intros Hz Hy Hms Hme Hsd Hed.
  assert (ES : constructedStart env y ms sd
               = localMidnight env (dayNumber (MakeFullYear y) ms sd))
    by (unfold constructedStart; apply newDate_host; assumption).
  assert (EE : constructedEnd env y me ed
               = localMidnight env (dayNumber (MakeFullYear y) me ed))
    by (unfold constructedEnd; apply newDate_host; assumption).
  assert (EW : wraps env y ms me sd ed
               = (dayNumber (MakeFullYear y) me ed <? dayNumber (MakeFullYear y) ms sd)
                 && (me <? ms))
    by (unfold wraps; rewrite ES, EE, ltb_localMidnight; reflexivity).
  split; [exact ES|]. split; [exact EE|]. split; [exact EW|].
  unfold rolledEnd. destruct (wraps env y ms me sd ed); [|exact EE].
  rewrite EE. apply setFullYear_host; [exact Hz | lia].
Qed.

(** A range, on a host at UTC or west of it. *)
Lemma emitRange_west (env : Ambient) (y ms me sd ed : Z) :
  westOrUTC env ->
  -200000 <= y <= 200000 -> 1 <= ms <= 12 -> 1 <= me <= 12 ->
  0 <= sd <= 10000000 -> 0 <= ed <= 10000000 ->
  emitRange env y ms me sd ed
  = Return (resolved
              (isoDay (dayNumber (MakeFullYear y) ms sd))
              (isoDay ((if wraps env y ms me sd ed
                        then dayNumber (y + 1)
                               (MonthFromTime (dayNumber (MakeFullYear y) me ed * msPerDay) + 1)
                               (DateFromTime (dayNumber (MakeFullYear y) me ed * msPerDay))
                        else dayNumber (MakeFullYear y) me ed) + 1))).
Proof.
  intros Hw Hy Hms Hme Hsd Hed. pose proof (westOrUTC_offset env Hw) as Hz.
  pose proof (MakeFullYear_small y Hy) as Hf.
  destruct (rolledEnd_host env y ms me sd ed Hz Hy Hms Hme Hsd Hed)
    as (ES & _ & _ & ER).
  rewrite emitRange_eq by lia. rewrite ES, ER. unfold localMidnight.
  set (last := if wraps env y ms me sd ed then _ else _).
  assert (Hlast : -85000000 <= last <= 85000000).
  { subst last. destruct (wraps env y ms me sd ed).
    - pose proof (MonthFromTime_range (dayNumber (MakeFullYear y) me ed * msPerDay)).
      pose proof (DateFromTime_range (dayNumber (MakeFullYear y) me ed * msPerDay)).
      apply dayNumber_bound; lia.
    - apply dayNumber_bound; lia. }
  destruct (localMidnight_valid env last Hz Hlast) as [_ ->].
  rewrite !Day_localMidnight by exact Hw. reflexivity.
Qed.

(** ** Phrases described by their text *)

Lemma lookup_monthMap_inj (k1 k2 : string) (n : Z) :
  lookup monthMap k1 = Some n -> lookup monthMap k2 = Some n -> k1 = k2.
Proof.
  intros H1 H2. apply lookup_monthMap_inv in H1, H2.
  decompose [or and] H1; clear H1; subst;
    decompose [or and] H2; clear H2; subst; try reflexivity; lia.
Qed.

Lemma firstMentioned_firstMonth (s month : string) (m : Z) :
  firstMentioned s month m -> firstMonth s = Some month.
Proof.
  intros (Hl & Hm & Hmin).
  destruct (first_mention_wins s month m Hl Hm) as (m' & j & Hf & Hm' & Hl' & Hle).
  specialize (Hmin m' j Hl' Hm'). assert (j = m) by lia. subst j.
  rewrite Hf. f_equal. apply (lookup_monthMap_inj _ _ _ Hl' Hl).
Qed.

Lemma lastMentioned_fst (part other month : string) (m : Z) :
  lastMentioned part month m -> fst (monthsOfParts part other) = Some month.
Proof.
  intros (Hl & Hm & Hmax). rewrite monthsOfParts_fst.
  destruct (last_mention_wins part month m Hl Hm) as (m' & j & -> & Hm' & Hl' & Hle).
  specialize (Hmax m' j Hl' Hm'). assert (j = m) by lia. subst j.
  f_equal. apply (lookup_monthMap_inj _ _ _ Hl' Hl).
Qed.

Lemma lastMentioned_snd (part other month : string) (m : Z) :
  lastMentioned part month m -> snd (monthsOfParts other part) = Some month.
Proof.
  intros (Hl & Hm & Hmax). rewrite monthsOfParts_snd.
  destruct (last_mention_wins part month m Hl Hm) as (m' & j & -> & Hm' & Hl' & Hle).
  specialize (Hmax m' j Hl' Hm'). assert (j = m) by lia. subst j.
  f_equal. apply (lookup_monthMap_inj _ _ _ Hl' Hl).
Qed.

Lemma takeDigits_run (ds post : string) :
  allChars isDigit ds = true ->
  match post with
  | EmptyString => True
  | String c _ => isDigit c = false
  end ->
  takeDigits (ds ++ post) = ds.
Proof.
  intros Hds Hpost. induction ds as [|c ds IH].
  - destruct post as [|c post]; [reflexivity|]. cbn [append takeDigits].
    rewrite Hpost. reflexivity.
  - cbn [allChars] in Hds. apply andb_true_iff in Hds. destruct Hds as [Hc Hds].
    cbn [append takeDigits]. rewrite Hc, (IH Hds). reflexivity.
Qed.

(** The first run of digits is what [/(\d+)/] matches. *)
Lemma firstDigitRun_matchDigits (s ds : string) :
  firstDigitRun s ds -> matchDigits s = Some ds.
Proof.
  intros (pre & post & -> & Hpre & Hne & Hds & Hpost).
  induction pre as [|c pre IH].
  - destruct ds as [|c ds]; [contradiction|].
    pose proof (takeDigits_run (String c ds) post Hds Hpost) as Ht.
    cbn [allChars] in Hds. apply andb_true_iff in Hds. destruct Hds as [Hc _].
    cbn [append matchDigits] in *. rewrite Hc. f_equal. exact Ht.
  - cbn [allChars] in Hpre. apply andb_true_iff in Hpre. destruct Hpre as [Hc Hpre].
    apply negb_true_iff in Hc. cbn [append matchDigits]. rewrite Hc. apply IH, Hpre.
Qed.

Lemma not_includes (sub s : string) : ~ occursIn sub s -> includes s sub = false.
Proof.
  intros H. destruct (includes s sub) eqn:E; [|reflexivity].
  apply includes_occurs in E. contradiction.
Qed.

(** The reading of a single-day phrase. *)
Lemma singleDayPhrase_reading (s : string) (Y y : Z) (month : string) (m : Z)
      (ds : string) :
  singleDayPhrase s Y y month m ds -> reading s Y = SingleOf y m (parseInt ds).
Proof.
  intros (p & (Hn & Hy) & Hd & Ht & Hmonth & Hrun).
  unfold reading. rewrite (not_includes _ _ Hn), Hy.
  rewrite (not_includes _ _ Hd), (not_includes _ _ Ht). cbn [orb].
  unfold singleFields.
  rewrite (firstDigitRun_matchDigits _ _ Hrun), (firstMentioned_firstMonth _ _ _ Hmonth).
  destruct Hmonth as (-> & _). reflexivity.
Qed.

(** The fields of a range phrase, from the months found in its parts. *)
Lemma rangePhrase_reading (s : string) (Y y : Z) (p p0 p1 sd ed : string) :
  rangePhrase s Y y p p0 p1 sd ed ->
  reading s Y =
  match
    match fst (monthsOfParts (trim p0) (trim p1)) with
    | Some sm => Some sm
    | None => firstMonth p
    end
  with
  | Some sm =>
      let em := match snd (monthsOfParts (trim p0) (trim p1)) with
                | Some em => em
                | None => sm
                end in
      match lookup monthMap sm, lookup monthMap em with
      | Some ms, Some me => RangeOf y ms me (parseInt sd) (parseInt ed)
      | _, _ => UndefinedMonth
      end
  | None => Unreadable
  end.
Proof.
  intros ((Hn & Hy) & Hsep & Hsd & Hed).
  unfold reading. rewrite (not_includes _ _ Hn), Hy.
  assert (Hsplit : (includes p " - " || includes p " to " = true) /\
                   split p (if includes p " - " then " - " else " to ")
                   = [p0; p1]%list).
  { destruct Hsep as [[Hd Hs] | (Hd & Ht & Hs)].
    - apply includes_occurs in Hd. rewrite Hd. split; [reflexivity | exact Hs].
    - apply includes_occurs in Ht. rewrite (not_includes _ _ Hd), Ht.
      split; [reflexivity | exact Hs]. }
  destruct Hsplit as [-> Hsplit]. unfold rangeFields. rewrite Hsplit.
  rewrite (firstDigitRun_matchDigits _ _ Hsd), (firstDigitRun_matchDigits _ _ Hed).
  destruct (monthsOfParts (trim p0) (trim p1)) as [[a|] [b|]]; cbn [fst snd];
    try reflexivity;
    destruct (firstMonth p); reflexivity.
Qed.

(** The start month falls back on the whole phrase. *)
Lemma reading_fallback (s : string) (Y y : Z) (p p0 p1 sd ed : string)
      (month emonth : string) (m me : Z) :
  rangePhrase s Y y p p0 p1 sd ed ->
  noMonthIn (trim p0) -> firstMentioned p month m ->
  lastMentioned (trim p1) emonth me ->
  reading s Y = RangeOf y m me (parseInt sd) (parseInt ed).
Proof.
  intros Hr H0 Hf Hl. rewrite (rangePhrase_reading _ _ _ _ _ _ _ _ Hr).
  rewrite (no_mention_fst _ _ H0), (firstMentioned_firstMonth _ _ _ Hf).
  rewrite (lastMentioned_snd _ (trim p0) _ _ Hl). cbv zeta.
  destruct Hf as (-> & _). destruct Hl as (-> & _). reflexivity.
Qed.

(** The end month is the start month again. *)
Lemma reading_reuse (s : string) (Y y : Z) (p p0 p1 sd ed : string)
      (month : string) (m : Z) :
  rangePhrase s Y y p p0 p1 sd ed ->
  lastMentioned (trim p0) month m -> noMonthIn (trim p1) ->
  reading s Y = RangeOf y m m (parseInt sd) (parseInt ed).
Proof.
  intros Hr Hl H1. rewrite (rangePhrase_reading _ _ _ _ _ _ _ _ Hr).
  rewrite (lastMentioned_fst _ (trim p1) _ _ Hl), (no_mention_snd _ _ H1). cbv zeta.
  destruct Hl as (-> & _). reflexivity.
Qed.

(** ** Dates as written, on a host at UTC or west of it *)

Lemma emitSingle_as_written (env : Ambient) (y m d : Z) :
  westOrUTC env ->
  100 <= y <= 9998 -> 1 <= m <= 12 -> 1 <= d <= daysInMonth y m ->
  emitSingle env y m d = Return (resolved (civil y m d) (civilNext y m d)).
Proof.
  intros Hw Hy Hm Hd. pose proof (daysInMonth_range y m Hm) as Hdim.
  rewrite emitSingle_west by (try assumption; lia).
  rewrite MakeFullYear_from_100, isoDay_civil, isoDay_civilNext by lia.
  reflexivity.
Qed.

Lemma emitRange_as_written (env : Ambient) (y ms me sd ed : Z) :
  westOrUTC env ->
  100 <= y <= 9997 -> 1 <= ms <= 12 -> 1 <= me <= 12 ->
  1 <= sd <= daysInMonth y ms ->
  1 <= ed <= daysInMonth y me ->
  ed <= daysInMonth (if me <? ms then y + 1 else y) me ->
  emitRange env y ms me sd ed
  = Return (resolved (civil y ms sd)
                     (civilNext (if me <? ms then y + 1 else y) me ed)).
Proof.
  intros Hw Hy Hms Hme Hsd Hed Hed'.
  pose proof (westOrUTC_offset env Hw) as Hz.
  pose proof (daysInMonth_range y ms Hms) as Dms.
  pose proof (daysInMonth_range y me Hme) as Dme.
  rewrite emitRange_west by (try assumption; lia).
  destruct (rolledEnd_host env y ms me sd ed Hz) as (_ & _ & -> & _); try lia.
  rewrite MakeFullYear_from_100 by lia.
  assert (HW : (dayNumber y me ed <? dayNumber y ms sd) && (me <? ms) = (me <? ms)).
  { destruct (Z.ltb_spec me ms) as [L|L]; [|apply andb_false_r].
    rewrite andb_true_r. apply Z.ltb_lt.
    unfold dayNumber, daysInMonth in *.
    pose proof (monthStart_mono (leapDay y) me (ms - 1) (leapDay_range y)
                  ltac:(lia) ltac:(lia)). lia. }
  rewrite HW.
  destruct (civil_fields y me ed Hme Hed) as (_ & HM & HD).
  replace (if me <? ms
           then dayNumber (y + 1) (MonthFromTime (dayNumber y me ed * msPerDay) + 1)
                  (DateFromTime (dayNumber y me ed * msPerDay))
           else dayNumber y me ed)
    with (dayNumber (if me <? ms then y + 1 else y) me ed)
    by (rewrite HM, HD; replace (me - 1 + 1) with me by lia;
        destruct (me <? ms); reflexivity).
  set (y' := if me <? ms then y + 1 else y) in *.
  assert (Hy' : 100 <= y' <= 9998) by (subst y'; destruct (me <? ms); lia).
  rewrite isoDay_civil, isoDay_civilNext by lia. reflexivity.
Qed.

(** A day number beyond the end of the month counts on into the next
    month. *)
Lemma dayNumber_overflow (y m k : Z) :
  1 <= m <= 12 ->
  dayNumber y m (daysInMonth y m + k)
  = dayNumber (fst (nextMonth y m)) (snd (nextMonth y m)) k.
Proof.
  intros Hm. unfold nextMonth, dayNumber, daysInMonth.
  destruct (Z.ltb_spec m 12) as [L|L]; cbn [fst snd].
  - replace (m + 1 - 1) with m by lia. lia.
  - assert (m = 12) by lia. subst m. rewrite DayFromYear_step.
    unfold DaysInYear, leapDay. simpl (_ - 1). cbn [monthStart].
    destruct (isLeap y), (isLeap (y + 1)); lia.
Qed.

Lemma nextMonth_range (y m : Z) :
  1 <= m <= 12 ->
  y <= fst (nextMonth y m) <= y + 1 /\ 1 <= snd (nextMonth y m) <= 12.
Proof.
  intros Hm. unfold nextMonth. destruct (Z.ltb_spec m 12); cbn [fst snd]; lia.
Qed.

(** ** What a returned pair was built from *)

Lemma newDate_local (tza y mi d t : Z) :
  newDate tza y mi d = Some t ->
  exists D, MakeDay (MakeFullYear y) mi d = Some D /\ t = D * msPerDay - tza.
Proof.
  unfold newDate. destruct (MakeDay (MakeFullYear y) mi d) as [D|]; [|discriminate].
  unfold UTC, MakeDate. intros H. apply TimeClip_Some in H. destruct H as [-> _].
  exists D. split; [reflexivity | lia].
Qed.

Lemma rolledEnd_local (env : Ambient) (y ms me sd ed te : Z) :
  Z.abs (LocalTZA env) < msPerDay ->
  rolledEnd env y ms me sd ed = Some te ->
  exists last, te = last * msPerDay - LocalTZA env.
Proof.
  intros Hz. unfold rolledEnd, wraps.
  destruct (constructedEnd env y me ed) as [te0|] eqn:EE.
  - unfold constructedEnd in EE. apply newDate_local in EE.
    destruct EE as (D0 & _ & ->).
    destruct (JSDate.ltb _ _ && (me <? ms)).
    + intros H. destruct (setFullYear_shift _ _ _ _ Hz H) as (D' & -> & _).
      exists D'. reflexivity.
    + intros [= <-]. exists D0. reflexivity.
  - cbn [JSDate.ltb andb]. discriminate.
Qed.

Lemma not_occursIn (sub s : string) : includes s sub = false -> ~ occursIn sub s.
Proof.
  intros E H. apply includes_occurs in H. rewrite H in E. discriminate.
Qed.

(** ** The calendar text of a run *)

Lemma beforeT_removeChars (class : ascii -> bool) (s : string) :
  beforeT s = s -> beforeT (removeChars class s) = removeChars class s.
Proof.
  induction s as [|c s IH]; [reflexivity|].
  cbn [beforeT removeChars]. destruct (Ascii.eqb c "T") eqn:E; [discriminate|].
  intros [= H]. destruct (class c); [apply IH, H|].
  cbn [beforeT]. rewrite E, (IH H). reflexivity.
Qed.

(** The stamp is the UTC day of the clock reading, and nothing else. *)
Lemma icsStamp_day (t : Z) :
  icsStamp t = removeChars isStampPunct (isoDay (Day t)) ++ "T000000Z".
Proof.
  unfold icsStamp, isoString. rewrite removeChars_app. f_equal.
  cbn [append removeChars].
  change (isStampPunct "T") with false. cbv iota.
  apply beforeT_app_T. apply beforeT_removeChars. apply beforeT_isoDay.
Qed.

Lemma veventsFrom_same (o1 o2 : Oracle) (events : list Event) (k : nat) :
  sameTokensSameDay o1 o2 -> veventsFrom o1 k events = veventsFrom o2 k events.
Proof.
  intros H. revert k. induction events as [|e events IH]; intros k; [reflexivity|].
  cbn [veventsFrom]. destruct (dated e); [|apply IH].
  rewrite (IH (S k)). f_equal. destruct (H k) as [Hr Hd].
  unfold veventLines, randomToken. rewrite Hr, !icsStamp_day, Hd. reflexivity.
Qed.

Lemma generateICS_same (o1 o2 : Oracle) (events : list Event) :
  sameTokensSameDay o1 o2 -> generateICS o1 events = generateICS o2 events.
Proof.
  intros H. unfold generateICS, icsContent. rewrite (veventsFrom_same o1 o2 _ _ H).
  reflexivity.
Qed.

Lemma icsContent_stable (o1 o2 : Oracle) (events : list Event) :
  filter isStable (icsContent o1 events) = filter isStable (icsContent o2 events).
Proof.
  unfold icsContent. rewrite !filter_app. f_equal. f_equal.
  generalize 0%nat. induction events as [|e events IH]; intros k; [reflexivity|].
  cbn [veventsFrom]. destruct (dated e); [|apply IH].
  rewrite !filter_app, (IH (S k)).
  rewrite (isStable_veventLines (randomToken o1 k) (randomToken o2 k)
             (clockAt o1 k) (clockAt o2 k)).
  reflexivity.
Qed.

(** The calendar text of the events of a run splits into its lines. *)
Lemma run_calendar_lines (env : Ambient) (year : Z) (text : string) (o : Oracle) :
  split (generateICS o (sortEvents (resolvedEvents env year (extractEntries text))))
        CRLF
  = icsContent o (sortEvents (resolvedEvents env year (extractEntries text))).
Proof.
  unfold generateICS. apply split_join.
  - unfold icsContent, icsHeader. discriminate.
  - apply icsContent_noLineBreak. apply Forall_forall. intros e He.
    apply (resolvedEvents_breakFree env year text).
    apply (Permutation_in e (Permutation_sym (sortEvents_perm _))). exact He.
Qed.

(** The files of a run: none, or the two made from the sorted events. *)
Lemma main_written (env : Ambient) (text : string) :
  written (main env (Return text)) = []%list \/
  written (main env (Return text))
  = [("events.json",
      JsonOf (sortEvents (resolvedEvents env (fst (detectYear env text))
                            (extractEntries text))));
     ("events.ics",
      IcsOf (sortEvents (resolvedEvents env (fst (detectYear env text))
                           (extractEntries text))))]%list.
Proof.
  destruct (throws_or_not env (fst (detectYear env text)) (extractEntries text))
    as [Hno | (en & Hin & Hthrow)].
  - destruct (main_when_returns env text Hno) as (warnings & Hw & _ & Hmain).
    rewrite Hmain, !written_app, detectYear_writes_nothing, Hw.
    destruct (resolvedEvents env (fst (detectYear env text)) (extractEntries text));
      [left | right]; reflexivity.
  - left. destruct (main_when_throws env text en Hin Hthrow) as (before & Hw & Hmain).
    rewrite Hmain, written_app, Hw. reflexivity.
Qed.

Lemma calendarsWritten_written (o : Oracle) (trace : list effect) :
  calendarsWritten o trace
  = flat_map (fun pc => match snd pc with
                        | IcsOf events => [generateICS o events]
                        | JsonOf _ => []
                        end%list) (written trace).
Proof.
  induction trace as [|e trace IH]; [reflexivity|].
  destruct e as [l|l|l|path [ev|ev]]; cbn [calendarsWritten written flat_map snd app];
    rewrite IH; reflexivity.
Qed.

(** With a year token in the document, the effects [main] is modelled
    with do not depend on the clock of the host. *)
Lemma main_ignores_clock (tza n1 n2 : Z) (text : string) :
  hasYearToken text ->
  2000 <= fst (detectYear {| LocalTZA := tza; now := n1 |} text) <= 2099 /\
  main {| LocalTZA := tza; now := n1 |} (Return text)
  = main {| LocalTZA := tza; now := n2 |} (Return text).
Proof.
  intros T. apply hasYearToken_found in T. unfold main.
  destruct (detectYear_cases {| LocalTZA := tza; now := n1 |} text)
    as [(y & log & R & _ & H) | [(y & log & R & _ & _ & H) | (_ & Hc & _)]];
    [| | contradiction];
    rewrite !H; rewrite (extractionLoop_clock tza n1 n2); split;
    try exact R; reflexivity.
Qed.

(* ================================================================== *)
(** * The claims *)




(** C2, as amended. On a host at UTC or west of it, whenever [resolve]
    returns a non-null pair, [startDate] is the day of the constructed
    start date and [endDate] the day after the last day [resolve]
    computed: the start day itself for a single-day phrase, the
    constructed end date after any year rollover for a range. So [endDate]
    is after [startDate] for every single-day phrase, for every range
    whose constructed end date is not before its constructed start date,
    and for every range on which the rollover fires while the constructed
    start date lies in the year in force or before it, as it does when the
    start day exists in its month: the rollover puts the end date in the
    following year. A range whose constructed end date is before its
    start date and on which the rollover does not fire keeps its last day
    before its first. *)
Theorem C2_end_is_day_after_last_day :
  forall (env : Ambient) (s : string) (Y : Z) (r : DateRange),
    westOrUTC env ->
    resolve env s Y = Return r ->
    r <> unresolved ->
    exists first last : Z,
      r = resolved (isoDay first) (isoDay (last + 1)) /\
      match reading s Y with
      | SingleOf y m d =>
          newDate (LocalTZA env) y (m - 1) d = localMidnight env first /\
          last = first
      | RangeOf y ms me sd ed =>
          constructedStart env y ms sd = localMidnight env first /\
          rolledEnd env y ms me sd ed = localMidnight env last /\
          (JSDate.ltb (constructedEnd env y me ed) (constructedStart env y ms sd)
           = false -> first <= last) /\
          (wraps env y ms me sd ed = true ->
           YearFromDay last = y + 1 /\ (YearFromDay first <= y -> first < last)) /\
          (JSDate.ltb (constructedEnd env y me ed) (constructedStart env y ms sd)
           = true -> ms <= me -> last < first) /\
          (100 <= y -> 1 <= sd <= daysInMonth y ms -> YearFromDay first = y)
      | _ => False
      end.
Proof.
  intros env s Y r Hw Hres Hnon. pose proof (westOrUTC_offset env Hw) as Hz.
  rewrite resolve_reading in Hres. pose proof (reading_range s Y) as R.
  destruct (reading s Y) as [| |y ms me sd ed|y m d|]; cbn [construct] in Hres;
    try (injection Hres as <-; contradiction); try discriminate.
  - destruct R as (_ & Hms & _).
    rewrite emitRange_eq in Hres by lia.
    destruct (constructedStart env y ms sd) as [ts|] eqn:Es; [|discriminate].
    destruct (rolledEnd env y ms me sd ed) as [te|] eqn:Ee; [|discriminate].
    destruct (te + msPerDay <=? maxTime); [|discriminate].
    injection Hres as <-.
    pose proof Es as Es'. unfold constructedStart in Es'.
    apply newDate_local in Es'. destruct Es' as (first & HMs & ->).
    destruct (rolledEnd_local _ _ _ _ _ _ _ Hz Ee) as (last & ->).
    fold (localMidnight env first) in Es. fold (localMidnight env last) in Ee.
    exists first, last. rewrite !Day_localMidnight by exact Hw.
    change (Some (first * msPerDay - LocalTZA env)) with (localMidnight env first).
    change (Some (last * msPerDay - LocalTZA env)) with (localMidnight env last).
    split; [reflexivity|]. split; [reflexivity|]. split; [reflexivity|].
    unfold rolledEnd, wraps in Ee. rewrite Es in Ee.
    split; [|split; [|split]].
    + intros Hlt. rewrite Hlt in Ee.
      cbn [andb] in Ee. rewrite Ee, ltb_localMidnight in Hlt.
      apply Z.ltb_ge in Hlt. exact Hlt.
    + intros Hwrap. unfold wraps in Hwrap. rewrite Es in Hwrap. rewrite Hwrap in Ee.
      apply getFullYear_setFullYear in Ee.
      change (Some (last * msPerDay - LocalTZA env)) with (localMidnight env last) in Ee.
      rewrite getFullYear_localMidnight in Ee. injection Ee as Ee.
      split; [exact Ee|]. intros Hfirst.
      destruct (Z.lt_ge_cases first last) as [L|G]; [exact L|].
      pose proof (YearFromDay_mono last first G). lia.
    + intros Hlt Hmonths. rewrite Hlt in Ee.
      replace (me <? ms) with false in Ee by (symmetry; apply Z.ltb_ge; exact Hmonths).
      cbn [andb] in Ee. rewrite Ee, ltb_localMidnight in Hlt.
      apply Z.ltb_lt in Hlt. exact Hlt.
    + intros Hy Hsd. rewrite MakeFullYear_from_100 in HMs by exact Hy.
      pose proof (MakeDay_Some _ _ _ _ HMs) as Hk.
      rewrite MakeDay_in_range in HMs by (try exact Hk; lia).
      injection HMs as <-. fold (leapDay y). fold (dayNumber y ms sd).
      apply (civil_fields y ms sd Hms Hsd).
  - rewrite emitSingle_eq in Hres by lia.
    destruct (newDate (LocalTZA env) y (m - 1) d) as [t|] eqn:E; [|discriminate].
    destruct (t + msPerDay <=? maxTime); [|discriminate].
    injection Hres as <-.
    apply newDate_local in E. destruct E as (first & _ & ->).
    exists first, first. rewrite !Day_localMidnight by exact Hw. repeat split.
Qed.

Lemma C2_end_is_day_after_last_day_witness :
  reading "28 December - 2 January" 2025 = RangeOf 2025 12 1 28 2 /\
  wraps newYork 2025 12 1 28 2 = true /\
  exists first last : Z,
    resolved "2025-12-28" "2026-01-03"
    = resolved (isoDay first) (isoDay (last + 1)) /\
    constructedStart newYork 2025 12 28 = localMidnight newYork first /\
    rolledEnd newYork 2025 12 1 28 2 = localMidnight newYork last /\
    YearFromDay first = 2025 /\ YearFromDay last = 2025 + 1 /\ first < last.
Proof.
  assert (W : wraps newYork 2025 12 1 28 2 = true) by (vm_compute; reflexivity).
  split; [vm_compute; reflexivity|]. split; [exact W|].
  destruct (C2_end_is_day_after_last_day newYork "28 December - 2 January" 2025
              (resolved "2025-12-28" "2026-01-03"))
    as (first & last & Hr & Hm).
  - unfold westOrUTC, msPerDay. cbn [LocalTZA newYork]. lia.
  - vm_compute; reflexivity.
  - discriminate.
  - change (reading "28 December - 2 January" 2025)
      with (RangeOf 2025 12 1 28 2) in Hm.
    cbv beta iota in Hm. destruct Hm as (Hs & He & _ & Hwrap & _ & Hyear).
    destruct (Hwrap W) as [Hlast Hlt].
    assert (Hfirst : YearFromDay first = 2025)
      by (apply Hyear; [lia | vm_compute; split; discriminate]).
    exists first, last.
    split; [exact Hr|]. split; [exact Hs|]. split; [exact He|].
    split; [exact Hfirst|]. split; [exact Hlast|]. apply Hlt. lia.
Defined.

(** C2 as stated fails. "5 March - 3 March" with context year 2025 is a
    range in one month written backwards: no rollover applies and the pair
    returned has its end date before its start date. On
    "400 December - 0 January" the rollover fires, but day 400 of December
    carries the start date into January 2027, past the end date that the
    rollover has put on 31 December 2026. *)
Lemma C2_counterexample :
  (exists first after : Z,
     resolve (runner 0) "5 March - 3 March" 2025
       = Return (resolved (isoDay first) (isoDay after)) /\
     resolved (isoDay first) (isoDay after) = resolved "2025-03-05" "2025-03-04" /\
     resolved (isoDay first) (isoDay after) <> unresolved /\
     after < first) /\
  (exists first after : Z,
     wraps (runner 0) 2025 12 1 400 0 = true /\
     resolve (runner 0) "400 December - 0 January" 2025
       = Return (resolved (isoDay first) (isoDay after)) /\
     resolved (isoDay first) (isoDay after) = resolved "2027-01-04" "2027-01-01" /\
     after < first).
Proof.
  split.
  - exists 20152, 20151.
    repeat split; try (vm_compute; reflexivity); try discriminate.
  - exists 20822, 20819.
    repeat split; vm_compute; reflexivity.
Qed.

(** C3 fails on the code: for every context year,
    [resolve("March 2026", Y)] is not the unresolved pair. The year token
    is not preceded by ", ", so it stays in the phrase and is read again as
    the day number 2026 of March 2026, which is 16 September 2031. *)
Theorem C3_bare_year_is_read_as_day :
  forall clock Y : Z,
    resolve (runner clock) "March 2026" Y
    = Return (resolved "2031-09-16" "2031-09-17") /\
    reading "March 2026" Y = SingleOf 2026 3 2026 /\
    yearOverride "March 2026" Y = (2026, "March 2026") /\
    yearOverride "March, 2026" Y = (2026, "March").
Proof. intros clock Y. repeat split; vm_compute; reflexivity. Qed.

(** C4, as amended. On a host at UTC or west of it: in a range whose
    start part names no month, the start month is the first month of the
    table that the whole phrase mentions (the end month being the last
    month its end part mentions); in a range whose end part names no
    month, the end month is the start month again, which is the last month
    the start part mentions. With a year from 100 to 9997 and days that
    exist, the dates returned are the start date as written and the day
    after the end date as written. So [resolve("18 - 19 January", 2025)]
    is [("2025-01-18", "2025-01-20")], and so is
    [resolve("18 January - 19", 2025)]. *)
Theorem C4_start_month_fallback :
  forall (env : Ambient)
         (s : string) (Y y : Z) (p p0 p1 sd ed month emonth : string) (m me : Z)
         (t : string) (Z' z : Z) (q q0 q1 td te tmonth : string) (tm : Z),
    westOrUTC env ->
    rangePhrase s Y y p p0 p1 sd ed ->
    noMonthIn (trim p0) ->
    firstMentioned p month m ->
    lastMentioned (trim p1) emonth me ->
    rangePhrase t Z' z q q0 q1 td te ->
    lastMentioned (trim q0) tmonth tm ->
    noMonthIn (trim q1) ->
    resolve env s Y = emitRange env y m me (parseInt sd) (parseInt ed) /\
    (daysExist y m me (parseInt sd) (parseInt ed) ->
     resolve env s Y = Return (asWritten y m me (parseInt sd) (parseInt ed))) /\
    resolve env t Z' = emitRange env z tm tm (parseInt td) (parseInt te) /\
    (daysExist z tm tm (parseInt td) (parseInt te) ->
     resolve env t Z' = Return (asWritten z tm tm (parseInt td) (parseInt te))) /\
    resolve env "18 - 19 January" 2025
    = Return (resolved "2025-01-18" "2025-01-20") /\
    resolve env "18 January - 19" 2025
    = Return (resolved "2025-01-18" "2025-01-20").
Proof.
  intros env s Y y p p0 p1 sd ed month emonth m me
         t Z' z q q0 q1 td te tmonth tm
         Hw Hs Hs0 Hsf Hsl Ht Htl Ht1.
  pose proof (reading_fallback _ _ _ _ _ _ _ _ _ _ _ _ Hs Hs0 Hsf Hsl) as Rs.
  pose proof (reading_reuse _ _ _ _ _ _ _ _ _ _ Ht Htl Ht1) as Rt.
  pose proof (reading_range s Y) as Bs. rewrite Rs in Bs.
  pose proof (reading_range t Z') as Bt. rewrite Rt in Bt.
  destruct Bs as (_ & Hm & Hme & _). destruct Bt as (_ & Htm & _).
  split; [rewrite resolve_reading, Rs; reflexivity|].
  split.
  { intros (D1 & D2 & D3 & D4). rewrite resolve_reading, Rs. cbn [construct].
    apply emitRange_as_written; assumption. }
  split; [rewrite resolve_reading, Rt; reflexivity|].
  split.
  { intros (D1 & D2 & D3 & D4). rewrite resolve_reading, Rt. cbn [construct].
    apply emitRange_as_written; assumption. }
  split.
  - rewrite resolve_reading.
    change (reading "18 - 19 January" 2025) with (RangeOf 2025 1 1 18 19).
    cbn [construct]. rewrite emitRange_as_written; try exact Hw; try lia;
      vm_compute; try reflexivity; try (split; discriminate); discriminate.
  - rewrite resolve_reading.
    change (reading "18 January - 19" 2025) with (RangeOf 2025 1 1 18 19).
    cbn [construct]. rewrite emitRange_as_written; try exact Hw; try lia;
      vm_compute; try reflexivity; try (split; discriminate); discriminate.
Qed.

Lemma C4_start_month_fallback_witness :
  resolve newYork "18 - 19 January" 2025 = emitRange newYork 2025 1 1 18 19 /\
  resolve newYork "18 - 19 January" 2025 = Return (asWritten 2025 1 1 18 19) /\
  resolve newYork "18 January - 19" 2025 = emitRange newYork 2025 1 1 18 19 /\
  resolve newYork "18 January - 19" 2025 = Return (asWritten 2025 1 1 18 19).
Proof.
  assert (Hfirst : forall k j, lookup monthMap k = Some j -> 1 <= j)
    by (intros k j Hk; apply lookup_monthMap_range in Hk; lia).
  destruct (C4_start_month_fallback newYork
              "18 - 19 January" 2025 2025 "18 - 19 January" "18" "19 January"
              "18" "19" "january" "january" 1 1
              "18 January - 19" 2025 2025 "18 January - 19" "18 January" "19"
              "18" "19" "january" 1)
    as (H1 & H2 & H3 & H4 & _).
  - unfold westOrUTC, msPerDay. cbn [LocalTZA newYork]. lia.
  - split; [split; [apply not_occursIn; vm_compute; reflexivity
                   | vm_compute; reflexivity]|].
    split; [left; split; [exists "18", "19 January"; reflexivity
                         | vm_compute; reflexivity]|].
    split.
    + exists "", "". repeat split; try reflexivity; discriminate.
    + exists "", " January". repeat split; try reflexivity; discriminate.
  - intros k Hk. cbv [Object_keys monthMap map fst In] in Hk.
    repeat (destruct Hk as [<- | Hk]; [vm_compute; reflexivity|]).
    contradiction.
  - split; [reflexivity|]. split; [reflexivity|].
    intros k j Hk _. apply (Hfirst k j Hk).
  - split; [reflexivity|]. split; [reflexivity|].
    intros k j Hk Hm. apply lookup_monthMap_inv in Hk.
    decompose [or and] Hk; clear Hk; subst; try lia; vm_compute in Hm; discriminate.
  - split; [split; [apply not_occursIn; vm_compute; reflexivity
                   | vm_compute; reflexivity]|].
    split; [left; split; [exists "18 January", "19"; reflexivity
                         | vm_compute; reflexivity]|].
    split.
    + exists "", " January". repeat split; try reflexivity; discriminate.
    + exists "", "". repeat split; try reflexivity; discriminate.
  - split; [reflexivity|]. split; [reflexivity|].
    intros k j Hk Hm. apply lookup_monthMap_inv in Hk.
    decompose [or and] Hk; clear Hk; subst; try lia; vm_compute in Hm; discriminate.
  - intros k Hk. cbv [Object_keys monthMap map fst In] in Hk.
    repeat (destruct Hk as [<- | Hk]; [vm_compute; reflexivity|]).
    contradiction.
  - split; [exact H1|]. split.
    + apply H2. vm_compute. repeat split; discriminate.
    + split; [exact H3|]. apply H4. vm_compute. repeat split; discriminate.
Defined.

(** C4 as stated fails on a host east of UTC: the dates are built at local
    midnight and written in UTC, so one hour ahead of UTC
    [resolve("18 - 19 January", 2025)] is [("2025-01-17", "2025-01-19")]. *)
Lemma C4_counterexample :
  resolve berlin "18 - 19 January" 2025
  = Return (resolved "2025-01-17" "2025-01-19") /\
  resolve berlin "18 - 19 January" 2025
  <> Return (resolved "2025-01-18" "2025-01-20").
Proof. split; [vm_compute; reflexivity | vm_compute; discriminate]. Qed.

(** C5, as amended. On a host at UTC or west of it: after the ordinal
    suffixes are dropped, a single-day phrase with a month name and a digit
    run, with the year in force within 200000 years of year 0 and a day
    number of at most ten million, yields as [startDate] the date the Date
    constructor builds from the year in force, the first month mentioned
    and the first digit run (the day counted from the first of that
    month), and as [endDate] the following day. With a year from 100 to
    9998 and a day that the month has, that is the date as written and the
    date of the day after it; so [resolve("4th March", 2025)] is
    [("2025-03-04", "2025-03-05")]. *)
Theorem C5_single_day :
  forall (env : Ambient) (s : string) (Y y : Z) (month : string) (m : Z)
         (ds : string),
    westOrUTC env ->
    singleDayPhrase s Y y month m ds ->
    -200000 <= y <= 200000 ->
    parseInt ds <= 10000000 ->
    resolve env s Y
    = Return (resolved (isoDay (dayNumber (MakeFullYear y) m (parseInt ds)))
                       (isoDay (dayNumber (MakeFullYear y) m (parseInt ds) + 1))) /\
    (100 <= y <= 9998 -> 1 <= parseInt ds <= daysInMonth y m ->
     resolve env s Y
     = Return (resolved (civil y m (parseInt ds)) (civilNext y m (parseInt ds)))) /\
    stripOrdinals "4th March" = "4 March" /\
    resolve env "4th March" 2025 = Return (resolved "2025-03-04" "2025-03-05").
Proof.
  intros env s Y y month m ds Hw Hs Hy Hd.
  pose proof (singleDayPhrase_reading _ _ _ _ _ _ Hs) as R.
  pose proof (reading_range s Y) as B. rewrite R in B. destruct B as (_ & Hm & Hd0).
  split; [|split; [|split; [reflexivity|]]].
  - rewrite resolve_reading, R. cbn [construct].
    apply emitSingle_west; try assumption. lia.
  - intros Hy' Hd'. rewrite resolve_reading, R. cbn [construct].
    apply emitSingle_as_written; assumption.
  - rewrite resolve_reading.
    change (reading "4th March" 2025) with (SingleOf 2025 3 4).
    cbn [construct]. rewrite emitSingle_as_written; try exact Hw; try lia;
      vm_compute; try reflexivity; split; discriminate.
Qed.

Lemma C5_single_day_witness :
  resolve newYork "4th March" 2025
  = Return (resolved (isoDay (dayNumber (MakeFullYear 2025) 3 (parseInt "4")))
                     (isoDay (dayNumber (MakeFullYear 2025) 3 (parseInt "4") + 1))) /\
  resolve newYork "4th March" 2025
  = Return (resolved (civil 2025 3 (parseInt "4")) (civilNext 2025 3 (parseInt "4"))).
Proof.
  destruct (C5_single_day newYork "4th March" 2025 2025 "march" 3 "4")
    as (H1 & H2 & _).
  - unfold westOrUTC, msPerDay. cbn [LocalTZA newYork]. lia.
  - exists "4 March".
    split; [split; [apply not_occursIn; vm_compute; reflexivity
                   | vm_compute; reflexivity]|].
    split; [apply not_occursIn; vm_compute; reflexivity|].
    split; [apply not_occursIn; vm_compute; reflexivity|].
    split.
    + split; [reflexivity|]. split; [reflexivity|].
      intros k j Hk Hm. apply lookup_monthMap_inv in Hk.
      decompose [or and] Hk; clear Hk; subst; try lia; vm_compute in Hm; discriminate.
    + exists "", " March". repeat split; try reflexivity; discriminate.
  - lia.
  - vm_compute. discriminate.
  - split; [exact H1|]. apply H2; [lia|]. vm_compute. split; discriminate.
Defined.

(** C5 as stated fails in two ways. On a host east of UTC the date built at
    local midnight is written in UTC, and one hour ahead of UTC
    [resolve("4th March", 2025)] is [("2025-03-03", "2025-03-04")]. And a
    single-day phrase with a month name and a digit run does not always
    yield a date: the digit run of "99999999999999999999 March" is beyond
    what a Date can hold, and [resolve] throws. *)
Lemma C5_counterexample :
  resolve berlin "4th March" 2025 = Return (resolved "2025-03-03" "2025-03-04") /\
  resolve berlin "4th March" 2025 <> Return (resolved "2025-03-04" "2025-03-05") /\
  reading "99999999999999999999 March" 2025 = SingleOf 2025 3 99999999999999999999 /\
  resolve (runner 0) "99999999999999999999 March" 2025
  = Throw (RangeError "Invalid time value").
Proof.
  repeat split; try (vm_compute; reflexivity). vm_compute. discriminate.
Qed.

(** C6. On every host and for every context year, a phrase that after
    ordinal stripping contains "not announced yet" in any mix of cases
    resolves to the unresolved pair, whatever else it contains; so do
    "Not announced yet" itself and "4 March (NOT announced yet)". *)
Theorem C6_not_announced_yet :
  forall (env : Ambient) (Y : Z) (s pre mid post : string),
    stripOrdinals s = pre ++ mid ++ post ->
    toLowerCase mid = "not announced yet" ->
    resolve env s Y = Return unresolved /\
    resolve env "Not announced yet" Y = Return unresolved /\
    resolve env "4 March (NOT announced yet)" Y = Return unresolved /\
    reading "4 March" Y = SingleOf Y 3 4.
Proof.
  intros env Y s pre mid post Hs Hmid.
  split; [|repeat split; vm_compute; reflexivity].
  unfold resolve, parseDate.
  replace (includes (toLowerCase (stripOrdinals s)) "not announced yet")
    with true; [reflexivity|].
  symmetry. apply includes_occurs.
  exists (toLowerCase pre), (toLowerCase post).
  rewrite Hs, !toLowerCase_app, Hmid. reflexivity.
Qed.

Lemma C6_not_announced_yet_witness :
  resolve (runner 0) "22nd June, or Not Announced Yet" 2025 = Return unresolved.
Proof.
  apply (C6_not_announced_yet (runner 0) 2025 "22nd June, or Not Announced Yet"
           "22 June, or " "Not Announced Yet" "").
  - vm_compute; reflexivity.
  - vm_compute; reflexivity.
Defined.

(** C7, as amended. No bound on the day number is checked. On a host at
    UTC or west of it, for a single-day phrase with the year in force
    within 200000 years of year 0 and a day number [d] of at most ten
    million, the result is a non-null pair: [startDate] is the day [d - 1]
    days after the first of the month, whatever [d], and [endDate] the day
    after it. With a year from 100 to 9997, a day number that exceeds the
    length of the month by [k], where the following month has [k] days,
    gives the [k]-th of the following month; so "31 April" with context
    year 2025 yields [("2025-05-01", "2025-05-02")]. *)
Theorem C7_no_day_bound :
  forall (env : Ambient) (s : string) (Y y : Z) (month : string) (m : Z)
         (ds : string),
    westOrUTC env ->
    singleDayPhrase s Y y month m ds ->
    -200000 <= y <= 200000 ->
    parseInt ds <= 10000000 ->
    resolve env s Y
    = Return (resolved
                (isoDay (dayNumber (MakeFullYear y) m 1 + (parseInt ds - 1)))
                (isoDay (dayNumber (MakeFullYear y) m 1 + parseInt ds))) /\
    (forall k y' m',
       100 <= y <= 9997 ->
       parseInt ds = daysInMonth y m + k ->
       nextMonth y m = (y', m') ->
       1 <= k <= daysInMonth y' m' ->
       resolve env s Y = Return (resolved (civil y' m' k) (civilNext y' m' k))) /\
    resolve env "31 April" 2025 = Return (resolved "2025-05-01" "2025-05-02").
Proof.
  intros env s Y y month m ds Hw Hs Hy Hd.
  pose proof (singleDayPhrase_reading _ _ _ _ _ _ Hs) as R.
  pose proof (reading_range s Y) as B. rewrite R in B. destruct B as (_ & Hm & Hd0).
  assert (E : resolve env s Y
              = Return (resolved
                          (isoDay (dayNumber (MakeFullYear y) m (parseInt ds)))
                          (isoDay (dayNumber (MakeFullYear y) m (parseInt ds) + 1)))).
  { rewrite resolve_reading, R. cbn [construct].
    apply emitSingle_west; try assumption. lia. }
  split; [|split].
  - rewrite E. unfold dayNumber. do 2 f_equal; f_equal; lia.
  - intros k y' m' Hy' Hk Hnext Hk'. rewrite E, Hk.
    rewrite MakeFullYear_from_100 by lia.
    rewrite (dayNumber_overflow y m k Hm), Hnext. cbn [fst snd].
    pose proof (nextMonth_range y m Hm) as N. rewrite Hnext in N. cbn [fst snd] in N.
    rewrite isoDay_civil, isoDay_civilNext by lia. reflexivity.
  - rewrite resolve_reading.
    change (reading "31 April" 2025) with (SingleOf 2025 4 31).
    cbn [construct]. rewrite emitSingle_west; try exact Hw; try lia.
    vm_compute. reflexivity.
Qed.

Lemma C7_no_day_bound_witness :
  resolve newYork "31 April" 2025
  = Return (resolved
              (isoDay (dayNumber (MakeFullYear 2025) 4 1 + (parseInt "31" - 1)))
              (isoDay (dayNumber (MakeFullYear 2025) 4 1 + parseInt "31"))) /\
  resolve newYork "31 April" 2025
  = Return (resolved (civil 2025 5 1) (civilNext 2025 5 1)).
Proof.
  destruct (C7_no_day_bound newYork "31 April" 2025 2025 "april" 4 "31")
    as (H1 & H2 & _).
  - unfold westOrUTC, msPerDay. cbn [LocalTZA newYork]. lia.
  - exists "31 April".
    split; [split; [apply not_occursIn; vm_compute; reflexivity
                   | vm_compute; reflexivity]|].
    split; [apply not_occursIn; vm_compute; reflexivity|].
    split; [apply not_occursIn; vm_compute; reflexivity|].
    split.
    + split; [reflexivity|]. split; [reflexivity|].
      intros k j Hk Hm. apply lookup_monthMap_inv in Hk.
      decompose [or and] Hk; clear Hk; subst; try lia; vm_compute in Hm; discriminate.
    + exists "", " April". repeat split; try reflexivity; discriminate.
  - lia.
  - vm_compute. discriminate.
  - split; [exact H1|]. apply (H2 1 2025 5).
    + lia.
    + vm_compute. reflexivity.
    + vm_compute. reflexivity.
    + vm_compute. split; discriminate.
Defined.

(** C7 as stated fails in two ways. A day number beyond the length of the
    month does not always give a non-null pair: "99999999999999999999
    March" is read as a single day and [resolve] throws. And on a host
    east of UTC the dates are a day early: one hour ahead of UTC "31 April"
    with context year 2025 yields [("2025-04-30", "2025-05-01")]. *)
Lemma C7_counterexample :
  reading "99999999999999999999 March" 2025 = SingleOf 2025 3 99999999999999999999 /\
  (forall r, resolve (runner 0) "99999999999999999999 March" 2025 <> Return r) /\
  resolve berlin "31 April" 2025 = Return (resolved "2025-04-30" "2025-05-01") /\
  resolve berlin "31 April" 2025 <> Return (resolved "2025-05-01" "2025-05-02").
Proof.
  split; [vm_compute; reflexivity|].
  split; [intros r; vm_compute; discriminate|].
  split; [vm_compute; reflexivity | vm_compute; discriminate].
Qed.

(** C8. A run in which every extracted phrase resolves to the unresolved
    pair (in particular a run in which no entry matches) writes no file:
    after the log of the detected year and one warning per entry its only
    further effect is the error message about no events, not the message
    of the exception handler. *)
Theorem C8_no_events_no_files :
  forall (env : Ambient) (markdownText : string),
    (forall en, In en (extractEntries markdownText) ->
       parseDate env (entry_date en) (Some (fst (detectYear env markdownText)))
       = Return unresolved) ->
    filter isWrite (main env (Return markdownText)) = []%list /\
    exists logged,
      main env (Return markdownText)
      = (logged ++
         [console_error "No events were successfully parsed. Check date formats."])%list.
Proof.
  intros env markdownText H. unfold main.
  pose proof (detectYear_logs_only env markdownText) as Hlog.
  destruct (detectYear env markdownText) as [year logged].
  cbn [fst snd] in *.
  edestruct (extractionLoop_all_unresolved env year (extractEntries markdownText))
    as (warnings & -> & Hw); [exact H|].
  cbn [events trace]. split.
  - rewrite !filter_app, Hlog, Hw. reflexivity.
  - eexists. reflexivity.
Qed.

Lemma C8_no_events_no_files_witness :
  filter isWrite (main (runner 0) (Return unscheduledOnly)) = []%list /\
  exists logged,
    main (runner 0) (Return unscheduledOnly)
    = (logged ++
       [console_error "No events were successfully parsed. Check date formats."])%list.
Proof.
  apply (C8_no_events_no_files (runner 0) unscheduledOnly).
  intros en Hen. vm_compute in Hen. destruct Hen as [<- | []].
  vm_compute. reflexivity.
Defined.

(** C9. With an explicit context year the result of [resolve] does not
    depend on the wall clock: two hosts that differ only in the current
    time return the same outcome for the same phrase and year. *)
Theorem C9_no_wall_clock :
  forall (tza clock1 clock2 : Z) (s : string) (Y : Z),
    resolve {| LocalTZA := tza; now := clock1 |} s Y
    = resolve {| LocalTZA := tza; now := clock2 |} s Y.
Proof. intros. reflexivity. Qed.



(* ================================================================== *)
(** * Further facts about the script *)

(** The default of the second parameter is where the clock comes in:
    without a context year the same phrase resolves differently at
    different times. *)
Example default_year_reads_the_clock :
  parseDate (runner 0) "4 March" None
    = Return (resolved "1970-03-04" "1970-03-05") /\
  parseDate (runner 1700000000000) "4 March" None
    = Return (resolved "2023-03-04" "2023-03-05").
Proof. split; vm_compute; reflexivity. Qed.

(** The other ambient input is the host's time zone: [toISOString] is in
    UTC while the Date is built in local time, so one hour east of
    Greenwich every date comes out a day early. *)
Example east_of_Greenwich_is_a_day_early :
  resolve {| LocalTZA := 3600000; now := 0 |} "4 March" 2025
    = Return (resolved "2025-03-03" "2025-03-04").
Proof. vm_compute; reflexivity. Qed.

(** The other copy of the script behaves the same way. *)
Lemma no_events_no_files_without_detection (env : Ambient) (markdownText : string) :
  (forall en, In en (extractEntries markdownText) ->
     parseDate env (entry_date en)
       (Some (YearFromTime (LocalTime (LocalTZA env) (now env))))
     = Return unresolved) ->
  filter isWrite (main_without_detection env (Return markdownText)) = []%list.
Proof.
  intros H. unfold main_without_detection.
  edestruct (extractionLoop_all_unresolved env
               (YearFromTime (LocalTime (LocalTZA env) (now env)))
               (extractEntries markdownText))
    as (warnings & -> & Hw); [exact H|].
  cbn [events trace]. rewrite !filter_app, Hw. reflexivity.
Qed.

(** A run that resolves an event does write both files: of the two entries
    of [twoEntries] the one with a date becomes the single record. *)
Example two_entries_one_record :
  forall clock,
    map entry_date (extractEntries twoEntries)
      = ["4th March"; "Not announced yet"]%list /\
    filter isWrite (main (runner clock) (Return twoEntries))
    = (let e := {| name := "Conf A"; url := "https://a.example";
                   start_date := "2025-03-04"; end_date := "2025-03-05";
                   ev_startDate := "2025-03-04"; ev_endDate := "2025-03-05";
                   mode := "In-person"; location := "Berlin, Germany";
                   original_date := "4th March" |} in
       [writeFileSync "events.json" (JsonOf [e]);
        writeFileSync "events.ics" (IcsOf [e])])%list.
Proof. intros clock. split; vm_compute; reflexivity. Qed.

(** An exception of [parseDate] ends the run in the handler, and nothing
    is written even if earlier entries were resolved. *)
Example invalid_date_aborts_the_run :
  resolve (runner 0) "99999999999999999999 March" 2025
    = Throw (RangeError "Invalid time value") /\
  main (runner 0)
    (Return ("- [A](u)" ++ LF ++ "> Date: 4 March || Mode: m || Location: l." ++ LF ++
             "- [B](v)" ++ LF ++
             "> Date: 99999999999999999999 March || Mode: m || Location: l."))
  = [console_log "No year detected; defaulting to current year: 1970";
     console_error "Error occurred: Invalid time value"]%list.
Proof. split; vm_compute; reflexivity. Qed.

(* ================================================================== *)
(** * Beyond the claims *)

(** ** What [parseDate] can return *)

(** X1. [parseDate] never returns a half-filled pair: on every host, for
    every phrase, with or without a context year, it returns the unresolved
    pair, or two non-empty strings, or throws the RangeError of
    [toISOString]. So the test [startDate && endDate] of [main] fails only
    on the unresolved pair. *)
Theorem X1_both_dates_or_none :
  forall (env : Ambient) (s : string) (yearArg : option Z),
    (parseDate env s yearArg = Throw (RangeError "Invalid time value")) \/
    (exists r, parseDate env s yearArg = Return r /\
               (r = unresolved \/
                exists a b, r = resolved a b /\ a <> "" /\ b <> "") /\
               (truthy (startDate r) && truthy (endDate r) = true
                <-> r <> unresolved)).
Proof.
  intros env s yearArg.
  destruct (parseDate_cases env s yearArg) as [H | [H | (f & a & H)]].
  - right. exists unresolved. split; [exact H|]. split; [left; reflexivity|].
    split; [discriminate | intros C; contradiction].
  - left. exact H.
  - right. eexists. split; [exact H|]. split.
    + right. eexists; eexists. split; [reflexivity|].
      split; apply isoDay_nonempty.
    + cbn [startDate endDate resolved]. rewrite !truthy_isoDay.
      split; [discriminate | reflexivity].
Qed.

(** ** The loop and the output of [main] *)

(** X2. When no extracted phrase makes [parseDate] throw and at least one
    resolves, [main] writes exactly two files, [events.json] and then
    [events.ics], both made from the sorted list of the events that
    resolved, in that order; every other entry gets one warning and is
    left out, and the closing log reports the two counts. *)
Theorem X2_resolved_events_are_written :
  forall (env : Ambient) (markdownText : string),
    (forall en, In en (extractEntries markdownText) ->
       parseDate env (entry_date en) (Some (fst (detectYear env markdownText)))
       <> Throw (RangeError "Invalid time value")) ->
    resolvedEvents env (fst (detectYear env markdownText))
      (extractEntries markdownText) <> []%list ->
    let R := resolvedEvents env (fst (detectYear env markdownText))
               (extractEntries markdownText) in
    written (main env (Return markdownText))
    = [("events.json", JsonOf (sortEvents R));
       ("events.ics", IcsOf (sortEvents R))]%list /\
    exists warnings,
      (List.length warnings + List.length R
       = List.length (extractEntries markdownText))%nat /\
      main env (Return markdownText)
      = (snd (detectYear env markdownText) ++ warnings ++
         [writeFileSync "events.json" (JsonOf (sortEvents R));
          writeFileSync "events.ics" (IcsOf (sortEvents R));
          console_log ("Successfully parsed " ++ decimal (Z.of_nat (List.length R))
                       ++ " events ("
                       ++ decimal (Z.of_nat (List.length (extractEntries markdownText))
                                   - Z.of_nat (List.length R))
                       ++ " skipped)");
          console_log "JSON and ICS files generated successfully!"])%list.
Proof.
  intros env markdownText Hno Hsome R.
  destruct (main_when_returns env markdownText Hno) as (warnings & Hw & Hl & Hmain).
  fold R in Hl, Hmain.
  assert (HR : R <> []%list) by exact Hsome.
  destruct R as [|e R'] eqn:ER; [contradiction|].
  split.
  - rewrite Hmain, !written_app, detectYear_writes_nothing, Hw. reflexivity.
  - exists warnings. split; [exact Hl | exact Hmain].
Qed.

Lemma X2_resolved_events_are_written_witness :
  written (main (runner 0) (Return twoEntries))
  = [("events.json",
      JsonOf (sortEvents (resolvedEvents (runner 0)
                (fst (detectYear (runner 0) twoEntries)) (extractEntries twoEntries))));
     ("events.ics",
      IcsOf (sortEvents (resolvedEvents (runner 0)
                (fst (detectYear (runner 0) twoEntries)) (extractEntries twoEntries))))]%list.
Proof.
  apply (X2_resolved_events_are_written (runner 0) twoEntries).
  - intros en Hen. vm_compute in Hen.
    destruct Hen as [<- | [<- | []]]; vm_compute; discriminate.
  - vm_compute. discriminate.
Defined.

(** X3. One phrase on which [parseDate] throws aborts the whole run: no
    file is written, whatever the other entries resolve to, and the run
    ends with the message of the exception handler. *)
Theorem X3_exception_aborts_the_run :
  forall (env : Ambient) (markdownText : string) (en : Entry),
    In en (extractEntries markdownText) ->
    parseDate env (entry_date en) (Some (fst (detectYear env markdownText)))
    = Throw (RangeError "Invalid time value") ->
    written (main env (Return markdownText)) = []%list /\
    exists before,
      main env (Return markdownText)
      = (before ++ [console_error "Error occurred: Invalid time value"])%list.
Proof.
  intros env markdownText en Hin Hthrow.
  destruct (main_when_throws env markdownText en Hin Hthrow)
    as (before & Hw & Hmain).
  split; [|exists before; exact Hmain].
  rewrite Hmain, written_app, Hw. reflexivity.
Qed.

Lemma X3_exception_aborts_the_run_witness :
  written (main (runner 0)
    (Return ("- [A](u)" ++ LF ++ "> Date: 4 March || Mode: m || Location: l." ++ LF ++
             "- [B](v)" ++ LF ++
             "> Date: 99999999999999999999 March || Mode: m || Location: l.")))
  = []%list.
Proof.
  apply (X3_exception_aborts_the_run (runner 0) _
           {| entry_name := "B"; entry_url := "v";
              entry_date := "99999999999999999999 March";
              entry_mode := "m"; entry_location := "l" |}).
  - vm_compute. right. left. reflexivity.
  - vm_compute. reflexivity.
Defined.

(** X4. [main] writes all or nothing: for every host and every outcome of
    the fetch it writes no file at all, or [events.json] and then
    [events.ics] from one and the same non-empty list of events. *)
Theorem X4_both_files_or_none :
  forall (env : Ambient) (fetched : completion string),
    written (main env fetched) = []%list \/
    exists events,
      events <> []%list /\
      written (main env fetched)
      = [("events.json", JsonOf events); ("events.ics", IcsOf events)]%list.
Proof.
  intros env [markdownText | e]; [|left; reflexivity].
  destruct (throws_or_not env (fst (detectYear env markdownText))
              (extractEntries markdownText)) as [Hno | (en & Hin & Hthrow)].
  - destruct (main_when_returns env markdownText Hno)
      as (warnings & Hw & _ & Hmain).
    rewrite Hmain, !written_app, detectYear_writes_nothing, Hw.
    destruct (resolvedEvents env (fst (detectYear env markdownText))
                (extractEntries markdownText)) as [|e R] eqn:ER.
    + left. reflexivity.
    + right. exists (sortEvents (e :: R)). split; [|reflexivity].
      apply sortEvents_nonempty. discriminate.
  - left. destruct (main_when_throws env markdownText en Hin Hthrow)
      as (before & Hw & Hmain).
    rewrite Hmain, written_app, Hw. reflexivity.
Qed.

(** ** The sort of [main] *)

(** X5. The sort of [main] loses and invents nothing, orders and is
    stable: the sorted list is a permutation of the events, neighbours are
    in ascending order of their start-date strings (compared by code
    units), and the events that share a start date keep the order they had
    in the document. *)
Theorem X5_sort_is_a_stable_ordering :
  forall l : list Event,
    Permutation l (sortEvents l) /\
    ascending (sortEvents l) /\
    (forall key : string,
       filter (fun x => String.eqb (ev_startDate x) key) (sortEvents l)
       = filter (fun x => String.eqb (ev_startDate x) key) l).
Proof.
  intros l. split; [apply sortEvents_perm|].
  split; [apply sortEvents_ascending|].
  intros key. induction l as [|x l IH]; [reflexivity|].
  cbn [sortEvents fold_right]. fold (sortEvents l).
  rewrite insertEvent_same_date. cbn [filter]. rewrite IH. reflexivity.
Qed.

(** ** ISO dates sort like the days they stand for *)

(** X6. The files list the events in chronological order: when every
    start date is the ISO date of a day in the years 0 to 9999, an event
    that comes before another in the sorted list does not start on a later
    day. *)
Theorem X6_sorted_events_are_chronological :
  forall (l pre mid post : list Event) (x y : Event) (dx dy : Z),
    (forall e, In e l ->
       exists d, fourDigitYear d /\ ev_startDate e = isoDay d) ->
    sortEvents l = (pre ++ x :: mid ++ y :: post)%list ->
    fourDigitYear dx -> ev_startDate x = isoDay dx ->
    fourDigitYear dy -> ev_startDate y = isoDay dy ->
    dx <= dy.
Proof.
  intros l pre mid post x y dx dy Hall Hsorted Fx Ex Fy Ey.
  assert (Hasc : ascending (x :: mid ++ y :: post)).
  { apply (ascending_tail pre). rewrite <- Hsorted. apply sortEvents_ascending. }
  assert (Hin : forall e, In e (x :: mid ++ y :: post) ->
            exists d, fourDigitYear d /\ ev_startDate e = isoDay d).
  { intros e He. apply Hall.
    apply (Permutation_in e (Permutation_sym (sortEvents_perm l))).
    rewrite Hsorted. apply in_or_app. right. exact He. }
  clear Hall Hsorted pre l.
  revert x dx Fx Ex Hasc Hin. induction mid as [|z mid IH];
    intros x dx Fx Ex Hasc Hin.
  - cbn [app ascending] in Hasc. destruct Hasc as [H _].
    rewrite Ex, Ey, isoDay_order in H by assumption.
    apply Z.ltb_ge in H. exact H.
  - destruct (Hin z (or_intror (or_introl eq_refl))) as (dz & Fz & Ez).
    cbn [app ascending] in Hasc. destruct Hasc as [H Hasc].
    rewrite Ex, Ez, isoDay_order in H by assumption. apply Z.ltb_ge in H.
    assert (dz <= dy); [|lia].
    apply (IH z dz Fz Ez Hasc). intros e He. apply Hin. right. exact He.
Qed.

Lemma X6_sorted_events_are_chronological_witness :
  let ev := fun s : string =>
    {| name := "Sprint"; url := "https://example.org"; start_date := s;
       end_date := s; ev_startDate := s; ev_endDate := s;
       mode := "Online"; location := "Web"; original_date := s |} in
  sortEvents [ev "2025-03-04"; ev "2025-02-01"]
  = [ev "2025-02-01"; ev "2025-03-04"] /\
  ev_startDate (ev "2025-02-01") = isoDay 20120 /\
  ev_startDate (ev "2025-03-04") = isoDay 20151 /\
  20120 <= 20151.
Proof.
  intros ev. split; [reflexivity|]. split; [reflexivity|]. split; [reflexivity|].
  apply (X6_sorted_events_are_chronological
           [ev "2025-03-04"; ev "2025-02-01"] [] [] []
           (ev "2025-02-01") (ev "2025-03-04") 20120 20151).
  - intros e [<-|[<-|[]]].
    + exists 20151. split; [|reflexivity].
      unfold fourDigitYear. change (YearFromDay 20151) with 2025. lia.
    + exists 20120. split; [|reflexivity].
      unfold fourDigitYear. change (YearFromDay 20120) with 2025. lia.
  - reflexivity.
  - unfold fourDigitYear. change (YearFromDay 20120) with 2025. lia.
  - reflexivity.
  - unfold fourDigitYear. change (YearFromDay 20151) with 2025. lia.
  - reflexivity.
Defined.

(** ** What [main] extracts from the document *)

(** X7. Every entry [main] extracts is a slice of the document: the
    document contains, in one piece, the bullet with the entry's name and
    url, a line break, white space, and the annotation with the entry's
    date, mode and location followed by a period. *)
Theorem X7_entries_are_slices_of_the_document :
  forall (text : string) (en : Entry),
    In en (extractEntries text) ->
    exists pre post ws,
      text = pre ++ "- [" ++ entry_name en ++ "](" ++ entry_url en ++ ")" ++ LF
             ++ ws ++ "> Date: " ++ entry_date en ++ " || Mode: "
             ++ entry_mode en ++ " || Location: " ++ entry_location en
             ++ "." ++ post /\
      allChars isWhiteSpace ws = true.
Proof.
  intros text en H. apply extractEntries_In in H.
  destruct H as (pre & post & ws & H1 & H2 & _).
  exists pre, post, ws. split; assumption.
Qed.

Lemma X7_entries_are_slices_of_the_document_witness :
  exists pre post ws,
    unscheduledOnly
    = pre ++ "- [" ++ "Conf B" ++ "](" ++ "https://b.example" ++ ")" ++ LF
      ++ ws ++ "> Date: " ++ "Not announced yet" ++ " || Mode: " ++ "Online"
      ++ " || Location: " ++ "Online" ++ "." ++ post /\
    allChars isWhiteSpace ws = true.
Proof.
  apply (X7_entries_are_slices_of_the_document unscheduledOnly
           {| entry_name := "Conf B"; entry_url := "https://b.example";
              entry_date := "Not announced yet"; entry_mode := "Online";
              entry_location := "Online" |}).
  vm_compute. left. reflexivity.
Defined.

(** X8. No field of an extracted entry contains a line break, and the
    location never contains a period: the pattern ends the location at the
    first period after "Location: ", so "St. Louis" is cut to "St". *)
Theorem X8_fields_have_no_line_break :
  forall (text : string) (en : Entry),
    In en (extractEntries text) ->
    noLineBreak (entry_name en) = true /\ noLineBreak (entry_url en) = true /\
    noLineBreak (entry_date en) = true /\ noLineBreak (entry_mode en) = true /\
    noLineBreak (entry_location en) = true /\
    noPeriod (entry_location en) = true /\
    map entry_location
      (extractEntries ("- [A](u)" ++ LF
                       ++ "> Date: 4 March || Mode: m || Location: St. Louis, USA."))
    = ["St"]%list.
Proof.
  intros text en H. apply extractEntries_In in H.
  destruct H as (pre & post & ws & _ & _ & H).
  repeat split; try apply H. 
Qed.

Lemma X8_fields_have_no_line_break_witness :
  noLineBreak "Conf B" = true /\ noLineBreak "https://b.example" = true /\
  noLineBreak "Not announced yet" = true /\ noLineBreak "Online" = true /\
  noLineBreak "Online" = true /\ noPeriod "Online" = true.
Proof.
  destruct (X8_fields_have_no_line_break unscheduledOnly
           {| entry_name := "Conf B"; entry_url := "https://b.example";
              entry_date := "Not announced yet"; entry_mode := "Online";
              entry_location := "Online" |}) as (H1 & H2 & H3 & H4 & H5 & H6 & _).
  - vm_compute. left. reflexivity.
  - repeat split; assumption.
Defined.

(** ** The context year of a run *)

(** X9. The context year of a run is a year from 2000 to 2099 read off
    the document, or else the current year; the clock is used only for a
    document in which neither year pattern matches. *)
Theorem X9_context_year :
  forall (env : Ambient) (text : string),
    2000 <= fst (detectYear env text) <= 2099 \/
    (search headerYearPattern text = None /\
     search contentYearPattern text = None /\
     fst (detectYear env text)
     = YearFromTime (LocalTime (LocalTZA env) (now env))).
Proof.
  intros env text.
  destruct (detectYear_cases env text)
    as [(y & log & R & _ & H) | [(y & log & R & _ & _ & H) | (Hh & Hc & H)]];
    rewrite ?H; cbn [fst].
  - left; exact R.
  - left; exact R.
  - right; repeat split; assumption.
Qed.

(** X10. Once the document carries a year token of its own ([20dd] with
    no word character before or after), the context year lies between
    2000 and 2099, and the clock of the host reaches the output in one
    place only. Two runs in the same time zone at any two moments show the
    same lines on the console and make both files from the same events;
    the calendar texts they write agree on every line that is not a UID
    or a DTSTAMP line; and they are the same text when the random tokens
    agree and the clocks [generateICS] reads show the same UTC day. *)
Theorem X10_clock_enters_only_the_stamps :
  forall (tza n1 n2 : Z) (text : string) (o1 o2 : Oracle),
    hasYearToken text ->
    let run1 := main {| LocalTZA := tza; now := n1 |} (Return text) in
    let run2 := main {| LocalTZA := tza; now := n2 |} (Return text) in
    2000 <= fst (detectYear {| LocalTZA := tza; now := n1 |} text) <= 2099 /\
    consoleOutput run1 = consoleOutput run2 /\
    eventsWritten run1 = eventsWritten run2 /\
    map stableLines (calendarsWritten o1 run1)
    = map stableLines (calendarsWritten o2 run2) /\
    (sameTokensSameDay o1 o2 ->
     calendarsWritten o1 run1 = calendarsWritten o2 run2).
Proof.
  intros tza n1 n2 text o1 o2 T run1 run2.
  destruct (main_ignores_clock tza n1 n2 text T) as [Hy Hrun].
  fold run1 run2 in Hrun. rewrite <- Hrun. clear Hrun run2.
  split; [exact Hy|]. split; [reflexivity|]. split; [reflexivity|].
  rewrite !calendarsWritten_written. subst run1.
  destruct (main_written {| LocalTZA := tza; now := n1 |} text) as [-> | ->].
  - split; [reflexivity | intros _; reflexivity].
  - cbn [flat_map snd app map]. split.
    + unfold stableLines. rewrite !run_calendar_lines, (icsContent_stable o1 o2).
      reflexivity.
    + intros H. rewrite (generateICS_same o1 o2 _ H). reflexivity.
Qed.

Lemma X10_clock_enters_only_the_stamps_witness :
  2000 <= fst (detectYear (runner 0) twoEntries) <= 2099 /\
  consoleOutput (main (runner 0) (Return twoEntries))
  = consoleOutput (main (runner 1700000000000) (Return twoEntries)) /\
  eventsWritten (main (runner 0) (Return twoEntries))
  = eventsWritten (main (runner 1700000000000) (Return twoEntries)) /\
  map stableLines
    (calendarsWritten {| randomDigits := fun _ => [1; 2; 3]%list;
                         clockAt := fun _ => 1700000000000 |}
       (main (runner 0) (Return twoEntries)))
  = map stableLines
      (calendarsWritten {| randomDigits := fun _ => [1; 2; 3]%list;
                           clockAt := fun _ => 1700003600000 |}
         (main (runner 1700000000000) (Return twoEntries))) /\
  calendarsWritten {| randomDigits := fun _ => [1; 2; 3]%list;
                      clockAt := fun _ => 1700000000000 |}
    (main (runner 0) (Return twoEntries))
  = calendarsWritten {| randomDigits := fun _ => [1; 2; 3]%list;
                        clockAt := fun _ => 1700003600000 |}
      (main (runner 1700000000000) (Return twoEntries)).
Proof.
  destruct (X10_clock_enters_only_the_stamps 0 0 1700000000000 twoEntries
              {| randomDigits := fun _ => [1; 2; 3]%list;
                 clockAt := fun _ => 1700000000000 |}
              {| randomDigits := fun _ => [1; 2; 3]%list;
                 clockAt := fun _ => 1700003600000 |})
    as (H1 & H2 & H3 & H4 & H5).
  - exists "# Open Source Events ", "2"%char, "5"%char,
      (LF ++ "- [Conf A](https://a.example)" ++ LF ++
       "  > Date: 4th March || Mode: In-person || Location: Berlin, Germany." ++ LF ++
       "- [Conf B](https://b.example)" ++ LF ++
       "  > Date: Not announced yet || Mode: Online || Location: Online." ++ LF).
    repeat split; vm_compute; reflexivity.
  - split; [exact H1|]. split; [exact H2|]. split; [exact H3|]. split; [exact H4|].
    apply H5. intros k. split; [reflexivity | vm_compute; reflexivity].
Defined.

(** The clock does show in the calendar: the same run on another UTC day
    writes another text. *)
Example clock_day_shows_in_the_calendar :
  calendarsWritten {| randomDigits := fun _ => [1; 2; 3]%list; clockAt := fun _ => 0 |}
    (main (runner 0) (Return twoEntries))
  <> calendarsWritten {| randomDigits := fun _ => [1; 2; 3]%list;
                         clockAt := fun _ => msPerDay |}
       (main (runner 0) (Return twoEntries)).
Proof. vm_compute. discriminate. Qed.

(** Without one, the clock decides the year of every date. *)
Example clock_decides_without_a_year :
  written (main (runner 0)
    (Return ("- [A](u)" ++ LF ++ "> Date: 4 March || Mode: m || Location: l.")))
  <> written (main (runner 1700000000000)
    (Return ("- [A](u)" ++ LF ++ "> Date: 4 March || Mode: m || Location: l."))).
Proof. vm_compute. discriminate. Qed.

(** ** [fetchContent] *)

(** X11. [fetchContent] resolves with the chunks of the body put together
    in the order of arrival: after a response with status 200, the data
    received until the response ends is the text, whatever arrives later. *)
Theorem X11_fetch_assembles_the_body :
  forall (url : string) (chunks : list string) (later : list netEvent),
    fetchContent url
      (response 200 :: map data_chunk chunks ++ end_of_response :: later)
    = Some (Return (fold_right append "" chunks)).
Proof.
  intros url chunks later. unfold fetchContent. cbn [settle Z.eqb Pos.eqb negb].
  rewrite settle_listening.
  - f_equal. f_equal. cbn [append].
    induction chunks as [|c chunks IH]; [reflexivity|].
    cbn [map chunksOf fold_right]. rewrite IH. reflexivity.
  - induction chunks as [|c chunks IH]; [reflexivity | exact IH].
Qed.

(** X12. The files are never made from a failed or unfinished download:
    if a run writes anything, the events contain a response with status
    200 that is the first response, an end of that response, and no
    request error before the end; and the run is the one [main] makes of
    exactly the data received between the two. *)
Theorem X12_files_only_from_a_complete_download :
  forall (env : Ambient) (events : list netEvent),
    written (script env events) <> []%list ->
    exists before mid after,
      events = (before ++ response 200 :: mid ++ end_of_response :: after)%list /\
      forallb (fun ev => negb (isResponse ev || isRequestError ev)) before = true /\
      forallb (fun ev => negb (isEnd ev || isRequestError ev)) mid = true /\
      script env events = main env (Return (chunksOf mid)).
Proof.
  intros env events H. unfold script in *.
  destruct (fetchContent README_URL events) as [[text|e]|] eqn:E;
    [| exfalso; apply H; reflexivity | exfalso; apply H; reflexivity].
  unfold fetchContent in E. apply settle_resolved in E.
  destruct E as (before & mid & after & -> & Hn & He & -> & (before' & -> & Hb)).
  exists before', mid, after.
  rewrite <- !app_assoc. cbn [app]. split; [reflexivity|].
  rewrite <- app_assoc, forallb_app in Hn. apply andb_true_iff in Hn.
  destruct Hn as [Hn1 Hn2]. cbn [app forallb isRequestError negb andb] in Hn2.
  repeat split.
  - clear - Hb Hn1. induction before' as [|ev l IH]; [reflexivity|].
    cbn [forallb] in *. apply andb_true_iff in Hb, Hn1.
    destruct Hb as [B1 B2], Hn1 as [N1 N2]. rewrite IH by assumption.
    destruct ev; cbn in *; congruence.
  - clear - He Hn2. induction mid as [|ev l IH]; [reflexivity|].
    cbn [forallb] in *. apply andb_true_iff in He, Hn2.
    destruct He as [B1 B2], Hn2 as [N1 N2]. rewrite IH by assumption.
    destruct ev; cbn in *; congruence.
Qed.

Lemma X12_files_only_from_a_complete_download_witness :
  exists before mid after,
    [response 200; data_chunk twoEntries; end_of_response]%list
    = (before ++ response 200 :: mid ++ end_of_response :: after)%list /\
    forallb (fun ev => negb (isResponse ev || isRequestError ev)) before = true /\
    forallb (fun ev => negb (isEnd ev || isRequestError ev)) mid = true /\
    script (runner 0) [response 200; data_chunk twoEntries; end_of_response]%list
    = main (runner 0) (Return (chunksOf mid)).
Proof.
  apply (X12_files_only_from_a_complete_download (runner 0)).
  vm_compute. discriminate.
Defined.

(** ** [generateICS] *)

(** X13. The calendar [generateICS] builds is well formed line by line:
    it opens with BEGIN:VCALENDAR and closes with END:VCALENDAR, holds ten
    lines for each event that has both dates and none for the others, and
    has as many BEGIN:VEVENT lines as END:VEVENT lines, one pair for each
    such event. *)
Theorem X13_calendar_is_balanced :
  forall (o : Oracle) (events : list Event),
    let n := List.length (filter dated events) in
    List.length (icsContent o events) = (6 + 10 * n)%nat /\
    countLines "BEGIN:VEVENT" (icsContent o events) = n /\
    countLines "END:VEVENT" (icsContent o events) = n /\
    hd "" (icsContent o events) = "BEGIN:VCALENDAR" /\
    last (icsContent o events) "" = "END:VCALENDAR" /\
    countLines "BEGIN:VCALENDAR" (icsContent o events) = 1%nat /\
    countLines "END:VCALENDAR" (icsContent o events) = 1%nat.
Proof.
  intros o events n. unfold icsContent.
  destruct (veventsFrom_shape o events 0) as (H1 & H2 & H3). fold n in H1, H2, H3.
  rewrite !List.length_app, !countLines_app, H1, H2, H3.
  change (countLines "BEGIN:VEVENT" icsHeader) with 0%nat.
  change (countLines "END:VEVENT" icsHeader) with 0%nat.
  change (countLines "BEGIN:VEVENT" ["END:VCALENDAR"]%list) with 0%nat.
  change (countLines "END:VEVENT" ["END:VCALENDAR"]%list) with 0%nat.
  change (countLines "BEGIN:VCALENDAR" icsHeader) with 1%nat.
  change (countLines "END:VCALENDAR" icsHeader) with 0%nat.
  change (countLines "BEGIN:VCALENDAR" ["END:VCALENDAR"]%list) with 0%nat.
  change (countLines "END:VCALENDAR" ["END:VCALENDAR"]%list) with 1%nat.
  split; [cbn [List.length icsHeader]; lia|].
  split; [lia|]. split; [lia|]. split; [reflexivity|].
  split; [rewrite app_assoc; apply last_last|].
  assert (K : forall k l, countLines "BEGIN:VCALENDAR" (veventsFrom o k l) = 0%nat
                          /\ countLines "END:VCALENDAR" (veventsFrom o k l) = 0%nat).
  { intros k l. revert k. induction l as [|e l IH]; intros k; [split; reflexivity|].
    cbn [veventsFrom]. destruct (dated e); [|apply IH].
    rewrite !countLines_app. destruct (IH (S k)) as [-> ->]. split; reflexivity. }
  destruct (K 0%nat events) as [-> ->]. split; reflexivity.
Qed.

(** X14. Only the UID and DTSTAMP lines of the calendar depend on
    [Math.random] and on the clock: with any two sources of random numbers
    and of time, the calendars of the same events agree on all other
    lines. *)
Theorem X14_only_uid_and_dtstamp_vary :
  forall (o1 o2 : Oracle) (events : list Event),
    filter isStable (icsContent o1 events)
    = filter isStable (icsContent o2 events).
Proof.
  intros o1 o2 events. unfold icsContent. rewrite !filter_app. f_equal. f_equal.
  generalize 0%nat. induction events as [|e events IH]; intros k; [reflexivity|].
  cbn [veventsFrom]. destruct (dated e); [|apply IH].
  rewrite !filter_app, (IH (S k)).
  rewrite (isStable_veventLines (randomToken o1 k) (randomToken o2 k)
             (clockAt o1 k) (clockAt o2 k)).
  reflexivity.
Qed.

(** *** The text of the calendar splits back into its lines *)

(** X15. The calendar text of a run splits back into the lines it was
    joined from: for the events [main] writes, splitting the text of
    [generateICS] at CRLF gives exactly the header, ten lines for each
    event and the closing line; no field can break a line or smuggle one
    in. *)
Theorem X15_calendar_text_splits_into_its_lines :
  forall (env : Ambient) (year : Z) (text : string) (o : Oracle),
    let events := sortEvents (resolvedEvents env year (extractEntries text)) in
    split (generateICS o events) CRLF = icsContent o events /\
    List.length (icsContent o events) = (6 + 10 * List.length events)%nat.
Proof.
  intros env year text o events.
  assert (H : Forall (fun e => breakFree e = true /\ dated e = true) events).
  { apply Forall_forall. intros e He.
    apply (resolvedEvents_breakFree env year text).
    apply (Permutation_in e (Permutation_sym (sortEvents_perm _))). exact He. }
  split.
  - unfold generateICS. apply split_join.
    + unfold icsContent, icsHeader. discriminate.
    + apply icsContent_noLineBreak.
      eapply Forall_impl; [|exact H]. intros e [He _]. exact He.
  - unfold icsContent. rewrite !List.length_app.
    destruct (veventsFrom_shape o events 0) as (-> & _).
    replace (filter dated events) with events; [cbn [List.length icsHeader]; lia|].
    clear - H. induction H as [|e l [_ He] _ IH]; [reflexivity|].
    cbn [filter]. rewrite He, <- IH. reflexivity.
Qed.

(** Left to itself [generateICS] does not have this property: it copies
    the fields as they are, and a name with a line break adds a line. *)
Example a_line_break_in_a_name_adds_lines :
  let e := eventOf {| entry_name := "A" ++ CRLF ++ "END:VEVENT"; entry_url := "u";
                      entry_date := "4 March"; entry_mode := "m";
                      entry_location := "l" |} "2025-03-04" "2025-03-05" in
  let o := {| randomDigits := fun _ => [1; 2; 3]%list; clockAt := fun _ => 0 |} in
  List.length (icsContent o [e]) = 16%nat /\
  List.length (split (generateICS o [e]) CRLF) = 17%nat.
Proof. split; vm_compute; reflexivity. Qed.

(** *** The dates of the calendar *)

(** X16. In the calendar a date is eight digits and T000000Z: for the ISO
    date of a day in the years 0 to 9999, DTSTART and DTEND carry the
    year, month and day of that date with the hyphens removed, sixteen
    characters in all; and DTSTAMP is the UTC day of the clock in the same
    form, so all moments of one day give one stamp. *)
Theorem X16_calendar_dates :
  forall d : Z,
    fourDigitYear d ->
    icsDate (isoDay d)
    = padDigits 4 (YearFromDay d)
      ++ padDigits 2 (MonthFromTime (d * msPerDay) + 1)
      ++ padDigits 2 (DateFromTime (d * msPerDay)) ++ "T000000Z" /\
    String.length (icsDate (isoDay d)) = 16%nat /\
    (forall t, Day t = d -> icsStamp t = icsDate (isoDay d)).
Proof.
  intros d H.
  assert (E : forall class,
             class "-"%char = true ->
             (forall k n, removeChars class (padDigits k n) = padDigits k n) ->
             removeChars class (isoDay d)
             = padDigits 4 (YearFromDay d)
               ++ padDigits 2 (MonthFromTime (d * msPerDay) + 1)
               ++ padDigits 2 (DateFromTime (d * msPerDay))).
  { intros class Hc Hp. rewrite (isoDay_fourDigit d H).
    rewrite !removeChars_app, !Hp. cbn [removeChars]. rewrite Hc. reflexivity. }
  assert (E1 := E isHyphen eq_refl (fun k n => proj1 (removeChars_padDigits k n))).
  assert (E2 := E isStampPunct eq_refl (fun k n => proj2 (removeChars_padDigits k n))).
  split; [|split].
  - unfold icsDate. rewrite E1, !append_assoc. reflexivity.
  - unfold icsDate. rewrite E1, !length_app, !padDigits_length. reflexivity.
  - intros t <-. unfold icsStamp, icsDate. f_equal. rewrite E1.
    unfold isoString. rewrite removeChars_app, E2.
    cbn [append removeChars isStampPunct Ascii.eqb].
    change (removeChars isStampPunct (String "T" ?x))
      with (String "T"%char (removeChars isStampPunct x)).
    rewrite <- !append_assoc.
    apply (beforeT_app_T
             ((padDigits 4 (YearFromDay (Day t))
               ++ padDigits 2 (MonthFromTime (Day t * msPerDay) + 1))
              ++ padDigits 2 (DateFromTime (Day t * msPerDay)))).
    apply beforeT_app; [apply beforeT_app|]; apply beforeT_padDigits.
Qed.

Lemma X16_calendar_dates_witness :
  icsDate (isoDay 20151) = "20250304T000000Z" /\
  String.length (icsDate (isoDay 20151)) = 16%nat /\
  icsStamp 1741091696789 = icsDate (isoDay 20151).
Proof.
  destruct (X16_calendar_dates 20151) as (H1 & H2 & H3).
  - unfold fourDigitYear. change (YearFromDay 20151) with 2025. lia.
  - split; [exact H1|]. split; [exact H2|]. apply H3. reflexivity.
Defined.

(** ** The first lines of [parseDate] *)

(** X17. Removing the ordinal suffixes never touches a digit: the phrase
    keeps all its digits in their order and does not grow, and a phrase
    without digits is left as it is. *)
Theorem X17_ordinals_leave_the_digits :
  forall s : string,
    digitsOf (stripOrdinals s) = digitsOf s /\
    (String.length (stripOrdinals s) <= String.length s)%nat /\
    (digitsOf s = "" -> stripOrdinals s = s).
Proof.
  intros s. unfold stripOrdinals.
  destruct (stripFrom_keeps_digits (String.length s) s false (le_n _)) as [H1 H2].
  split; [exact H1|]. split; [exact H2 | apply stripFrom_without_digits].
Qed.

Lemma X17_ordinals_leave_the_digits_witness :
  stripOrdinals "Not announced yet" = "Not announced yet".
Proof.
  destruct (X17_ordinals_leave_the_digits "Not announced yet") as (_ & _ & H).
  apply H. reflexivity.
Defined.

(** ** Dates as written *)

(** X18. On the runner a single-day phrase gives back the date it says:
    when the phrase is read as year [y] (from 100 to 9998), month [m] and a
    day [d] that the month has, [startDate] is [y-m-d] written with four,
    two and two digits and [endDate] is the date of the following day. *)
Theorem X18_single_day_as_written :
  forall (clock : Z) (s : string) (Y y m d : Z),
    reading s Y = SingleOf y m d ->
    100 <= y <= 9998 ->
    1 <= d <= daysInMonth y m ->
    resolve (runner clock) s Y
    = Return (resolved (civil y m d) (civilNext y m d)).
Proof.
  intros clock s Y y m d Hread Hy Hd.
  pose proof (reading_range s Y) as R. rewrite Hread in R.
  destruct R as (_ & Hm & _).
  pose proof (daysInMonth_range y m Hm) as Hdim.
  rewrite resolve_reading, Hread. cbn [construct].
  rewrite emitSingle_eq by apply runner_offset. cbn [LocalTZA runner].
  rewrite newDate_runner, MakeFullYear_from_100 by lia. unfold midnight.
  destruct (midnight_valid (dayNumber y m d)) as [_ ->];
    [apply dayNumber_bound; lia|].
  rewrite Day_midnight, isoDay_civil, isoDay_civilNext by lia. reflexivity.
Qed.

Lemma X18_single_day_as_written_witness :
  resolve (runner 0) "4th March" 2025
  = Return (resolved (civil 2025 3 4) (civilNext 2025 3 4)).
Proof.
  apply (X18_single_day_as_written 0 "4th March" 2025 2025 3 4).
  - vm_compute; reflexivity.
  - lia.
  - vm_compute. split; discriminate.
Defined.

(** X19. On the runner a range with days that exist gives back the dates
    it says, the end made exclusive: [startDate] is the start date as
    written, and [endDate] is the day after the end date as written, taken
    in the following year exactly when the end month is an earlier month
    than the start month. (Year in force from 100 to 9997.) *)
Theorem X19_range_as_written :
  forall (clock : Z) (s : string) (Y y ms me sd ed : Z),
    reading s Y = RangeOf y ms me sd ed ->
    100 <= y <= 9997 ->
    1 <= sd <= daysInMonth y ms ->
    1 <= ed <= daysInMonth y me ->
    ed <= daysInMonth (if me <? ms then y + 1 else y) me ->
    resolve (runner clock) s Y
    = Return (resolved (civil y ms sd)
                       (civilNext (if me <? ms then y + 1 else y) me ed)).
Proof.
  intros clock s Y y ms me sd ed Hread Hy Hsd Hed Hed'.
  pose proof (reading_range s Y) as R. rewrite Hread in R.
  destruct R as (_ & Hms & Hme & _ & _).
  pose proof (daysInMonth_range y ms Hms) as Dms.
  pose proof (daysInMonth_range y me Hme) as Dme.
  rewrite resolve_reading, Hread. cbn [construct].
  rewrite emitRange_eq by apply runner_offset.
  assert (ES : constructedStart (runner clock) y ms sd = midnight (dayNumber y ms sd)).
  { unfold constructedStart. cbn [LocalTZA runner].
    rewrite newDate_runner, MakeFullYear_from_100 by lia. reflexivity. }
  assert (EE : constructedEnd (runner clock) y me ed = midnight (dayNumber y me ed)).
  { unfold constructedEnd. cbn [LocalTZA runner].
    rewrite newDate_runner, MakeFullYear_from_100 by lia. reflexivity. }
  assert (ER : rolledEnd (runner clock) y ms me sd ed
               = midnight (dayNumber (if me <? ms then y + 1 else y) me ed)).
  { unfold rolledEnd, wraps. rewrite ES, EE. cbn [LocalTZA runner].
    destruct (Z.ltb_spec me ms) as [L|L]; [|rewrite andb_false_r; reflexivity].
    assert (Hlt : dayNumber y me ed < dayNumber y ms sd).
    { unfold dayNumber, daysInMonth in *.
      pose proof (monthStart_mono (leapDay y) me (ms - 1) (leapDay_range y)
                    ltac:(lia) ltac:(lia)). lia. }
    replace (JSDate.ltb (midnight (dayNumber y me ed)) (midnight (dayNumber y ms sd)))
      with true
      by (symmetry; unfold JSDate.ltb, midnight; apply Z.ltb_lt;
          unfold msPerDay; lia).
    cbn [andb]. rewrite setFullYear_runner by lia.
    destruct (civil_fields y me ed Hme Hed) as (_ & -> & ->).
    replace (me - 1 + 1) with me by lia. reflexivity. }
  rewrite ES, ER. unfold midnight.
  set (y' := if me <? ms then y + 1 else y) in *.
  assert (Hy' : 100 <= y' <= 9998) by (subst y'; destruct (me <? ms); lia).
  destruct (midnight_valid (dayNumber y' me ed)) as [_ ->];
    [apply dayNumber_bound; lia|].
  rewrite !Day_midnight, isoDay_civil, isoDay_civilNext by lia. reflexivity.
Qed.

Lemma X19_range_as_written_witness :
  resolve (runner 0) "28 December - 2 January" 2025
  = Return (resolved (civil 2025 12 28)
                     (civilNext (if 1 <? 12 then 2025 + 1 else 2025) 1 2)).
Proof.
  apply (X19_range_as_written 0 "28 December - 2 January" 2025 2025 12 1 28 2).
  - vm_compute; reflexivity.
  - lia.
  - vm_compute. split; discriminate.
  - vm_compute. split; discriminate.
  - vm_compute. discriminate.
Defined.

(** X20. [parseDate] throws only on numbers far outside any calendar: on
    the runner, with a context year within 200000 years of year 0, a
    phrase whose day numbers are at most ten million is always answered
    with a pair, resolved or not, and never with an exception. *)
Theorem X20_ordinary_numbers_never_throw :
  forall (clock : Z) (s : string) (Y : Z),
    -200000 <= Y <= 200000 ->
    match reading s Y with
    | SingleOf _ _ d => d <= 10000000
    | RangeOf _ _ _ sd ed => sd <= 10000000 /\ ed <= 10000000
    | _ => True
    end ->
    exists r, resolve (runner clock) s Y = Return r.
Proof.
  intros clock s Y HY Hdays.
  pose proof (reading_range s Y) as R. pose proof (reading_defined s Y) as Hdef.
  rewrite resolve_reading.
  destruct (reading s Y) as [| |y ms me sd ed|y m d|]; cbn [construct];
    try (eexists; reflexivity); try contradiction.
  - destruct R as (Hy & Hms & Hme & Hsd & Hed). destruct Hdays as [Bs Be].
    assert (Hy' : -200000 <= y <= 200000) by lia.
    pose proof (MakeFullYear_small y Hy') as Hf.
    rewrite emitRange_eq by apply runner_offset.
    assert (ES : constructedStart (runner clock) y ms sd
                 = midnight (dayNumber (MakeFullYear y) ms sd))
      by (unfold constructedStart; cbn [LocalTZA runner];
          apply newDate_runner; lia).
    assert (EE : constructedEnd (runner clock) y me ed
                 = midnight (dayNumber (MakeFullYear y) me ed))
      by (unfold constructedEnd; cbn [LocalTZA runner];
          apply newDate_runner; lia).
    rewrite ES. unfold rolledEnd. rewrite EE. cbn [LocalTZA runner].
    destruct (wraps (runner clock) y ms me sd ed).
    + rewrite setFullYear_runner by lia. unfold midnight.
      pose proof (MonthFromTime_range (dayNumber (MakeFullYear y) me ed * msPerDay)).
      pose proof (DateFromTime_range (dayNumber (MakeFullYear y) me ed * msPerDay)).
      match goal with
      | |- context [dayNumber (y + 1) ?m ?d] =>
          destruct (midnight_valid (dayNumber (y + 1) m d)) as [_ ->];
            [apply dayNumber_bound; lia|]
      end.
      eexists; reflexivity.
    + unfold midnight.
      destruct (midnight_valid (dayNumber (MakeFullYear y) me ed)) as [_ ->];
        [apply dayNumber_bound; lia|].
      eexists; reflexivity.
  - destruct R as (Hy & Hm & Hd).
    assert (Hy' : -200000 <= y <= 200000) by lia.
    pose proof (MakeFullYear_small y Hy') as Hf.
    rewrite emitSingle_eq by apply runner_offset. cbn [LocalTZA runner].
    rewrite newDate_runner by lia. unfold midnight.
    destruct (midnight_valid (dayNumber (MakeFullYear y) m d)) as [_ ->];
      [apply dayNumber_bound; lia|].
    eexists; reflexivity.
Qed.

Lemma X20_ordinary_numbers_never_throw_witness :
  exists r, resolve (runner 0) "31 April" 2025 = Return r.
Proof.
  apply (X20_ordinary_numbers_never_throw 0 "31 April" 2025).
  - lia.
  - vm_compute. discriminate.
Defined.

(** ** The time zone of the host *)



(** ** The other copy of the script *)

(** X22. The older copy of the script, which takes the current year as
    the context year, writes the same files as the script whenever the
    year the script detects in the document is the current year; a failed
    fetch ends both the same way. *)
Theorem X22_older_copy_writes_the_same_files :
  forall (env : Ambient) (markdownText : string),
    fst (detectYear env markdownText)
    = YearFromTime (LocalTime (LocalTZA env) (now env)) ->
    written (main env (Return markdownText))
    = written (main_without_detection env (Return markdownText)) /\
    forall e, main env (Throw e) = main_without_detection env (Throw e).
Proof.
  intros env markdownText Hyear. split; [|reflexivity].
  unfold main_without_detection. cbv zeta. rewrite <- Hyear.
  set (st0 := {| events := []; successCount := 0; failCount := 0; trace := [] |}).
  destruct (throws_or_not env (fst (detectYear env markdownText))
              (extractEntries markdownText)) as [Hno | (en & Hin & Hthrow)].
  - destruct (main_when_returns env markdownText Hno)
      as (warnings & Hw & _ & ->).
    destruct (extractionLoop_returns env _ _ st0 Hno) as (warnings' & -> & Hw' & _).
    cbn [events trace st0 app].
    rewrite !written_app, detectYear_writes_nothing, Hw.
    destruct (resolvedEvents env (fst (detectYear env markdownText))
                (extractEntries markdownText)) as [|e R];
      rewrite !written_app, Hw'; reflexivity.
  - destruct (main_when_throws env markdownText en Hin Hthrow)
      as (before & Hw & ->).
    destruct (extractionLoop_throws env _ _ st0 en Hin Hthrow) as (st' & -> & Hw').
    rewrite !written_app, Hw, Hw'. reflexivity.
Qed.

Lemma X22_older_copy_writes_the_same_files_witness :
  written (main (runner 1740000000000) (Return twoEntries))
  = written (main_without_detection (runner 1740000000000) (Return twoEntries)) /\
  forall e, main (runner 1740000000000) (Throw e)
            = main_without_detection (runner 1740000000000) (Throw e).
Proof.
  apply (X22_older_copy_writes_the_same_files (runner 1740000000000) twoEntries).
  vm_compute. reflexivity.
Defined.

(** A document of another year tells the two copies apart. *)
Example copies_differ_on_another_year :
  written (main (runner 0) (Return twoEntries))
  <> written (main_without_detection (runner 0) (Return twoEntries)).
Proof. vm_compute. discriminate. Qed.
